(** * Verification of the test-migration codemods

    A shallow embedding of the jscodeshift transforms of this repository:

    - [migrate-sinon-to-node-test.ts], the sandboxed stub/mock migration
      (module [Sinon]);
    - the two [should]-assertion migrations (module [Should]): their import
      handling and a part of their passes.

    The transforms work on the syntax tree that jscodeshift hands them: plain
    JavaScript objects with a [type] field, read with unchecked property
    accesses ([callee.name], [args[0].object], ...).  The embedding keeps that
    view: a node is a JavaScript object, a path is the list of keys that leads
    to it, and reading a property of [undefined] raises. *)

From stdpp Require Import base strings list gmap pretty.
From Stdlib Require Import ZArith Lia.

Open Scope string_scope.

(** ** Outcomes of a transform *)

(** [Throw] is an exception raised by the transform's own code (a [TypeError]
    on a property read, or a builder refusing [undefined]).  [Beyond] marks a run that
    leaves what is embedded: it acts on a path whose node an earlier step of
    the same pass has taken out of the tree, or it meets a tree no parser
    produces (a call without an argument array). *)
Inductive result (A : Type) : Type :=
| Ok (a : A)
| Throw (what : string)
| Beyond (what : string).
Arguments Ok {A} a.
Arguments Throw {A} what.
Arguments Beyond {A} what.

#[global] Instance result_ret : MRet result := fun _ a => Ok a.
#[global] Instance result_bind : MBind result := fun _ _ k m =>
  match m with
  | Ok a => k a
  | Throw e => Throw e
  | Beyond e => Beyond e
  end.

(** Left-to-right iteration that stops at the first exception. *)
Fixpoint filterM {A} (f : A -> result bool) (l : list A) : result (list A) :=
  match l with
  | [] => Ok []
  | x :: r =>
      b ← f x;
      r' ← filterM f r;
      Ok (if b : bool then x :: r' else r')
  end.

Fixpoint foldM {A S} (f : S -> A -> result S) (s : S) (l : list A) : result S :=
  match l with
  | [] => Ok s
  | x :: r => s' ← f s x; foldM f s' r
  end.

Fixpoint someM {A} (f : A -> result bool) (l : list A) : result bool :=
  match l with
  | [] => Ok false
  | x :: r => b ← f x; if b : bool then Ok true else someM f r
  end.

(** ** JavaScript values *)

Module JS.

(** Numbers are the integers: the numeric literals and the lengths and indices
    the transforms handle are integral. *)
#[warnings="-register-all"]
Inductive val : Type :=
| VUndef
| VNull
| VBool (b : bool)
| VNum (z : Z)
| VStr (s : string)
| VArr (xs : list val)
| VObj (fs : list (string * val)).

Fixpoint field (k : string) (fs : list (string * val)) : option val :=
  match fs with
  | [] => None
  | (k', v) :: r => if String.eqb k k' then Some v else field k r
  end.

(** [v.k] *)
Definition prop (v : val) (k : string) : result val :=
  match v with
  | VUndef | VNull => Throw ("TypeError: cannot read property " ++ k)
  | VObj fs => Ok (default VUndef (field k fs))
  | VArr xs => Ok (if String.eqb k "length" then VNum (Z.of_nat (length xs)) else VUndef)
  | VStr s => Ok (if String.eqb k "length" then VNum (Z.of_nat (String.length s)) else VUndef)
  | VBool _ | VNum _ => Ok VUndef
  end.

(** [v?.k] *)
Definition opt_prop (v : val) (k : string) : result val :=
  match v with
  | VUndef | VNull => Ok VUndef
  | _ => prop v k
  end.

(** [v[i]] for a literal index *)
Definition idx (v : val) (i : nat) : result val :=
  match v with
  | VUndef | VNull => Throw "TypeError: cannot read an index"
  | VArr xs => Ok (default VUndef (xs !! i))
  | VStr s => Ok (match String.get i s with Some c => VStr (String c "") | None => VUndef end)
  | _ => Ok VUndef
  end.

Definition truthy (v : val) : bool :=
  match v with
  | VUndef | VNull => false
  | VBool b => b
  | VNum z => negb (Z.eqb z 0)
  | VStr s => negb (String.eqb s "")
  | VArr _ | VObj _ => true
  end.

(** [a || b] *)
Definition or_else (a b : val) : val := if truthy a then a else b.

(** [a === b] on primitives.  Two objects are the same only when they are the
    same reference, which a value does not record: the embedding answers
    [false] and the transforms' one comparison of nodes is handled where it
    occurs ([Should.equalReplacement]). *)
Definition strict_eq (a b : val) : bool :=
  match a, b with
  | VUndef, VUndef | VNull, VNull => true
  | VBool x, VBool y => Bool.eqb x y
  | VNum x, VNum y => Z.eqb x y
  | VStr x, VStr y => String.eqb x y
  | _, _ => false
  end.

(** [v === 'lit'] *)
Definition is_str (v : val) (lit : string) : bool := strict_eq v (VStr lit).

(** [lits.includes(v)] *)
Definition includes (lits : list string) (v : val) : bool := existsb (is_str v) lits.

(** The string a template literal [`${v}`] substitutes for [v]. *)
Fixpoint to_str (v : val) : string :=
  match v with
  | VUndef => "undefined"
  | VNull => "null"
  | VBool true => "true"
  | VBool false => "false"
  | VNum z => pretty z
  | VStr s => s
  | VObj _ => "[object Object]"
  | VArr xs =>
      (fix join (first : bool) (xs : list val) : string :=
         match xs with
         | [] => ""
         | x :: r =>
             (if first then "" else ",") ++
             match x with VUndef | VNull => "" | _ => to_str x end ++ join false r
         end) true xs
  end.

(** A syntax-tree node: an object whose first field is its [type]. *)
Definition node (ty : string) (fs : list (string * val)) : val :=
  VObj (("type", VStr ty) :: fs).

(** [j.T.check(v)]: [v] is a node of type [T].  ast-types also accepts the
    types it derives from [T] (optional-chaining and JSX variants); the trees
    considered carry none of them. *)
Definition check (ty : string) (v : val) : bool :=
  match v with
  | VObj fs => match field "type" fs with Some t => is_str t ty | None => false end
  | _ => false
  end.

(** jscodeshift's [matchNode(haystack, needle)], the filter argument of
    [find]: every own key of the needle is an own key of the haystack, with
    matching values; primitives are compared with [===]. *)
Fixpoint matchNode (haystack needle : val) {struct needle} : bool :=
  match needle with
  | VObj nfs =>
      match haystack with
      | VObj hfs =>
          (fix every (nfs : list (string * val)) : bool :=
             match nfs with
             | [] => true
             | (k, n) :: r =>
                 match field k hfs with
                 | Some h => matchNode h n && every r
                 | None => false
                 end
             end) nfs
      | VArr _ => match nfs with [] => true | _ => false end
      | _ => false
      end
  | VArr nxs =>
      match haystack with
      | VArr hxs =>
          (fix every (i : nat) (nxs : list val) : bool :=
             match nxs with
             | [] => true
             | n :: r =>
                 match hxs !! i with
                 | Some h => matchNode h n && every (S i) r
                 | None => false
                 end
             end) 0 nxs
      | VObj _ => match nxs with [] => true | _ => false end
      | _ => false
      end
  | _ => strict_eq haystack needle
  end.

End JS.
Import JS.

(** ** Paths into the tree *)

Module Tree.

(** One step down: into a field of a node, or to an element of an array. *)
Inductive key : Type :=
| F (name : string)
| I (index : nat).

Definition key_eqb (a b : key) : bool :=
  match a, b with
  | F x, F y => String.eqb x y
  | I x, I y => Nat.eqb x y
  | _, _ => false
  end.

(** A path lists its keys from the node back to the root, so that the parent
    is a suffix.  The root (the [File] node) is the empty path. *)
Definition path : Type := list key.

Fixpoint get_down (v : val) (pd : list key) : option val :=
  match pd with
  | [] => Some v
  | F k :: r => match v with VObj fs => field k fs ≫= fun x => get_down x r | _ => None end
  | I i :: r => match v with VArr xs => xs !! i ≫= fun x => get_down x r | _ => None end
  end.

(** The value a path stands for, [path.value]. *)
Definition value_at (root : val) (p : path) : option val := get_down root (rev p).

(** [path.node], for a path that is still attached. *)
Definition node_at (root : val) (p : path) : result val :=
  match value_at root p with
  | Some v => Ok v
  | None => Beyond "path no longer in the tree"
  end.

(** [path.parent]: the path of the enclosing node; arrays are not nodes. *)
Fixpoint parent (p : path) : option path :=
  match p with
  | [] => None
  | F _ :: r => Some r
  | I _ :: r => parent r
  end.

(** [p], [p.parent], [p.parent.parent], ... up to the root. *)
Fixpoint ancestors (p : path) : list path :=
  p :: match p with
       | [] => []
       | F _ :: r => ancestors r
       | I _ :: r => match r with [] => [] | _ :: r' => ancestors r' end
       end.

(** [f] over the elements of an array with their indices, from index [i] on. *)
Definition eachFrom {A B} (f : nat -> A -> list B) : nat -> list A -> list B :=
  fix go (i : nat) (xs : list A) : list B :=
    match xs with
    | [] => []
    | x :: r => (f i x ++ go (S i) r)%list
    end.

(** Pre-order enumeration of the nodes below [v], each with its path: the
    order in which [find] delivers them (a node, then its fields in order). *)
Fixpoint walk (pre : path) (v : val) : list (path * val) :=
  match v with
  | VObj fs => (pre, v) :: flat_map (fun kx : string * val => walk (F kx.1 :: pre) kx.2) fs
  | VArr xs => eachFrom (fun i x => walk (I i :: pre) x) 0 xs
  | _ => []
  end.

(** [root.find(j.T)]; the root itself is not a candidate. *)
Definition find (root : val) (ty : string) : list (path * val) :=
  List.filter (fun pn => check ty pn.2) (tail (walk [] root)).

(** [root.find(j.T, needle)] *)
Definition find_matching (root : val) (ty : string) (needle : val) : list (path * val) :=
  List.filter (fun pn => matchNode pn.2 needle) (find root ty).

(** *** Mutation *)

Fixpoint set_field (k : string) (x : val) (fs : list (string * val)) : option (list (string * val)) :=
  match fs with
  | [] => None
  | (k', v) :: r =>
      if String.eqb k k' then Some ((k', x) :: r)
      else r' ← set_field k x r; Some ((k', v) :: r')
  end.

(** Rewrites the value found at [pd] with [f]. *)
Fixpoint update_down (v : val) (pd : list key) (f : val -> option val) : option val :=
  match pd with
  | [] => f v
  | F k :: r =>
      match v with
      | VObj fs =>
          x ← field k fs; x' ← update_down x r f; fs' ← set_field k x' fs; Some (VObj fs')
      | _ => None
      end
  | I i :: r =>
      match v with
      | VArr xs => x ← xs !! i; x' ← update_down x r f; Some (VArr (<[i:=x']> xs))
      | _ => None
      end
  end.

(** [j(path).replaceWith(n)] *)
Definition replaceWith (root : val) (p : path) (n : val) : result val :=
  match update_down root (rev p) (fun _ => Some n) with
  | Some root' => Ok root'
  | None => Beyond "replaceWith on a path no longer in the tree"
  end.

(** [j(path).remove()] for an element of an array (a statement of a body, a
    declaration of a program).  Pruning a node held directly in a field
    triggers ast-types' clean-up of the parent, which is not embedded. *)
Definition remove (root : val) (p : path) : result val :=
  match p with
  | I i :: container =>
      match update_down root (rev container)
              (fun a => match a with
                        | VArr xs => if decide (i < length xs) then Some (VArr (delete i xs)) else None
                        | _ => None
                        end) with
      | Some root' => Ok root'
      | None => Beyond "remove on a path no longer in the tree"
      end
  | _ => Beyond "remove of a node that is not an array element"
  end.

(** [path.insertBefore(n)] for an element position of an array; the position
    may be one past the end (the first slot of an empty body). *)
Definition insertBefore (root : val) (p : path) (n : val) : result val :=
  match p with
  | I i :: container =>
      match update_down root (rev container)
              (fun a => match a with
                        | VArr xs => Some (VArr (take i xs ++ n :: drop i xs)%list)
                        | _ => None
                        end) with
      | Some root' => Ok root'
      | None => Beyond "insertBefore on a path no longer in the tree"
      end
  | _ => Beyond "insertBefore of a node that is not an array element"
  end.

(** *** Paths collected before a mutation

    [find(...).forEach(...)] collects its paths first and mutates while it
    iterates.  jscodeshift's paths are live: when an element is removed from an
    array, the paths of the later elements follow them to their new index.  A
    collected path is [Some p] while its node is in the tree at [p], [None]
    once it is not. *)

Fixpoint shift_down (removed pd : list key) : option (list key) :=
  match removed, pd with
  | [I i], I j :: rest =>
      if decide (j < i) then Some pd
      else if decide (j = i) then None
      else Some (I (pred j) :: rest)
  | k :: removed', k' :: pd' =>
      if key_eqb k k' then cons k' <$> shift_down removed' pd' else Some pd
  | _, _ => Some pd
  end.

(** The path of [p]'s node once the element at [removed] is gone. *)
Definition after_remove (removed : path) (p : option path) : option path :=
  p ← p; pd ← shift_down (rev removed) (rev p); Some (rev pd).

Fixpoint below_down (top pd : list key) : bool :=
  match top, pd with
  | [], _ :: _ => true
  | k :: top', k' :: pd' => key_eqb k k' && below_down top' pd'
  | _, _ => false
  end.

(** The path of [p]'s node once the subtree at [replaced] has been swapped for
    a new node: nodes strictly inside the old subtree are gone. *)
Definition after_replace (replaced : path) (p : option path) : option path :=
  p ← p; if below_down (rev replaced) (rev p) then None else Some p.

End Tree.
Import Tree.

(** ** The builders of [api.jscodeshift]

    A builder returns the node with its [type] and the fields it was given;
    the fields ast-types fills with defaults ([loc], [comments], ...) are left
    out.  ast-types validates the arguments of a builder; the validation is
    embedded where a transform can hand over [undefined] ([identifier],
    [literal], [returnStatement]). *)

Module j.

Definition ident (name : string) : val := node "Identifier" [("name", VStr name)].

Definition identifier (name : val) : result val :=
  match name with
  | VStr s => Ok (ident s)
  | _ => Throw "identifier: name is not a string"
  end.

Definition literal (value : val) : result val :=
  match value with
  | VStr _ | VNum _ | VBool _ | VNull => Ok (node "Literal" [("value", value)])
  | _ => Throw "literal: value is not a primitive"
  end.

Definition lit (value : val) : val := node "Literal" [("value", value)].

Definition stringLiteral (value : string) : val := node "StringLiteral" [("value", VStr value)].

Definition memberExpression (object property : val) (computed : bool) : val :=
  node "MemberExpression" [("object", object); ("property", property); ("computed", VBool computed)].

Definition callExpression (callee : val) (arguments : list val) : val :=
  node "CallExpression" [("callee", callee); ("arguments", VArr arguments)].

Definition binaryExpression (operator : string) (left right : val) : val :=
  node "BinaryExpression" [("operator", VStr operator); ("left", left); ("right", right)].

Definition logicalExpression (operator : string) (left right : val) : val :=
  node "LogicalExpression" [("operator", VStr operator); ("left", left); ("right", right)].

Definition assignmentExpression (operator : string) (left right : val) : val :=
  node "AssignmentExpression" [("operator", VStr operator); ("left", left); ("right", right)].

Definition restElement (argument : val) : val := node "RestElement" [("argument", argument)].

Definition arrowFunctionExpression (params : list val) (body : val) : val :=
  node "ArrowFunctionExpression" [("params", VArr params); ("body", body)].

Definition tsAnyKeyword : val := node "TSAnyKeyword" [].

Definition tsAsExpression (expression typeAnnotation : val) : val :=
  node "TSAsExpression" [("expression", expression); ("typeAnnotation", typeAnnotation)].

Definition expressionStatement (expression : val) : val :=
  node "ExpressionStatement" [("expression", expression)].

Definition blockStatement (body : list val) : val := node "BlockStatement" [("body", VArr body)].

Definition returnStatement (argument : val) : result val :=
  match argument with
  | VObj _ | VNull => Ok (node "ReturnStatement" [("argument", argument)])
  | _ => Throw "returnStatement: argument is not an expression"
  end.

Definition ifStatement (test consequent : val) : val :=
  node "IfStatement" [("test", test); ("consequent", consequent)].

Definition importSpecifier (imported local : val) : val :=
  node "ImportSpecifier" [("imported", imported); ("local", local)].

Definition importDefaultSpecifier (local : val) : val :=
  node "ImportDefaultSpecifier" [("local", local)].

Definition importDeclaration (specifiers : list val) (source : val) : val :=
  node "ImportDeclaration" [("specifiers", VArr specifiers); ("source", source)].

End j.

(** Nodes as the TypeScript parser delivers them, for writing inputs down. *)
Module Src.

Definition numericLiteral (z : Z) : val := node "NumericLiteral" [("value", VNum z)].

Definition variableDeclarator (id init : val) : val :=
  node "VariableDeclarator" [("id", id); ("init", init)].

Definition variableDeclaration (kind : string) (declarations : list val) : val :=
  node "VariableDeclaration" [("kind", VStr kind); ("declarations", VArr declarations)].

(** [const x = init;] *)
Definition const (x : string) (init : val) : val :=
  variableDeclaration "const" [variableDeclarator (j.ident x) init].

(** [o.p] and [o.p(args)] *)
Definition dot (o : val) (p : string) : val := j.memberExpression o (j.ident p) false.
Definition call (o : val) (p : string) (args : list val) : val := j.callExpression (dot o p) args.

(** [f('name', () => { body })], the shape of [it], [describe], [afterEach]. *)
Definition arrow (body : list val) : val := j.arrowFunctionExpression [] (j.blockStatement body).
Definition named (f name : string) (body : list val) : val :=
  j.expressionStatement (j.callExpression (j.ident f) [j.stringLiteral name; arrow body]).
Definition hook (f : string) (body : list val) : val :=
  j.expressionStatement (j.callExpression (j.ident f) [arrow body]).

Definition program (body : list val) : val := node "Program" [("body", VArr body)].
Definition file (body : list val) : val := node "File" [("program", program body)].

End Src.

(** ** Shared pieces of the passes *)

(** [v.k1.k2...] *)
Definition props (v : val) (ks : list string) : result val := foldM prop v ks.

(** [n.arguments] of a call. *)
Definition arguments_of (n : val) : result (list val) :=
  a ← prop n "arguments";
  match a with
  | VArr xs => Ok xs
  | _ => Beyond "arguments is not an array"
  end.

(** An edit made while a collection of paths is being iterated. *)
Inductive edit : Type :=
| Removed (p : path)
| Replaced (p : path).

(** The tree together with the edits made so far, oldest first. *)
Record tree : Type := Edited { current : val; edits : list edit }.

(** Where the node first found at [p] is after the edits [es]. *)
Definition live (es : list edit) (p : path) : option path :=
  foldl (fun acc e =>
           match e with
           | Removed r => after_remove r acc
           | Replaced r => after_replace r acc
           end) (Some p) es.

(** The present path of a node collected when [since] edits had been made. *)
Definition locate (t : tree) (since : nat) (p : path) : result path :=
  match live (drop since (edits t)) p with
  | Some q => Ok q
  | None => Beyond "the collected path was detached by an earlier replacement"
  end.

Definition replace_in (t : tree) (p : path) (n : val) : result tree :=
  r ← replaceWith (current t) p n; Ok (Edited r (edits t ++ [Replaced p])%list).

Definition remove_in (t : tree) (p : path) : result tree :=
  r ← remove (current t) p; Ok (Edited r (edits t ++ [Removed p])%list).

(** [collection.remove()] *)
Definition remove_all (t : tree) (ps : list path) : result tree :=
  let since := length (edits t) in
  foldM (fun t p => q ← locate t since p; remove_in t q) t ps.

(** [root.find(j.ImportDeclaration).filter(path => path.node.source.value === s)] *)
Definition importsFrom (root : val) (sources : list string) : result (list (path * val)) :=
  filterM (fun pn => v ← props pn.2 ["source"; "value"]; Ok (includes sources v))
          (find root "ImportDeclaration").

(** [root.find(j.Program).get('body', 0).insertBefore(n)] *)
Definition insertAtTop (root : val) (n : val) : result val :=
  match find root "Program" with
  | [] => Throw "get on an empty collection"
  | (p, _) :: _ => insertBefore root (I 0 :: F "body" :: p) n
  end.

(** ** The sinon migration, [migrate-sinon-to-node-test.ts] *)

Module Sinon.

(** [interface StubReplacement { args?: any[]; returnValue?: any }]: [None] is
    an absent key; a key can be present and hold [undefined]. *)
Record StubReplacement : Type := {
  args : option (list val);
  returnValue : option val
}.

(** *** Imports (lines 12-58) *)

Definition mockSpecifier : val := j.importSpecifier (j.ident "mock") (j.ident "mock").
Definition mocksSpecifier : val := j.importSpecifier (j.ident "mocks") (j.ident "mocks").

Definition hasSinonImport (root : val) : result bool :=
  l ← importsFrom root ["sinon"]; Ok (bool_decide (0 < length l)).

(** The [forEach] over the existing [node:test] imports: [mock] is pushed onto
    every one that does not import [mocks]. *)
Definition addMockSpecifier (root : val) (pn : path * val) : result val :=
  n ← node_at root pn.1;
  specs ← prop n "specifiers";
  match specs with
  | VArr specifiers =>
      hasMocks ← someM (fun spec =>
                          if check "ImportSpecifier" spec
                          then v ← props spec ["imported"; "name"]; Ok (is_str v "mocks")
                          else Ok false) specifiers;
      if hasMocks : bool then Ok root
      else replaceWith root (F "specifiers" :: pn.1) (VArr (specifiers ++ [mockSpecifier])%list)
  | _ => Beyond "specifiers is not an array"
  end.

Definition nodeTestImport : val :=
  j.importDeclaration [mockSpecifier; mocksSpecifier] (j.stringLiteral "node:test").

(** Lines 26-57: the [node:test] import is inserted when there is none. *)
Definition addNodeTestImport (root : val) : result val :=
  nodeTestImports ← importsFrom root ["node:test"];
  if decide (length nodeTestImports = 0)
  then insertAtTop root nodeTestImport
  else foldM addMockSpecifier root nodeTestImports.

(** Lines 20-24. *)
Definition removeSinonImports (root : val) : result val :=
  sinonImports ← importsFrom root ["sinon"];
  t ← remove_all (Edited root []) sinonImports.*1;
  Ok (current t).

(** Lines 12-58. *)
Definition imports (root : val) : result val :=
  has ← hasSinonImport root;
  if has : bool then
    root ← removeSinonImports root;
    addNodeTestImport root
  else Ok root.

(** *** [sinon.createSandbox()] declarations (lines 60-74) *)

Definition isCreateSandbox (pn : path * val) : result bool :=
  d ← prop pn.2 "declarations";
  d0 ← idx d 0;
  init ← prop d0 "init";
  if check "CallExpression" init then
    callee ← prop init "callee";
    if check "MemberExpression" callee then
      o ← prop callee "object";
      pr ← prop callee "property";
      if check "Identifier" o then
        on ← prop o "name";
        if is_str on "sinon" && check "Identifier" pr then
          pn ← prop pr "name"; Ok (is_str pn "createSandbox")
        else Ok false
      else Ok false
    else Ok false
  else Ok false.

Definition removeCreateSandbox (root : val) : result val :=
  ps ← filterM isCreateSandbox (find root "VariableDeclaration");
  t ← remove_all (Edited root []) ps.*1;
  Ok (current t).

(** *** The enclosing test case

    The loop of lines 119-129, repeated at 172-182, 294-304 and 307-317: from
    the node upwards, the first call whose callee is named [it] or [test]
    gives the name; the root is not inspected, and without such a call the
    name is the empty string. *)
Definition isTestCall (n : val) : result bool :=
  ty ← prop n "type";
  callee ← prop n "callee";
  if is_str ty "CallExpression" && truthy callee
  then name ← prop callee "name"; Ok (is_str name "it" || is_str name "test")
  else Ok false.

Fixpoint testNameLoop (root : val) (chain : list path) : result val :=
  match chain with
  | [] | [_] => Ok (VStr "")
  | p :: rest =>
      n ← node_at root p;
      isTest ← isTestCall n;
      if isTest : bool then
        a ← prop n "arguments"; a0 ← idx a 0; prop a0 "value"
      else testNameLoop root rest
  end.

Definition testName (root : val) (start : option path) : result val :=
  match start with
  | None => Ok (VStr "")
  | Some p => testNameLoop root (ancestors p)
  end.

(** [`${className}.${methodName}.${testName}`] *)
Definition key (className methodName testName : val) : string :=
  to_str className ++ "." ++ to_str methodName ++ "." ++ to_str testName.

(** *** First pass: collecting the stub chains (lines 76-264) *)

(** [stubChains] and what [console.log] has received, oldest first; an entry
    lists the arguments of one call of [console.log]. *)
Record state : Type := {
  stubChains : gmap string (list StubReplacement);
  log : list (list val)
}.

Definition console_log (s : state) (entry : list val) : state :=
  {| stubChains := stubChains s; log := (log s ++ [entry])%list |}.

(** Lines 96-97. *)
Definition className (firstArg : val) : result val :=
  ty ← prop firstArg "type";
  if is_str ty "MemberExpression" then
    o ← prop firstArg "object";
    oty ← opt_prop o "type";
    if is_str oty "Identifier" then prop o "name" else Ok VNull
  else Ok VNull.

(** Lines 99-110. *)
Definition methodName (secondArg : val) : result val :=
  ty ← prop secondArg "type";
  if is_str ty "StringLiteral" || is_str ty "Literal" then prop secondArg "value"
  else if is_str ty "Identifier" then prop secondArg "name"
  else if is_str ty "TSAsExpression" then
    e ← prop secondArg "expression";
    ety ← prop e "type";
    if is_str ety "StringLiteral" then prop e "value" else prop e "name"
  else if is_str ty "MemberExpression" then props secondArg ["property"; "name"]
  else Ok VUndef.

(** Lines 143-146: from [path.parent] upwards, the first [VariableDeclarator]. *)
Fixpoint varDecLoop (root : val) (chain : list path) : result (option path) :=
  match chain with
  | [] => Ok None
  | p :: rest =>
      n ← node_at root p;
      ty ← prop n "type";
      if is_str ty "VariableDeclarator" then Ok (Some p) else varDecLoop root rest
  end.

Definition varDecPath (root : val) (p : path) : result (option path) :=
  varDecLoop root (tail (ancestors p)).

(** The needle of line 153. *)
Definition callsOn (varName : val) : val :=
  VObj [("callee", VObj [("type", VStr "MemberExpression");
                         ("object", VObj [("type", VStr "Identifier"); ("name", varName)])])].

(** The inner loop of [processCallChain] (lines 186-199) along the ancestors
    of the start: a call is recorded, and the walk goes on with the call made
    on its result, if any.  [methodCalls] holds the nodes of the recorded
    paths; the pass does not mutate, so a path and its node go together. *)
Fixpoint chainLoop (t : val) (chain : list path) (methodCalls : list val) : result (list val) :=
  match chain with
  | [] => Ok methodCalls
  | p :: rest =>
      n ← node_at t p;
      ty ← prop n "type";
      if is_str ty "CallExpression" then
        let methodCalls := (methodCalls ++ [n])%list in
        match rest with
        | q :: ((g :: _) as up) =>
            qn ← node_at t q;
            qty ← prop qn "type";
            gn ← node_at t g;
            gty ← prop gn "type";
            if is_str qty "MemberExpression" && is_str gty "CallExpression"
            then chainLoop t up methodCalls
            else Ok methodCalls
        | _ => Ok methodCalls
        end
      else Ok methodCalls
  end.

(** [processCallChain(startNode)] (lines 168-201), for a start in the tree [t]
    and the [testName] of the stub being collected. *)
Definition processCallChain (t : val) (testName' : val) (startNode : option path)
    (methodCalls : list val) : result (list val) :=
  chainTestName ← testName t startNode;
  if strict_eq chainTestName testName' then
    match startNode with
    | Some p => chainLoop t (ancestors p) methodCalls
    | None => Ok methodCalls
    end
  else Ok methodCalls.

(** An element of a chain group, [{ methodName, callPath }]. *)
Record link : Type := { linkName : val; callNode : val }.

(** Lines 221-233: the calls are cut after every [returns] or [resolves]. *)
Fixpoint chainGroupsLoop (methodCalls : list val) (currentChain : list link)
    (chainGroups : list (list link)) : result (list (list link)) :=
  match methodCalls with
  | [] => Ok chainGroups
  | c :: rest =>
      name ← props c ["callee"; "property"; "name"];
      let currentChain := (currentChain ++ [{| linkName := name; callNode := c |}])%list in
      if is_str name "returns" || is_str name "resolves"
      then chainGroupsLoop rest [] (chainGroups ++ [currentChain])%list
      else chainGroupsLoop rest currentChain chainGroups
  end.

Definition chainGroups (methodCalls : list val) : result (list (list link)) :=
  chainGroupsLoop methodCalls [] [].

Definition promiseResolve (arguments : list val) : val :=
  j.callExpression (j.memberExpression (j.ident "Promise") (j.ident "resolve") false) arguments.

(** Lines 239-253, one link of a group. *)
Definition applyLink (chain : StubReplacement) (l : link) : result StubReplacement :=
  if is_str (linkName l) "withArgs" then
    a ← arguments_of (callNode l);
    Ok {| args := Some a; returnValue := returnValue chain |}
  else if is_str (linkName l) "returns" then
    a ← arguments_of (callNode l);
    Ok {| args := args chain; returnValue := Some (default VUndef (a !! 0)) |}
  else if is_str (linkName l) "resolves" then
    a ← arguments_of (callNode l);
    Ok {| args := args chain; returnValue := Some (promiseResolve a) |}
  else Ok chain.

(** Lines 236-258, one group: the chain it yields. *)
Definition chainOf (group : list link) : result StubReplacement :=
  foldM applyLink {| args := None; returnValue := None |} group.

(** [Object.keys(chain).length > 0] *)
Definition hasKeys (chain : StubReplacement) : bool :=
  bool_decide (is_Some (args chain)) || bool_decide (is_Some (returnValue chain)).

Definition chainsOf (groups : list (list link)) : result (list StubReplacement) :=
  chains ← mapM chainOf groups; Ok (List.filter hasKeys chains).

(** Lines 216-218. *)
Definition collectedNames (methodCalls : list val) : result (list val) :=
  mapM (fun c => pr ← props c ["callee"; "property"];
                 name ← opt_prop pr "name";
                 Ok (or_else name (VStr "unknown"))) methodCalls.

(** The body of the first pass's [forEach] (lines 88-264) for one
    [sandBox.stub(...)] call.  [src] is the tree of [j(file.source)], parsed
    again from the unchanged source text; [root] is the tree being rewritten. *)
Definition collectStub (src root : val) (s : state) (pn : path * val) : result state :=
  let path := pn.1 in
  args ← arguments_of pn.2;
  match args with
  | firstArg :: secondArg :: _ =>
      cn ← className firstArg;
      mn ← methodName secondArg;
      if negb (truthy cn) || negb (truthy mn) then
        Ok (console_log s [VStr "Warning: Could not extract class or method name";
                           firstArg; secondArg])
      else
        tn ← testName root (Some path);
        let key := key cn mn tn in
        let s := console_log s [VStr "CHECK stub chain:"; VStr key] in
        if bool_decide (is_Some (stubChains s !! key)) then Ok s
        else
          vd ← varDecPath root path;
          match vd with
          | None => Ok s
          | Some varDecPath =>
              vdn ← node_at root varDecPath;
              varName ← props vdn ["id"; "name"];
              let references := find_matching src "CallExpression" (callsOn varName) in
              methodCalls ← match parent varDecPath with
                            | Some declaration => processCallChain root tn (parent declaration) []
                            | None => Ok []
                            end;
              methodCalls ← foldM (fun mc (ref : Tree.path * val) =>
                                     ty ← prop ref.2 "type";
                                     if is_str ty "CallExpression"
                                     then processCallChain src tn (Some ref.1) mc
                                     else Ok mc) methodCalls references;
              names ← collectedNames methodCalls;
              let s := console_log s [VStr "Collected method calls:"; VArr names] in
              groups ← chainGroups methodCalls;
              chains ← chainsOf groups;
              if bool_decide (0 < length chains)
              then Ok {| stubChains := <[key := chains]> (stubChains s); log := log s |}
              else Ok s
          end
  | _ => Ok s
  end.

(** The needle of lines 81-87. *)
Definition sandBoxStub : val :=
  VObj [("callee", VObj [("type", VStr "MemberExpression");
                         ("object", VObj [("name", VStr "sandBox")]);
                         ("property", VObj [("name", VStr "stub")])])].

Definition firstPass (src root : val) : result state :=
  foldM (collectStub src root) {| stubChains := ∅; log := [] |}
        (find_matching root "CallExpression" sandBoxStub).

(** *** Second pass: the replacement function (lines 326-375) *)

(** [args[index] === arg] *)
Definition condition (index : nat) (arg : val) : val :=
  j.binaryExpression "==="
    (j.memberExpression (j.ident "args") (j.lit (VNum (Z.of_nat index))) true) arg.

(** [args.length > 0] *)
Definition lengthGuard : val :=
  j.binaryExpression ">"
    (j.memberExpression (j.ident "args") (j.ident "length") false) (j.lit (VNum 0)).

(** The [reduce] of lines 339-364, from [index] on with accumulator [expr]. *)
Fixpoint reduceFrom (index : nat) (expr : val) (matchers : list val) : val :=
  match matchers with
  | [] => expr
  | arg :: rest =>
      reduceFrom (S index)
        (if Nat.eqb index 0
         then j.logicalExpression "&&" lengthGuard (condition index arg)
         else j.logicalExpression "&&" expr (condition index arg))
        rest
  end.

Definition matcherTest (matchers : list val) : val := reduceFrom 0 VNull matchers.

(** [chain.args && chain.args.length > 0] *)
Definition hasMatchers (chain : StubReplacement) : bool :=
  match args chain with
  | Some (_ :: _) => true
  | _ => false
  end.

(** The expression a conditional branch returns,
    [chain.returnValue || j.identifier('undefined')]. *)
Definition branchResult (chain : StubReplacement) : val :=
  or_else (default VUndef (returnValue chain)) (j.ident "undefined").

(** The statement emitted for one chain (lines 332-369). *)
Definition branch (chain : StubReplacement) : result val :=
  match args chain with
  | Some (arg :: rest) =>
      r ← j.returnStatement (branchResult chain);
      Ok (j.ifStatement (matcherTest (arg :: rest)) (j.blockStatement [r]))
  | _ => j.returnStatement (default VUndef (returnValue chain))
  end.


(** Lines 370-373: "Only add default return if we have conditional chains". *)
Definition defaultReturn (currentTestChains : list StubReplacement) : result (list val) :=
  if existsb hasMatchers currentTestChains
  then r ← j.returnStatement (j.ident "undefined"); Ok [r]
  else Ok [].

(** The statements of the replacement function: one per chain, in the order
    of [currentTestChains] (every chain is an object, so [filter(chain =>
    chain)] keeps them all), then the default return. *)
Definition mockImplBody (currentTestChains : list StubReplacement) : result (list val) :=
  branches ← mapM branch currentTestChains;
  fallback ← defaultReturn currentTestChains;
  Ok (branches ++ fallback)%list.

(** [(...args) => { ... }] *)
Definition mockImpl (currentTestChains : list StubReplacement) : result val :=
  body ← mockImplBody currentTestChains;
  Ok (j.arrowFunctionExpression [j.restElement (j.ident "args")] (j.blockStatement body)).

(** *** Second pass: rewriting the stub declarations (lines 266-451) *)

(** The filter of lines 269-278. *)
Definition isSandBoxStub (pn : path * val) : result bool :=
  callee ← prop pn.2 "callee";
  if check "MemberExpression" callee then
    o ← prop callee "object";
    if check "Identifier" o then
      on ← prop o "name";
      pr ← prop callee "property";
      if is_str on "sandBox" && check "Identifier" pr
      then prn ← prop pr "name"; Ok (is_str prn "stub")
      else Ok false
    else Ok false
  else Ok false.

(** Lines 284-291: the method name as the second pass reads it. *)
Definition methodName' (arg : val) : result val :=
  ty ← prop arg "type";
  if is_str ty "StringLiteral" then prop arg "value"
  else if is_str ty "Identifier" then prop arg "name"
  else if is_str ty "TSAsExpression" then
    e ← prop arg "expression";
    n ← prop e "name";
    v ← prop e "value";
    Ok (or_else n v)
  else Ok VUndef.

(** Lines 388-396: the value of the method-name literal of the mock call. *)
Definition methodLiteral (arg : val) : result val :=
  ty ← prop arg "type";
  if is_str ty "TSAsExpression" then
    e ← prop arg "expression";
    v ← prop e "value";
    n ← prop e "name";
    Ok (or_else v n)
  else if is_str ty "StringLiteral" then prop arg "value"
  else if is_str ty "Literal" then prop arg "value"
  else n ← prop arg "name"; Ok (or_else n (VStr "")).

(** Lines 378-399. *)
Definition mockCall (objName : val) (arg1 : val) (mockImpl : val) : result val :=
  obj ← j.identifier objName;
  v ← methodLiteral arg1;
  name ← j.literal v;
  Ok (j.callExpression
        (j.memberExpression (j.ident "mock") (j.ident "method") false)
        [j.tsAsExpression (j.memberExpression obj (j.ident "prototype") false) j.tsAnyKeyword;
         name; mockImpl]).

(** [v], [v.callee.object], [v.callee.object.callee.object], ...: the nodes the
    loop of lines 421-430 visits, for as long as the fields exist. *)
Fixpoint calleeObjects (v : val) : list val :=
  v :: match v with
       | VObj fs =>
           (fix inNode (fs : list (string * val)) : list val :=
              match fs with
              | [] => []
              | (k, callee) :: r =>
                  if String.eqb "callee" k then
                    match callee with
                    | VObj cfs =>
                        (fix inCallee (cfs : list (string * val)) : list val :=
                           match cfs with
                           | [] => []
                           | (k', o) :: r' =>
                               if String.eqb "object" k' then calleeObjects o else inCallee r'
                           end) cfs
                    | _ => []
                    end
                  else inNode r
              end) fs
       | _ => []
       end.

(** Lines 421-430 over those nodes. *)
Fixpoint isConfigurationChain (chainNodes : list val) : result bool :=
  match chainNodes with
  | [] => Ok false
  | chainNode :: rest =>
      if truthy chainNode && check "CallExpression" chainNode then
        callee ← prop chainNode "callee";
        pr ← opt_prop callee "property";
        name ← opt_prop pr "name";
        if check "MemberExpression" callee && check "Identifier" pr
           && includes ["withArgs"; "returns"; "resolves"] name
        then Ok true
        else isConfigurationChain rest
      else Ok false
  end.

(** The filter of lines 412-437 on an identifier: its nearest enclosing
    expression statement is a [withArgs]/[returns]/[resolves] chain. *)
Fixpoint chainStatementLoop (root : val) (above : list path) : result bool :=
  match above with
  | [] => Ok false
  | up :: rest =>
      n ← node_at root up;
      ty ← prop n "type";
      if is_str ty "ExpressionStatement" then
        expr ← prop n "expression";
        if check "CallExpression" expr
        then isConfigurationChain (calleeObjects expr)
        else Ok false
      else chainStatementLoop root rest
  end.

Definition isChainReference (root : val) (pn : path * val) : result bool :=
  chainStatementLoop root (tail (ancestors pn.1)).

(** Lines 441-447: the nearest enclosing expression statement, if any. *)
Fixpoint statementLoop (root : val) (above : list path) : result (option path) :=
  match above with
  | [] => Ok None
  | up :: rest =>
      n ← node_at root up;
      ty ← prop n "type";
      if is_str ty "ExpressionStatement" then Ok (Some up) else statementLoop root rest
  end.

Definition removeReference (since : nat) (t : tree) (ref : path) : result tree :=
  p ← locate t since ref;
  stmt ← statementLoop (current t) (tail (ancestors p));
  match stmt with
  | Some q => remove_in t q
  | None => Ok t
  end.

(** Lines 406-449. *)
Definition removeChainCalls (t : tree) (stubVarName : val) : result tree :=
  if truthy stubVarName then
    references ← filterM (isChainReference (current t))
                   (find_matching (current t) "Identifier" (VObj [("name", stubVarName)]));
    foldM (removeReference (length (edits t))) t references.*1
  else Ok t.

(** The body of the second pass's [forEach] (lines 279-451) for one stub
    call, collected at [pn.1] before the pass began to mutate. *)
Definition rewriteStub (chains : gmap string (list StubReplacement))
    (st : tree * list (list val)) (pn : path * val) : result (tree * list (list val)) :=
  let (t, log) := st in
  path ← locate t 0 pn.1;
  n ← node_at (current t) path;
  args ← arguments_of n;
  match args with
  | arg0 :: arg1 :: _ =>
      o ← prop arg0 "object";
      if truthy o then
        objName ← prop o "name";
        methodName ← methodName' arg1;
        _ ← testName (current t) (Some path);
        currentTestName ← testName (current t) (Some path);
        let key := key objName methodName currentTestName in
        let currentTestChains := default [] (chains !! key) in
        outputs ← mapM (fun chain : StubReplacement =>
                          callee ← opt_prop (default VUndef (returnValue chain)) "callee";
                          pr ← opt_prop callee "property";
                          name ← opt_prop pr "name";
                          Ok [VStr "Outputting chain:"; VStr key; name]) currentTestChains;
        impl ← mockImpl currentTestChains;
        call ← mockCall objName arg1 impl;
        match parent path with
        | Some declarator =>
            dn ← node_at (current t) declarator;
            id ← prop dn "id";
            stubVarName ← opt_prop id "name";
            match parent declarator with
            | Some declaration =>
                t ← replace_in t declaration (j.expressionStatement call);
                t ← removeChainCalls t stubVarName;
                Ok (t, (log ++ outputs)%list)
            | None => Throw "replaceWith on no path"
            end
        | None => Throw "TypeError: cannot read property parent"
        end
      else Ok st
  | _ => Ok st
  end.

Definition secondPass (chains : gmap string (list StubReplacement)) (root : val)
    (log : list (list val)) : result (val * list (list val)) :=
  stubs ← filterM isSandBoxStub (find root "CallExpression");
  st ← foldM (rewriteStub chains) (Edited root [], log) stubs;
  Ok (current st.1, st.2).

(** *** [restore()] calls (lines 454-520) *)

Definition restoreCalls : val :=
  VObj [("callee", VObj [("type", VStr "MemberExpression");
                         ("property", VObj [("name", VStr "restore")])])].

(** The filter of lines 462-469. *)
Definition isSandBoxRestore (pn : path * val) : result bool :=
  callee ← prop pn.2 "callee";
  if check "MemberExpression" callee then
    o ← prop callee "object";
    if check "Identifier" o
    then on ← prop o "name"; Ok (is_str on "sandBox" || is_str on "sinon")
    else Ok false
  else Ok false.

(** Lines 472-482: from the call upwards, short of the root, the first call
    of [afterEach]. *)
Fixpoint afterEachLoop (root : val) (chain : list path) : result (option path) :=
  match chain with
  | [] | [_] => Ok None
  | p :: rest =>
      n ← node_at root p;
      ty ← prop n "type";
      found ← (if is_str ty "CallExpression" then
                 callee ← prop n "callee";
                 cty ← prop callee "type";
                 if is_str cty "Identifier"
                 then name ← prop callee "name"; Ok (is_str name "afterEach")
                 else Ok false
               else Ok false);
      if found : bool then Ok (Some p) else afterEachLoop root rest
  end.

(** The predicate of lines 487-493. *)
Definition isMockReset (stmt : val) : result bool :=
  ty ← prop stmt "type";
  if is_str ty "ExpressionStatement" then
    e ← prop stmt "expression";
    ety ← prop e "type";
    if is_str ety "CallExpression" then
      callee ← prop e "callee";
      cty ← prop callee "type";
      if is_str cty "MemberExpression" then
        on ← props callee ["object"; "name"];
        if is_str on "mock"
        then pn ← props callee ["property"; "name"]; Ok (is_str pn "reset")
        else Ok false
      else Ok false
    else Ok false
  else Ok false.

Definition mockReset : val :=
  j.expressionStatement
    (j.callExpression (j.memberExpression (j.ident "mock") (j.ident "reset") false) []).

(** The body of the [forEach] of lines 470-520 for one restore call. *)
Definition rewriteRestore (t : tree) (pn : path * val) : result tree :=
  path ← locate t 0 pn.1;
  afterEach ← afterEachLoop (current t) (ancestors path);
  match parent path with
  | None => Throw "replaceWith on no path"
  | Some statement =>
      match afterEach with
      | Some current' =>
          n ← node_at (current t) current';
          a ← prop n "arguments";
          a0 ← idx a 0;
          afterEachBody ← props a0 ["body"; "body"];
          match afterEachBody with
          | VArr stmts =>
              existingReset ← someM isMockReset stmts;
              if existingReset : bool
              then remove_in t statement
              else replace_in t statement mockReset
          | _ => Throw "TypeError: afterEachBody.find is not a function"
          end
      | None => replace_in t statement mockReset
      end
  end.

Definition restorePass (root : val) : result val :=
  calls ← filterM isSandBoxRestore (find_matching root "CallExpression" restoreCalls);
  t ← foldM rewriteRestore (Edited root []) calls;
  Ok (current t).

(** *** The transform (lines 8-523)

    [src] is the parse of [file.source].  The result is the tree handed to
    [toSource] and the lines written to the console. *)
Definition transform (src : val) : result (val * list (list val)) :=
  root ← imports src;
  root ← removeCreateSandbox root;
  s ← firstPass src root;
  out ← secondPass (stubChains s) root (log s);
  root ← restorePass out.1;
  Ok (root, out.2).

End Sinon.

(** ** The [should] migrations

    The repository holds two versions of the assertion migration.  Both begin
    by normalising the imports and then run a sequence of independent
    find-and-replace passes; embedded here are the import handling and those
    of the passes that the properties below are about.  Each of them replaces
    the call expression that its filter accepts. *)


Module Should.

(** [v], [v.object], [v.object.object], ...: the nodes a loop
    [while (j.MemberExpression.check(current)) { ...; current = current.object }]
    visits, for as long as the field exists. *)
Fixpoint objects (v : val) : list val :=
  v :: match v with
       | VObj fs =>
           (fix inNode (fs : list (string * val)) : list val :=
              match fs with
              | [] => []
              | (k, o) :: r => if String.eqb "object" k then objects o else inNode r
              end) fs
       | _ => []
       end.

(** [new Set(['describe', 'it'])] extended with the hook names in use, in
    insertion order. *)
Definition hooks : list string := ["before"; "after"; "beforeEach"; "afterEach"].

Definition addName (used : list string) (name : val) : list string :=
  match name with
  | VStr s => if existsb (String.eqb s) hooks && negb (existsb (String.eqb s) used)
              then (used ++ [s])%list else used
  | _ => used
  end.

Definition usedTestFunctions (root : val) : result (list string) :=
  foldM (fun used (pn : path * val) => name ← prop pn.2 "name"; Ok (addName used name))
        ["describe"; "it"] (find root "Identifier").

(** [Array.prototype.sort()] on names: by code unit, which for the six names
    at hand is the order of their characters. *)
Fixpoint insertSorted (s : string) (l : list string) : list string :=
  match l with
  | [] => [s]
  | x :: r => if String.leb s x then s :: l else x :: insertSorted s r
  end.

Definition sort (l : list string) : list string := foldr insertSorted [] l.

Definition testImport (names : list string) : val :=
  j.importDeclaration
    (map (fun name => j.importSpecifier (j.ident name) (j.ident name)) (sort names))
    (j.lit (VStr "node:test")).

Definition assertImport : val :=
  j.importDeclaration [j.importDefaultSpecifier (j.ident "assert")] (j.lit (VStr "node:assert")).

(** [import assert = require('assert')], written as an assignment to an
    identifier named [import assert]. *)
Definition assertRequire : val :=
  j.expressionStatement
    (j.assignmentExpression "=" (j.ident "import assert")
       (j.callExpression (j.ident "require") [j.lit (VStr "assert")])).

Definition removeLegacyImports (root : val) : result val :=
  legacy ← importsFrom root ["should"; "mocha"];
  t ← remove_all (Edited root []) legacy.*1;
  Ok (current t).

(** Insert-if-absent of the two target imports; [assertNode] is what stands
    for the assertion import. *)
Definition addTargetImports (assertNode : val) (root : val) : result val :=
  nodeTest ← importsFrom root ["node:test"];
  let hasNodeTest := bool_decide (0 < length nodeTest) in
  used ← usedTestFunctions root;
  root ← (if hasNodeTest then Ok root else insertAtTop root (testImport used));
  assert ← importsFrom root ["node:assert"; "assert"];
  let hasAnyAssertImport := bool_decide (0 < length assert) in
  if hasAnyAssertImport then Ok root else insertAtTop root assertNode.

(** The argument list of the rewritten call,
    [[firstArg, ...arguments.slice(firstArg === arguments[0] ? 1 : 0)]].
    [fromArguments] tells that [firstArg] was read from [arguments[0]]: it is
    then the same object; a node read from the callee never is. *)
Definition rewrittenArguments (firstArg : val) (fromArguments : bool) (arguments : list val)
    : result (list val) :=
  let same := fromArguments || (strict_eq firstArg VUndef
                                && strict_eq (default VUndef (arguments !! 0)) VUndef) in
  match firstArg with
  | VObj _ => Ok (firstArg :: drop (if same then 1 else 0) arguments)
  | _ => Throw "callExpression: an argument is not an expression"
  end.

(** One pass [root.find(j.CallExpression).filter(f).forEach(path =>
    j(path).replaceWith(g(path.node)))]. *)
Definition replacePass (f : val -> result bool) (g : val -> result val) (root : val)
    : result val :=
  found ← filterM (fun pn : path * val => f pn.2) (find root "CallExpression");
  t ← foldM (fun t (pn : path * val) =>
               p ← locate t 0 pn.1;
               n ← node_at (current t) p;
               n' ← g n;
               replace_in t p n') (Edited root []) found;
  Ok (current t).

(** [j.Identifier.check(v) && v.name === name] *)
Definition isIdentifier (v : val) (name : string) : result bool :=
  if check "Identifier" v then n ← prop v "name"; Ok (is_str n name) else Ok false.

(** The three opening tests shared by the [equal] filters. *)
Definition calleeNamed (name : string) (n : val) : result (option val) :=
  callee ← prop n "callee";
  if check "MemberExpression" callee then
    pr ← prop callee "property";
    named ← isIdentifier pr name;
    Ok (if named : bool then Some callee else None)
  else Ok None.

Definition assertCall (method : string) (arguments : list val) : val :=
  j.callExpression (j.memberExpression (j.ident "assert") (j.ident method) false) arguments.

(** *** Pieces shared by the further passes *)

(** The opening tests of the filters that accept several names,
    [names.includes(callee.property.name)]. *)
Definition calleeAmong (names : list string) (n : val) : result (option val) :=
  callee ← prop n "callee";
  if check "MemberExpression" callee then
    pr ← prop callee "property";
    if check "Identifier" pr then
      name ← prop pr "name";
      Ok (if includes names name then Some callee else None)
    else Ok None
  else Ok None.

(** The subject that a pass reads off the callee and hands to
    [j.callExpression] as first argument: the builder refuses what is not an
    expression, and what the pass can have read besides a node is
    [undefined]. *)
Definition argument (v : val) : result val :=
  match v with
  | VObj _ => Ok v
  | _ => Throw "callExpression: an argument is not an expression"
  end.

(** One pass [root.find(j.CallExpression).filter(f).forEach(...)] whose
    callback replaces the node by [g(path.node)] when there is one. *)
Definition rewritePass (f : val -> result bool) (g : val -> result (option val)) (root : val)
    : result val :=
  found ← filterM (fun pn : path * val => f pn.2) (find root "CallExpression");
  t ← foldM (fun t (pn : path * val) =>
               p ← locate t 0 pn.1;
               n ← node_at (current t) p;
               r ← g n;
               match r with
               | Some n' => replace_in t p n'
               | None => Ok t
               end) (Edited root []) found;
  Ok (current t).

(** The loop
    [while (j.MemberExpression.check(current)) {
       if (j.Identifier.check(current.property) && current.property.name === 'should') return true;
       current = current.object; }
     return false]
    along [current], [current.object], ... *)
Fixpoint hasShould (currents : list val) : result bool :=
  match currents with
  | [] => Ok false
  | current :: rest =>
      if check "MemberExpression" current then
        pr ← prop current "property";
        isShould ← isIdentifier pr "should";
        if isShould : bool then Ok true else hasShould rest
      else Ok false
  end.

(** *** [should.exist] and [should.not.exist] (lines 413-453 and 1394-1434) *)

Definition existFilter (n : val) : result bool :=
  c ← calleeNamed "exist" n;
  match c with
  | None => Ok false
  | Some callee =>
      object ← prop callee "object";
      bare ← isIdentifier object "should";
      if bare : bool then Ok true
      else if check "MemberExpression" object then
        pr ← prop object "property";
        isNot ← isIdentifier pr "not";
        if isNot : bool then oo ← prop object "object"; isIdentifier oo "should"
        else Ok false
      else Ok false
  end.

Definition existReplacement (n : val) : result val :=
  callee ← prop n "callee";
  o ← prop callee "object";
  isNegated ← (if check "MemberExpression" o
               then name ← props o ["property"; "name"]; Ok (is_str name "not")
               else Ok false);
  arguments ← arguments_of n;
  a0 ← argument (default VUndef (arguments !! 0));
  Ok (if isNegated : bool
      then assertCall "equal" [a0; j.ident "undefined"]
      else assertCall "ok" [a0]).

Definition existPass : val -> result val := replacePass existFilter existReplacement.

(** *** [should.doesNotThrow] (lines 455-496 and 1436-1477) *)

Definition doesNotThrowFilter (n : val) : result bool :=
  c ← calleeNamed "doesNotThrow" n;
  match c with
  | None => Ok false
  | Some callee =>
      o ← prop callee "object";
      bare ← isIdentifier o "should";
      if bare : bool then Ok true
      else if check "MemberExpression" o
      then pr ← prop o "property"; isIdentifier pr "should"
      else Ok false
  end.

Definition doesNotThrowReplacement (n : val) : result val :=
  callee ← prop n "callee";
  o ← prop callee "object";
  bare ← isIdentifier o "should";
  fnArg ← (if bare : bool
           then arguments ← arguments_of n; Ok (default VUndef (arguments !! 0))
           else prop o "object");
  a ← argument fnArg;
  Ok (assertCall "doesNotThrow" [a]).

Definition doesNotThrowPass : val -> result val :=
  replacePass doesNotThrowFilter doesNotThrowReplacement.

(** *** [should(x).equal(y)] and [should(x).ok()] (lines 498-535 and 1479-1516) *)

Definition shouldCallFilter (n : val) : result bool :=
  callee ← prop n "callee";
  if check "MemberExpression" callee then
    object ← prop callee "object";
    if check "CallExpression" object then
      oc ← prop object "callee";
      isShould ← isIdentifier oc "should";
      if isShould : bool then
        pr ← prop callee "property";
        if check "Identifier" pr
        then name ← prop pr "name"; Ok (includes ["equal"; "ok"] name)
        else Ok false
      else Ok false
    else Ok false
  else Ok false.

Definition shouldCallReplacement (n : val) : result (option val) :=
  callee ← prop n "callee";
  o ← prop callee "object";
  oa ← prop o "arguments";
  shouldArg ← idx oa 0;
  methodName ← props callee ["property"; "name"];
  if is_str methodName "equal" then
    arguments ← arguments_of n;
    a ← argument shouldArg;
    Ok (Some (assertCall "strictEqual" (a :: arguments)))
  else if is_str methodName "ok" then
    a ← argument shouldArg;
    Ok (Some (assertCall "ok" [a]))
  else Ok None.

Definition shouldCallPass : val -> result val :=
  rewritePass shouldCallFilter shouldCallReplacement.

(** *** First version (the transform of lines 3-538) *)

Module First.

(** Lines 7-72. *)
Definition imports (root : val) : result val :=
  root ← removeLegacyImports root;
  addTargetImports assertImport root.

(** The filter of lines 121-151. *)
Definition equalFilter (n : val) : result bool :=
  c ← calleeNamed "equal" n;
  match c with
  | None => Ok false
  | Some callee =>
      o ← prop callee "object";
      bare ← isIdentifier o "should";
      if bare : bool then Ok true
      else if check "MemberExpression" o then
        pr ← prop o "property";
        isShould ← isIdentifier pr "should";
        if isShould : bool then Ok true
        else
          isNot ← isIdentifier pr "not";
          oo ← prop o "object";
          if isNot && check "MemberExpression" oo
          then oopr ← prop oo "property"; isIdentifier oopr "should"
          else Ok false
      else Ok false
  end.

(** The replacement of lines 152-184. *)
Definition equalReplacement (n : val) : result val :=
  callee ← prop n "callee";
  arguments ← arguments_of n;
  o ← prop callee "object";
  bare ← isIdentifier o "should";
  '(firstArg, fromArguments, isNegated) ←
    (if bare : bool then Ok (default VUndef (arguments !! 0), true, false)
     else
       pr ← opt_prop o "property";
       if check "MemberExpression" o && check "Identifier" pr then
         name ← prop pr "name";
         if is_str name "should" then oo ← prop o "object"; Ok (oo, false, false)
         else if is_str name "not" then ooo ← props o ["object"; "object"]; Ok (ooo, false, true)
         else Ok (VUndef, false, false)
       else Ok (VUndef, false, false));
  args ← rewrittenArguments firstArg fromArguments arguments;
  Ok (assertCall (if isNegated : bool then "notEqual" else "equal") args).

Definition equalPass : val -> result val := replacePass equalFilter equalReplacement.

(** The filter of lines 189-208. *)
Definition deepEqualFilter (n : val) : result bool :=
  c ← calleeAmong ["deepEqual"; "eql"] n;
  match c with
  | None => Ok false
  | Some callee =>
      o ← prop callee "object";
      bare ← isIdentifier o "should";
      if bare : bool then Ok true
      else if check "MemberExpression" o
      then pr ← prop o "property"; isIdentifier pr "should"
      else Ok false
  end.

(** The replacement of lines 209-227. *)
Definition deepEqualReplacement (n : val) : result val :=
  callee ← prop n "callee";
  arguments ← arguments_of n;
  o ← prop callee "object";
  bare ← isIdentifier o "should";
  '(firstArg, fromArguments) ←
    (if bare : bool then Ok (default VUndef (arguments !! 0), true)
     else oo ← prop o "object"; Ok (oo, false));
  args ← rewrittenArguments firstArg fromArguments arguments;
  Ok (assertCall "deepStrictEqual" args).

Definition deepEqualPass : val -> result val := replacePass deepEqualFilter deepEqualReplacement.

(** The filter of lines 232-248. *)
Definition booleanFilter (n : val) : result bool :=
  c ← calleeAmong ["true"; "false"] n;
  match c with
  | None => Ok false
  | Some callee =>
      object ← prop callee "object";
      if check "MemberExpression" object then
        pr ← prop object "property";
        isBe ← isIdentifier pr "be";
        if isBe : bool then
          shouldExpr ← prop object "object";
          if check "MemberExpression" shouldExpr
          then spr ← prop shouldExpr "property"; isIdentifier spr "should"
          else Ok false
        else Ok false
      else Ok false
  end.

(** The replacement of lines 249-258. *)
Definition booleanReplacement (n : val) : result val :=
  originalValue ← props n ["callee"; "object"; "object"; "object"];
  name ← props n ["callee"; "property"; "name"];
  a ← argument originalValue;
  Ok (assertCall "strictEqual" [a; j.lit (VBool (is_str name "true"))]).

Definition booleanPass : val -> result val := replacePass booleanFilter booleanReplacement.

End First.

(** *** Second version (the transform of lines 567-1519) *)

Module Second.

(** Line 595. *)
Definition isInBitGoModule (path : string) : bool :=
  String.prefix "modules/bitgo/" path
  || bool_decide (is_Some (String.index 0 "/modules/bitgo/" path)).

(** Lines 571-650. *)
Definition imports (path : string) (root : val) : result val :=
  root ← removeLegacyImports root;
  addTargetImports (if isInBitGoModule path then assertRequire else assertImport) root.

(** The loop of lines 714-719 along [current], [current.object], ...:
    [chain] receives the names of the properties, the outermost last. *)
Fixpoint propertyNamesLoop (currents : list val) (chain : list val) : result (list val) :=
  match currents with
  | [] => Ok chain
  | current :: rest =>
      if check "MemberExpression" current then
        pr ← prop current "property";
        if check "Identifier" pr
        then name ← prop pr "name"; propertyNamesLoop rest (name :: chain)
        else propertyNamesLoop rest chain
      else Ok chain
  end.

(** The filter of lines 699-724. *)
Definition equalFilter (n : val) : result bool :=
  c ← calleeNamed "equal" n;
  match c with
  | None => Ok false
  | Some callee =>
      o ← prop callee "object";
      bare ← isIdentifier o "should";
      if bare : bool then Ok true
      else if check "MemberExpression" o then
        chain ← propertyNamesLoop (objects o) [];
        Ok (existsb (fun name => is_str name "should") chain)
      else Ok false
  end.

(** The loop of lines 735-747 along [current], [current.object], ... *)
Fixpoint subjectLoop (currents : list val) (isNegated : bool) : result (val * bool) :=
  match currents with
  | [] => Ok (VUndef, isNegated)
  | current :: rest =>
      if check "MemberExpression" current then
        pr ← prop current "property";
        if check "Identifier" pr then
          name ← prop pr "name";
          if is_str name "should" then o ← prop current "object"; Ok (o, isNegated)
          else subjectLoop rest (if is_str name "not" then true else isNegated)
        else subjectLoop rest isNegated
      else Ok (VUndef, isNegated)
  end.

(** The replacement of lines 725-759. *)
Definition equalReplacement (n : val) : result val :=
  callee ← prop n "callee";
  arguments ← arguments_of n;
  o ← prop callee "object";
  bare ← isIdentifier o "should";
  '(firstArg, fromArguments, isNegated) ←
    (if bare : bool then Ok (default VUndef (arguments !! 0), true, false)
     else r ← subjectLoop (objects o) false; Ok (r.1, false, r.2));
  args ← rewrittenArguments firstArg fromArguments arguments;
  Ok (assertCall (if isNegated : bool then "notStrictEqual" else "strictEqual") args).

Definition equalPass : val -> result val := replacePass equalFilter equalReplacement.

(** The filter of lines 764-787. *)
Definition deepEqualFilter (n : val) : result bool :=
  c ← calleeAmong ["deepEqual"; "eql"] n;
  match c with
  | None => Ok false
  | Some callee =>
      o ← prop callee "object";
      bare ← isIdentifier o "should";
      if bare : bool then Ok true
      else if check "MemberExpression" o then hasShould (objects o)
      else Ok false
  end.

(** The replacement of lines 788-822; its loop (lines 798-810) is the one of
    the [equal] replacement. *)
Definition deepEqualReplacement (n : val) : result val :=
  callee ← prop n "callee";
  arguments ← arguments_of n;
  o ← prop callee "object";
  bare ← isIdentifier o "should";
  '(firstArg, fromArguments, isNegated) ←
    (if bare : bool then Ok (default VUndef (arguments !! 0), true, false)
     else r ← subjectLoop (objects o) false; Ok (r.1, false, r.2));
  args ← rewrittenArguments firstArg fromArguments arguments;
  Ok (assertCall (if isNegated : bool then "notDeepStrictEqual" else "deepStrictEqual") args).

Definition deepEqualPass : val -> result val := replacePass deepEqualFilter deepEqualReplacement.

(** The filter of lines 1160-1175. *)
Definition throwFilter (n : val) : result bool :=
  c ← calleeAmong ["throw"; "throwError"] n;
  match c with
  | None => Ok false
  | Some callee => o ← prop callee "object"; hasShould (objects o)
  end.

(** The loop of lines 1182-1193 along [current], [current.object], ... *)
Fixpoint throwLoop (currents : list val) (isNegated : bool) : result (val * bool) :=
  match currents with
  | [] => Ok (VUndef, isNegated)
  | current :: rest =>
      if truthy current && check "MemberExpression" current then
        pr ← prop current "property";
        if check "Identifier" pr then
          name ← prop pr "name";
          let isNegated := if is_str name "not" then true else isNegated in
          if is_str name "should" then o ← prop current "object"; Ok (o, isNegated)
          else throwLoop rest isNegated
        else throwLoop rest isNegated
      else Ok (VUndef, isNegated)
  end.

(** The replacement of lines 1176-1216. *)
Definition throwReplacement (n : val) : result val :=
  o ← props n ["callee"; "object"];
  '(originalValue, isNegated) ← throwLoop (objects o) false;
  let fnToTest := or_else originalValue o in
  arguments ← arguments_of n;
  let errorMessage := default VUndef (arguments !! 0) in
  a ← argument fnToTest;
  Ok (assertCall (if isNegated : bool then "doesNotThrow" else "throws")
        (if truthy errorMessage then [a; errorMessage] else [a])).

Definition throwPass : val -> result val := replacePass throwFilter throwReplacement.

(** [ensureLodashImport] (lines 543-565). *)
Definition lodashImport : val :=
  j.importDeclaration [j.importDefaultSpecifier (j.ident "_")] (j.lit (VStr "lodash")).

Definition ensureLodashImport (root : val) : result val :=
  lodash ← importsFrom root ["lodash"; "_"];
  let hasLodashImport := bool_decide (0 < length lodash) in
  if hasLodashImport then Ok root else insertAtTop root lodashImport.

End Second.

End Should.

(** ** Calling a synthesized replacement function

    What a call of the function built by [Sinon.mockImpl] returns.  The
    function is made of the matchers and results written in the test file,
    whose values are not the transform's business: [eval] gives the value of
    such an expression where the function runs, and [strictEquals] is [===] on
    run-time values.  Only the statements [Sinon.mockImpl] emits are
    interpreted; anything else is [None]. *)

Module Call.

Fixpoint val_eqb (a b : val) : bool :=
  match a, b with
  | VUndef, VUndef | VNull, VNull => true
  | VBool x, VBool y => Bool.eqb x y
  | VNum x, VNum y => Z.eqb x y
  | VStr x, VStr y => String.eqb x y
  | VArr xs, VArr ys =>
      (fix all (xs ys : list val) : bool :=
         match xs, ys with
         | [], [] => true
         | x :: xs', y :: ys' => val_eqb x y && all xs' ys'
         | _, _ => false
         end) xs ys
  | VObj fs, VObj gs =>
      (fix all (fs gs : list (string * val)) : bool :=
         match fs, gs with
         | [], [] => true
         | (k, x) :: fs', (k', y) :: gs' => String.eqb k k' && val_eqb x y && all fs' gs'
         | _, _ => false
         end) fs gs
  | _, _ => false
  end.

Fixpoint keys (given expected : list string) : bool :=
  match given, expected with
  | [], [] => true
  | a :: given', b :: expected' => String.eqb a b && keys given' expected'
  | _, _ => false
  end.

Section Call.

Context {R : Type}.
Variable undefined : R.
Variable eval : val -> R.
Variable strictEquals : R -> R -> bool.

(** [args[i] === arg], for [lhs] the node [args[i]]. *)
Definition comparison (actual : list R) (lhs rhs : val) : option bool :=
  match lhs with
  | VObj [(k1, VStr "MemberExpression"); (k2, object);
          (k3, VObj [(k4, VStr "Literal"); (k5, VNum i)]); (k6, VBool true)] =>
      if keys [k1; k2; k3; k4; k5; k6] ["type"; "object"; "property"; "type"; "value"; "computed"]
         && val_eqb object (j.ident "args")
      then Some (strictEquals (nth (Z.to_nat i) actual undefined) (eval rhs))
      else None
  | _ => None
  end.

(** The value of the test of an emitted [if]. *)
Fixpoint test (actual : list R) (e : val) : option bool :=
  match e with
  | VObj [(k1, VStr ty); (k2, VStr operator); (k3, lhs); (k4, rhs)] =>
      if negb (keys [k1; k2; k3; k4] ["type"; "operator"; "left"; "right"]) then None
      else if String.eqb ty "LogicalExpression" && String.eqb operator "&&" then
        match test actual lhs with
        | Some true => test actual rhs
        | other => other
        end
      else if val_eqb e Sinon.lengthGuard then Some (bool_decide (0 < length actual))
      else if String.eqb ty "BinaryExpression" && String.eqb operator "===" then
        comparison actual lhs rhs
      else None
  | _ => None
  end.

(** The expression of a [return] statement. *)
Definition returned (stmt : val) : option val :=
  match stmt with
  | VObj [(k1, VStr "ReturnStatement"); (k2, argument)] =>
      if keys [k1; k2] ["type"; "argument"] then Some argument else None
  | _ => None
  end.

(** The test and the returned expression of [if (test) { return e; }]. *)
Definition guarded (stmt : val) : option (val * val) :=
  match stmt with
  | VObj [(k1, VStr "IfStatement"); (k2, test);
          (k3, VObj [(k4, VStr "BlockStatement"); (k5, VArr [ret])])] =>
      if keys [k1; k2; k3; k4; k5] ["type"; "test"; "consequent"; "type"; "body"]
      then e ← returned ret; Some (test, e)
      else None
  | _ => None
  end.

(** What [return e;] hands back; a bare [return;] has [null] for [e]. *)
Definition valueOf (e : val) : R :=
  match e with
  | VNull => undefined
  | _ => eval e
  end.

(** Running the statements of the body on the actual arguments; falling off
    the end returns [undefined]. *)
Fixpoint exec (actual : list R) (stmts : list val) : option R :=
  match stmts with
  | [] => Some undefined
  | stmt :: rest =>
      match returned stmt, guarded stmt with
      | Some e, _ => Some (valueOf e)
      | None, Some (c, e) =>
          b ← test actual c;
          if b : bool then Some (valueOf e) else exec actual rest
      | None, None => None
      end
  end.

(** Calling [(...args) => { stmts }] on the actual arguments. *)
Definition call (f : val) (actual : list R) : option R :=
  match f with
  | VObj [(k1, VStr "ArrowFunctionExpression"); (k2, VArr [param]);
          (k3, VObj [(k4, VStr "BlockStatement"); (k5, VArr stmts)])] =>
      if keys [k1; k2; k3; k4; k5] ["type"; "params"; "body"; "type"; "body"]
         && val_eqb param (j.restElement (j.ident "args"))
      then exec actual stmts
      else None
  | _ => None
  end.

(** A chain takes a call when it has no matchers, or when there is an actual
    argument and every matcher equals the actual argument at its position:
    the reading of [withArgs] that the synthesized tests implement. *)
Fixpoint allMatch (actual : list R) (index : nat) (matchers : list val) : bool :=
  match matchers with
  | [] => true
  | arg :: rest =>
      strictEquals (nth index actual undefined) (eval arg) && allMatch actual (S index) rest
  end.

Definition accepts (chain : Sinon.StubReplacement) (actual : list R) : bool :=
  match Sinon.args chain with
  | Some (arg :: rest) => bool_decide (0 < length actual) && allMatch actual 0 (arg :: rest)
  | _ => true
  end.

End Call.

(** Run-time values for the examples: the literals of the test file evaluate
    to themselves and [undefined] to [undefined]. *)
Definition literalValue (e : val) : val :=
  if val_eqb e (j.ident "undefined") then VUndef
  else match e with
       | VObj [(_, VStr ty); (_, v)] =>
           if existsb (String.eqb ty) ["NumericLiteral"; "StringLiteral"; "Literal"]
           then v else VUndef
       | _ => VUndef
       end.

End Call.

(** ** Vocabulary of the statements proved below *)

(** [n] is an import declaration whose source is one of [sources]. *)
Definition declares (sources : list string) (n : val) : bool :=
  match props n ["source"; "value"] with
  | Ok v => includes sources v
  | _ => false
  end.

(** The number of import declarations from [sources] in the tree. *)
Definition importCount (sources : list string) (root : val) : nat :=
  length (List.filter (fun pn : path * val => declares sources pn.2)
                      (find root "ImportDeclaration")).

Definition assertSources : list string := ["node:assert"; "assert"].

(** A path to a node inside a statement of the program. *)
Definition inBody (p : path) : Prop :=
  exists q i, p = (q ++ [I i; F "body"; F "program"])%list.

(** The nodes below [v], in the order of [walk]. *)
Definition nodes (v : val) : list val := (walk [] v).*2.

(** The number of import declarations from [sources] among the nodes [ns]. *)
Definition countIn (sources : list string) (ns : list val) : nat :=
  length (List.filter (declares sources) (List.filter (check "ImportDeclaration") ns)).

(** [return e;] as a node. *)
Definition returns (e : val) : val := node "ReturnStatement" [("argument", e)].

(** The reading of the fallback rule under test in C2: the fallback is
    appended exactly when every chain has matchers. *)
Definition fallbackIffEveryChainMatches (chains : list Sinon.StubReplacement) : Prop :=
  (exists r, Sinon.defaultReturn chains = Ok [r]) <->
  Forall (fun c => Sinon.hasMatchers c = true) chains.

(** ** Inputs and expected outputs *)

Module Examples.
Import Src.

Definition stmt (e : val) : val := j.expressionStatement e.

(** [const v = sandBox.stub(cls.prototype, m);] *)
Definition stubDeclaration (v cls : string) (m : val) : val :=
  const v (call (j.ident "sandBox") "stub" [dot (j.ident cls) "prototype"; m]).

(** [mock.method(cls.prototype as any, 'm', (...args) => { body });] *)
Definition mockMethod (cls m : string) (body : list val) : val :=
  stmt (j.callExpression (dot (j.ident "mock") "method")
          [j.tsAsExpression (dot (j.ident cls) "prototype") j.tsAnyKeyword;
           j.lit (VStr m);
           j.arrowFunctionExpression [j.restElement (j.ident "args")] (j.blockStatement body)]).

Definition sinonImport : val :=
  node "ImportDeclaration"
    [("specifiers", VArr [j.importDefaultSpecifier (j.ident "sinon")]);
     ("source", j.stringLiteral "sinon")].


(** [if (args.length > 0 && args[0] === 5) { return 1; } return 2; return undefined;] *)
Definition mergedBody : list val :=
  [ j.ifStatement
      (j.logicalExpression "&&" Sinon.lengthGuard (Sinon.condition 0 (numericLiteral 5)))
      (j.blockStatement [returns (numericLiteral 1)]);
    returns (numericLiteral 2);
    returns (j.ident "undefined") ].


Definition twoStatementsOut : val :=
  file [ Sinon.nodeTestImport;
         named "it" "t" [ mockMethod "Foo" "bar" mergedBody ] ].

(** The two chains of [twoStatements]. *)
Definition matched5 : Sinon.StubReplacement :=
  {| Sinon.args := Some [numericLiteral 5]; Sinon.returnValue := Some (numericLiteral 1) |}.
Definition unconditional2 : Sinon.StubReplacement :=
  {| Sinon.args := None; Sinon.returnValue := Some (numericLiteral 2) |}.


(** The same member stubbed in two test cases:
<<
  it('a', () => { const stub = sandBox.stub(Foo.prototype, 'bar'); stub.returns(1); });
  it('b', () => { const stub = sandBox.stub(Foo.prototype, 'bar'); stub.returns(2); });
>> *)
Definition twoTests : val :=
  file [ named "it" "a" [ stubDeclaration "stub" "Foo" (j.stringLiteral "bar");
                          stmt (call (j.ident "stub") "returns" [numericLiteral 1]) ];
         named "it" "b" [ stubDeclaration "stub" "Foo" (j.stringLiteral "bar");
                          stmt (call (j.ident "stub") "returns" [numericLiteral 2]) ] ].

Definition twoTestsOut : val :=
  file [ named "it" "a" [ mockMethod "Foo" "bar" [returns (numericLiteral 1)] ];
         named "it" "b" [ mockMethod "Foo" "bar" [returns (numericLiteral 2)] ] ].

(** The path of [stub.returns(2)], in test [b] of [twoTests]. *)
Definition returns2 : path :=
  [F "expression"; I 1; F "body"; F "body"; I 1; F "arguments"; F "expression";
   I 1; F "body"; F "program"].

(** A method name that cannot be read off the second argument:
<<
  it('t', () => {
    const s = sandBox.stub(Foo.prototype, getName());
    s.returns(2);
  });
>> *)
Definition computedName : val :=
  file [ named "it" "t"
           [ stubDeclaration "s" "Foo" (j.callExpression (j.ident "getName") []);
             stmt (call (j.ident "s") "returns" [numericLiteral 2]) ] ].

Definition computedNameOut : val :=
  file [ named "it" "t" [ mockMethod "Foo" "" [] ] ].

Definition computedNameWarning : list val :=
  [ VStr "Warning: Could not extract class or method name";
    dot (j.ident "Foo") "prototype";
    j.callExpression (j.ident "getName") [] ].

(** A restore call below the top level of the hook:
<<
  afterEach(() => {
    if (x) { sandBox.restore(); }
    sinon.restore();
  });
>> *)
Definition nestedRestore : val :=
  file [ hook "afterEach"
           [ j.ifStatement (j.ident "x")
               (j.blockStatement [stmt (call (j.ident "sandBox") "restore" [])]);
             stmt (call (j.ident "sinon") "restore" []) ] ].

Definition nestedRestoreOut : val :=
  file [ hook "afterEach"
           [ j.ifStatement (j.ident "x") (j.blockStatement [Sinon.mockReset]);
             Sinon.mockReset ] ].

(** A hook whose callback has an expression for body:
<<
  afterEach(() => sandBox.restore());
>> *)
Definition expressionHook : val :=
  file [ j.expressionStatement
           (j.callExpression (j.ident "afterEach")
              [j.arrowFunctionExpression [] (call (j.ident "sandBox") "restore" [])]) ].

(** Two restore calls at the top level of the hook:
<<
  afterEach(() => { sandBox.restore(); sinon.restore(); });
>> *)
Definition twoRestores : val :=
  file [ hook "afterEach"
           [ stmt (call (j.ident "sandBox") "restore" []);
             stmt (call (j.ident "sinon") "restore" []) ] ].

Definition twoRestoresOut : val := file [ hook "afterEach" [ Sinon.mockReset ] ].

(** [foo();] in a file of the [bitgo] module. *)
Definition bitgoPath : string := "modules/bitgo/test/unit/foo.ts".
Definition bitgoFile : val := file [ stmt (j.callExpression (j.ident "foo") []) ].

Definition bitgoOnce : val :=
  file [ Should.assertRequire; Should.testImport ["describe"; "it"];
         stmt (j.callExpression (j.ident "foo") []) ].

Definition bitgoTwice : val :=
  file [ Should.assertRequire; Should.assertRequire; Should.testImport ["describe"; "it"];
         stmt (j.callExpression (j.ident "foo") []) ].

(** [x.should.equal(5);] *)
Definition shouldEqual : val :=
  file [ stmt (call (dot (j.ident "x") "should") "equal" [numericLiteral 5]) ].

(** [assert.m(x, 5);] *)
Definition assertOn (m : string) : val :=
  file [ stmt (Should.assertCall m [j.ident "x"; numericLiteral 5]) ].

(** A program with no import. *)
Definition noImports : list val := [ stmt (j.callExpression (j.ident "foo") []) ].

(** [import sinon from 'sinon'; foo();] *)
Definition withSinon : list val := [ sinonImport; stmt (j.callExpression (j.ident "foo") []) ].

(** The class is not a plain identifier, or the first argument is no member
    expression at all:
<<
  it('t', () => { const s = sandBox.stub(a.b.prototype, 'm'); });
  it('t', () => { const s = sandBox.stub(obj, 'm'); s.returns(1); });
>> *)
Definition nestedClass : val :=
  file [ named "it" "t"
           [ const "s" (call (j.ident "sandBox") "stub"
                          [dot (dot (j.ident "a") "b") "prototype"; j.stringLiteral "m"]) ] ].

Definition plainObject : val :=
  file [ named "it" "t"
           [ const "s" (call (j.ident "sandBox") "stub" [j.ident "obj"; j.stringLiteral "m"]);
             stmt (call (j.ident "s") "returns" [numericLiteral 1]) ] ].

Definition plainObjectWarning : list val :=
  [ VStr "Warning: Could not extract class or method name";
    j.ident "obj"; j.stringLiteral "m" ].

End Examples.

(** ** Vocabulary of the further properties *)

(** The method a collected call invokes, [callPath.node.callee.property.name]. *)
Definition calledMethod (c : val) : result val := props c ["callee"; "property"; "name"].

(** [methodName === 'returns' || methodName === 'resolves'] *)
Definition closesChain (name : val) : bool := is_str name "returns" || is_str name "resolves".

(** No node of type [ty] lies strictly inside [s]. *)
Definition onlyAtTop (ty : string) (s : val) : Prop :=
  List.filter (check ty) (nodes s) = if check ty s then [s] else [].

(** The path of the [i]-th statement of the program. *)
Definition statementPath (i : nat) : path := [I i; F "body"; F "program"].

(** The paths of the statements that [g] selects, numbered from [k]. *)
Definition selected (g : val -> bool) : nat -> list val -> list path :=
  eachFrom (fun i s => if g s then [statementPath i] else []).

(** [s] is an import declaration from one of [sources]. *)
Definition importsOf (sources : list string) (s : val) : bool :=
  check "ImportDeclaration" s && declares sources s.

(** The import declarations of the program are statements of the program,
    and each has a source to read. *)
Definition importsAtTop (body : list val) : Prop :=
  Forall (fun s => onlyAtTop "ImportDeclaration" s /\
                   (check "ImportDeclaration" s = true ->
                    exists v, props s ["source"; "value"] = Ok v)) body.

(** [s] is a declaration that the filter of lines 62-73 of the sinon
    migration selects. *)
Definition createsSandbox (s : val) : bool :=
  check "VariableDeclaration" s &&
  match Sinon.isCreateSandbox ([], s) with Ok b => b | _ => false end.

(** [x.n1.n2. ... .nk] *)
Definition through (x : val) (names : list string) : val := foldl Src.dot x names.

(** *** Calls chained on one another *)

(** The calls of [c.m1(a1). ... .mk(ak)], the innermost first. *)
Fixpoint callsOf (c : val) (steps : list (string * list val)) : list val :=
  match steps with
  | [] => []
  | (m, a) :: rest => Src.call c m a :: callsOf (Src.call c m a) rest
  end.

(** [c.m1(a1). ... .mk(ak)] *)
Definition chained (c : val) (steps : list (string * list val)) : val :=
  foldl (fun c (step : string * list val) => Src.call c step.1 step.2) c steps.

(** The path of the call that lies [n] calls inside the call at [q]. *)
Fixpoint inward (n : nat) (q : path) : path :=
  match n with
  | 0 => q
  | S n => F "object" :: F "callee" :: inward n q
  end.

(** Every ancestor of [p] is a node of the tree. *)
Definition attached (t : val) (p : path) : Prop :=
  Forall (fun a => exists n ty, node_at t a = Ok n /\ prop n "type" = Ok ty) (ancestors p).

(** The parent of [p], if any, is no member expression. *)
Definition outermost (t : val) (p : path) : Prop :=
  match tail (ancestors p) with
  | up :: _ => forall s ty, node_at t up = Ok s -> prop s "type" = Ok ty ->
                            is_str ty "MemberExpression" = false
  | [] => True
  end.

(** *** A hook and its statements *)

(** A statement of the callback of a hook: [o.restore();] or another one. *)
Inductive hookStatement : Type :=
| Restore (object : string)
| Other (s : val).

Definition restoreCall (o : string) : val := Src.call (j.ident o) "restore" [].

Definition written (i : hookStatement) : val :=
  match i with
  | Restore o => j.expressionStatement (restoreCall o)
  | Other s => s
  end.

(** The program [pre; afterEach(() => { hb }); post]. *)
Definition withHook (pre hb post : list val) : val :=
  Src.file (pre ++ Src.hook "afterEach" hb :: post).

(** The path of the call of the hook that is statement [h] of the program,
    and of statement [k] of its callback. *)
Definition hookCallPath (h : nat) : path := [F "expression"; I h; F "body"; F "program"].

Definition hookStatementPath (h k : nat) : path :=
  ([I k; F "body"; F "body"; I 0; F "arguments"] ++ hookCallPath h)%list.

(** The calls that line 455 of the sinon migration looks for. *)
Definition isRestoreCall (pn : path * val) : bool :=
  check "CallExpression" pn.2 && matchNode pn.2 Sinon.restoreCalls.

(** No call of a method named [restore] lies in [s]. *)
Definition noRestore (s : val) : Prop :=
  List.filter (fun n => check "CallExpression" n && matchNode n Sinon.restoreCalls) (nodes s) = [].

(** One of the statements [l] is [mock.reset()]. *)
Definition resets (l : list val) : bool :=
  existsb (fun s => match Sinon.isMockReset s with Ok b => b | _ => false end) l.

(** The statements of the callback once its restore calls are rewritten:
    without a [mock.reset()] among them the first restore call becomes one,
    and every other restore call goes. *)
Fixpoint settled (hasReset : bool) (items : list hookStatement) : list val :=
  match items with
  | [] => []
  | Other s :: rest => s :: settled hasReset rest
  | Restore _ :: rest =>
      if hasReset then settled true rest else Sinon.mockReset :: settled true rest
  end.

(** What the statement of a hook has to be for the property below. *)
Definition fits (i : hookStatement) : Prop :=
  match i with
  | Restore o => o = "sandBox" \/ o = "sinon"
  | Other s => noRestore s /\ exists b, Sinon.isMockReset s = Ok b
  end.

(** The restore calls of the callback, each with its path, numbered from [k]. *)
Definition found (h : nat) : nat -> list hookStatement -> list (path * val) :=
  eachFrom (fun k i => match i with
                       | Restore o => [(F "expression" :: hookStatementPath h k, restoreCall o)]
                       | Other _ => []
                       end).

(** [import { n1, ..., nk } from source] *)
Definition namedImport (names : list string) (source : val) : val :=
  j.importDeclaration
    (map (fun name => j.importSpecifier (j.ident name) (j.ident name)) names) source.

(** Further inputs. *)
Module Cases.
Import Src.

(** The calls of [stub.withArgs(5).returns(1); stub.returns(2); stub.callsFake(f);],
    the inner call of the first statement first. *)
Definition withArgs5 : val := call (j.ident "stub") "withArgs" [numericLiteral 5].
Definition returns1 : val := call withArgs5 "returns" [numericLiteral 1].
Definition returns2 : val := call (j.ident "stub") "returns" [numericLiteral 2].
Definition callsFake : val := call (j.ident "stub") "callsFake" [j.ident "f"].

(** The same member stubbed twice in one test case:
<<
  it('t', () => {
    const a = sandBox.stub(Foo.prototype, 'bar');
    a.returns(1);
    const b = sandBox.stub(Foo.prototype, 'bar');
    b.returns(2);
  });
>> *)
Definition sameMemberTwice : val :=
  file [ named "it" "t"
           [ Examples.stubDeclaration "a" "Foo" (j.stringLiteral "bar");
             Examples.stmt (call (j.ident "a") "returns" [numericLiteral 1]);
             Examples.stubDeclaration "b" "Foo" (j.stringLiteral "bar");
             Examples.stmt (call (j.ident "b") "returns" [numericLiteral 2]) ] ].

(** [withArgs(5).returns(1)] as a chain. *)
Definition only5 : Sinon.StubReplacement :=
  {| Sinon.args := Some [numericLiteral 5]; Sinon.returnValue := Some (numericLiteral 1) |}.

(** [const sandBox = sinon.createSandbox(); foo();] *)
Definition withSandbox : list val :=
  [ const "sandBox" (call (j.ident "sinon") "createSandbox" []);
    Examples.stmt (j.callExpression (j.ident "foo") []) ].

(** [import should from 'should'; foo();] *)
Definition shouldImport : val :=
  node "ImportDeclaration"
    [("specifiers", VArr [j.importDefaultSpecifier (j.ident "should")]);
     ("source", j.stringLiteral "should")].
Definition withShould : list val :=
  [ shouldImport; Examples.stmt (j.callExpression (j.ident "foo") []) ].

(** [foo();] *)
Definition foo : val := Examples.stmt (j.callExpression (j.ident "foo") []).

(** The statement [stub.withArgs(5).returns(1);] in a test case:
<<
  it('t', () => { stub.withArgs(5).returns(1); });
>> *)
Definition configured : val := file [ named "it" "t" [ Examples.stmt returns1 ] ].

(** The path of the call of [returns] in [configured]. *)
Definition returnsPath : path :=
  [F "expression"; I 0; F "body"; F "body"; I 1; F "arguments"; F "expression";
   I 0; F "body"; F "program"].

End Cases.

(** * Properties *)

(** ** The outcome monad *)

Lemma bind_Ok {A B} (m : result A) (k : A -> result B) (b : B) :
  m ≫= k = Ok b -> exists a, m = Ok a /\ k a = Ok b.
Proof. destruct m as [a| |]; simpl; [eauto | discriminate | discriminate]. Qed.

(** Splits a successful sequence of binds into its successful steps. *)
Ltac ok_steps :=
  repeat match goal with
         | H : _ ≫= _ = Ok _ |- _ =>
             let a := fresh "a" in
             let Ha := fresh "Ha" in
             apply bind_Ok in H as (a & Ha & H)
         | H : Ok _ = Ok _ |- _ => injection H as H
         | H : mret _ = Ok _ |- _ => injection H as H
         end.

Lemma mapM_Ok_cons {A B} (f : A -> result B) x l ys :
  mapM f (x :: l) = Ok ys ->
  exists y ys', ys = y :: ys' /\ f x = Ok y /\ mapM f l = Ok ys'.
Proof.
  cbn [mapM]. intros H. ok_steps. subst. eauto.
Qed.


Lemma mapM_Ok_length {A B} (f : A -> result B) l ys :
  mapM f l = Ok ys -> length ys = length l.
Proof.
  revert ys. induction l as [|x l IH]; intros ys H.
  - injection H as <-. reflexivity.
  - apply mapM_Ok_cons in H as (y & ys' & -> & _ & H). simpl. f_equal. eauto.
Qed.

Lemma mapM_Ok_lookup {A B} (f : A -> result B) l ys i x :
  mapM f l = Ok ys -> l !! i = Some x -> exists y, ys !! i = Some y /\ f x = Ok y.
Proof.
  revert ys i. induction l as [|x' l IH]; intros ys i H Hi; [discriminate|].
  apply mapM_Ok_cons in H as (y & ys' & -> & Hx & H).
  destruct i as [|i]; simpl in Hi.
  - injection Hi as ->. eauto.
  - simpl. eauto.
Qed.

Lemma foldM_snoc {A S} (f : S -> A -> result S) s l x :
  foldM f s (l ++ [x])%list = foldM f s l ≫= fun s' => f s' x.
Proof.
  revert s. induction l as [|y l IH]; intros s; simpl.
  - destruct (f s x); reflexivity.
  - destruct (f s y); simpl; [apply IH | reflexivity | reflexivity].
Qed.

(** ** The result step of a chain (C9) *)

Lemma returned_returnStatement e s :
  j.returnStatement e = Ok s -> Call.returned s = Some e.
Proof.
  destruct e; simpl; intros H; try discriminate; injection H as <-; reflexivity.
Qed.

Lemma guarded_ifStatement c e r :
  j.returnStatement e = Ok r ->
  Call.guarded (j.ifStatement c (j.blockStatement [r])) = Some (c, e).
Proof.
  intros H. unfold Call.guarded, j.ifStatement, j.blockStatement, node.
  rewrite (returned_returnStatement _ _ H). reflexivity.
Qed.

Lemma returned_ifStatement c b : Call.returned (j.ifStatement c b) = None.
Proof. reflexivity. Qed.

(** A group is closed by the first [returns] or [resolves] it meets: every
    group ends with one of them. *)
Lemma chainGroupsLoop_terminal methodCalls currentChain chainGroups groups :
  Sinon.chainGroupsLoop methodCalls currentChain chainGroups = Ok groups ->
  Forall (fun g => exists l, last g = Some l /\
                     (is_str (Sinon.linkName l) "returns"
                      || is_str (Sinon.linkName l) "resolves") = true) chainGroups ->
  Forall (fun g => exists l, last g = Some l /\
                     (is_str (Sinon.linkName l) "returns"
                      || is_str (Sinon.linkName l) "resolves") = true) groups.
Proof.
  revert currentChain chainGroups.
  induction methodCalls as [|c rest IH]; intros currentChain chainGroups H Hall.
  - injection H as <-. assumption.
  - cbn [Sinon.chainGroupsLoop] in H. apply bind_Ok in H as (name & _ & H).
    destruct (is_str name "returns" || is_str name "resolves") eqn:Hterminal.
    + apply IH in H; [assumption|].
      apply Forall_app. split; [assumption|].
      constructor; [|constructor].
      eexists. split; [apply last_snoc|]. exact Hterminal.
    + apply IH in H; assumption.
Qed.



(** ** The synthesized replacement function (C1, C2) *)

Section Replacement.

Context {R : Type}.
Variable undefined : R.
Variable eval : val -> R.
Variable strictEquals : R -> R -> bool.

Local Abbreviation test := (Call.test undefined eval strictEquals).
Local Abbreviation exec := (Call.exec undefined eval strictEquals).
Local Abbreviation accepts := (Call.accepts undefined eval strictEquals).
Local Abbreviation allMatch := (Call.allMatch undefined eval strictEquals).
Local Abbreviation valueOf := (Call.valueOf undefined eval).

Lemma test_lengthGuard actual :
  test actual Sinon.lengthGuard = Some (bool_decide (0 < length actual)).
Proof. reflexivity. Qed.

Lemma test_condition actual index arg :
  test actual (Sinon.condition index arg)
  = Some (strictEquals (nth index actual undefined) (eval arg)).
Proof.
  unfold Sinon.condition, j.binaryExpression, j.memberExpression, j.lit, node.
  cbn. rewrite Nat2Z.id. reflexivity.
Qed.

Lemma test_and actual lhs rhs :
  test actual (j.logicalExpression "&&" lhs rhs)
  = match test actual lhs with
    | Some true => test actual rhs
    | other => other
    end.
Proof. reflexivity. Qed.

Lemma test_reduceFrom actual matchers index expr b :
  index <> 0 ->
  test actual expr = Some b ->
  test actual (Sinon.reduceFrom index expr matchers)
  = Some (b && allMatch actual index matchers).
Proof.
  revert index expr b. induction matchers as [|arg rest IH]; intros index expr b Hix Hexpr.
  - simpl. rewrite andb_true_r. assumption.
  - cbn [Sinon.reduceFrom Call.allMatch].
    destruct (Nat.eqb_spec index 0) as [?|_]; [contradiction|].
    erewrite IH; [|lia|].
    2:{ rewrite test_and, Hexpr, test_condition.
        instantiate (1 := b && strictEquals (nth index actual undefined) (eval arg)).
        destruct b; reflexivity. }
    rewrite andb_assoc. reflexivity.
Qed.

Lemma test_matcherTest actual arg rest :
  test actual (Sinon.matcherTest (arg :: rest))
  = Some (bool_decide (0 < length actual) && allMatch actual 0 (arg :: rest)).
Proof.
  unfold Sinon.matcherTest. cbn [Sinon.reduceFrom Nat.eqb Call.allMatch].
  erewrite test_reduceFrom; [|lia|].
  2:{ rewrite test_and, test_lengthGuard, test_condition.
      instantiate (1 := bool_decide (0 < length actual)
                        && strictEquals (nth 0 actual undefined) (eval arg)).
      destruct (bool_decide (0 < length actual)); reflexivity. }
  rewrite andb_assoc. reflexivity.
Qed.

(** The statement of a chain that does not take the call is passed over. *)
Lemma exec_declined actual chain s rest :
  Sinon.branch chain = Ok s ->
  accepts chain actual = false ->
  exec actual (s :: rest) = exec actual rest.
Proof.
  unfold Sinon.branch, Call.accepts. intros Hs Hacc.
  destruct (Sinon.args chain) as [[|arg more]|]; try discriminate.
  apply bind_Ok in Hs as (r & Hr & Hs). injection Hs as <-.
  cbn [Call.exec]. rewrite returned_ifStatement, (guarded_ifStatement _ _ _ Hr).
  rewrite test_matcherTest, Hacc. reflexivity.
Qed.


Lemma exec_declined_all actual before stmts rest :
  mapM Sinon.branch before = Ok stmts ->
  Forall (fun c => accepts c actual = false) before ->
  exec actual (stmts ++ rest)%list = exec actual rest.
Proof.
  revert stmts. induction before as [|c before IH]; intros stmts Hmap Hall.
  - injection Hmap as <-. reflexivity.
  - apply mapM_Ok_cons in Hmap as (s & stmts' & -> & Hs & Hmap).
    apply Forall_cons in Hall as [Hc Hall].
    change ((s :: stmts') ++ rest)%list with (s :: (stmts' ++ rest))%list.
    rewrite (exec_declined _ _ _ _ Hs Hc). auto.
Qed.

Lemma call_arrow actual body :
  Call.call undefined eval strictEquals
    (j.arrowFunctionExpression [j.restElement (j.ident "args")] (j.blockStatement body)) actual
  = exec actual body.
Proof. reflexivity. Qed.


End Replacement.


(** A chain without matchers takes every call: written before a chain with
    matchers, it decides the calls that chain would take. *)
Lemma unconditional_chain_first_decides :
  exists f,
    Sinon.mockImpl [Examples.unconditional2; Examples.matched5] = Ok f /\
    Call.call VUndef Call.literalValue strict_eq f [VNum 5] = Some (VNum 2).
Proof. eexists. split; reflexivity. Qed.

(** The fallback is appended exactly when some chain has matchers. *)
Lemma defaultReturn_spec chains fallback :
  Sinon.defaultReturn chains = Ok fallback ->
  fallback = if existsb Sinon.hasMatchers chains then [returns (j.ident "undefined")] else [].
Proof.
  unfold Sinon.defaultReturn. destruct (existsb _ _); intros H.
  - injection H as <-. reflexivity.
  - injection H as <-. reflexivity.
Qed.

Lemma existsb_hasMatchers chains :
  existsb Sinon.hasMatchers chains = true <->
  Exists (fun c => Sinon.hasMatchers c = true) chains.
Proof.
  rewrite existsb_exists, Exists_exists. split.
  - intros (c & Hin & Hc). exists c. split; [apply list_elem_of_In|]; assumption.
  - intros (c & Hin & Hc). exists c. split; [apply list_elem_of_In|]; assumption.
Qed.

(** C2, as the code has it.  In the body synthesized for a key, every chain
    without matchers gets an unconditional [return] of its result at the
    chain's own position, and [return undefined] is appended after the
    statements of the chains exactly when at least one chain has matchers. *)
Theorem fallback_iff_some_chain_matches
    (chains : list Sinon.StubReplacement) (body : list val) :
  Sinon.mockImplBody chains = Ok body ->
  (forall i chain,
      chains !! i = Some chain -> Sinon.hasMatchers chain = false ->
      exists s, body !! i = Some s /\
                Call.returned s = Some (default VUndef (Sinon.returnValue chain))) /\
  (Exists (fun c => Sinon.hasMatchers c = true) chains ->
   length body = S (length chains) /\
   body !! length chains = Some (returns (j.ident "undefined"))) /\
  (~ Exists (fun c => Sinon.hasMatchers c = true) chains ->
   length body = length chains).
Proof.
  intros Hbody. unfold Sinon.mockImplBody in Hbody.
  apply bind_Ok in Hbody as (branches & Hbranches & Hbody).
  apply bind_Ok in Hbody as (fallback & Hfallback & Hbody). injection Hbody as <-.
  apply defaultReturn_spec in Hfallback.
  pose proof (mapM_Ok_length _ _ _ Hbranches) as Hlen.
  split; [|split].
  - intros i chain Hi Hno.
    destruct (mapM_Ok_lookup _ _ _ _ _ Hbranches Hi) as (s & Hs & Hbranch).
    exists s. split; [apply lookup_app_l_Some; assumption|].
    unfold Sinon.branch, Sinon.hasMatchers in *.
    destruct (Sinon.args chain) as [[|arg rest]|]; try discriminate;
      eapply returned_returnStatement; eassumption.
  - intros Hex. apply existsb_hasMatchers in Hex. rewrite Hex in Hfallback. subst fallback.
    split.
    + rewrite length_app. simpl. lia.
    + rewrite lookup_app_r by lia. rewrite Hlen, Nat.sub_diag. reflexivity.
  - intros Hno. destruct (existsb Sinon.hasMatchers chains) eqn:Hex.
    + exfalso. apply Hno, existsb_hasMatchers, Hex.
    + subst fallback. rewrite length_app. simpl. lia.
Qed.

(** The theorem at the two chains of [Examples.twoStatements]: the second
    chain has no matchers, and the fallback is appended all the same. *)
Lemma fallback_iff_some_chain_matches_witness :
  Sinon.mockImplBody [Examples.matched5; Examples.unconditional2] = Ok Examples.mergedBody /\
  length Examples.mergedBody = 3.
Proof.
  split; [reflexivity|].
  refine (proj1 (proj1 (proj2 (fallback_iff_some_chain_matches
            [Examples.matched5; Examples.unconditional2] Examples.mergedBody _)) _)).
  - reflexivity.
  - constructor. reflexivity.
Defined.

(** C2 as written fails on the two chains of [Examples.twoStatements]: the
    fallback is appended although the second chain has no matchers. *)
Lemma fallback_although_a_chain_has_no_matchers :
  ~ fallbackIffEveryChainMatches [Examples.matched5; Examples.unconditional2].
Proof.
  unfold fallbackIffEveryChainMatches. intros [Hif _].
  assert (Hall : Forall (fun c => Sinon.hasMatchers c = true)
                   [Examples.matched5; Examples.unconditional2]).
  { apply Hif. eexists. reflexivity. }
  apply Forall_cons in Hall as [_ Hall]. apply Forall_cons in Hall as [Hlast _].
  discriminate Hlast.
Qed.

(** ** Isolation of test cases (C4) *)






(** Both test cases of [Examples.twoTests] keep their own result. *)
Lemma twoTests_are_not_merged :
  (Sinon.transform Examples.twoTests ≫= fun out => Ok out.1) = Ok Examples.twoTestsOut.
Proof. vm_compute. reflexivity. Qed.

(** ** The worked examples *)


(** C6, as the code has it: the second version of the migration rewrites
    [x.should.equal(5)] to [assert.strictEqual(x, 5)], the first version to
    [assert.equal(x, 5)]. *)
Theorem should_equal_rewritten :
  Should.Second.equalPass Examples.shouldEqual = Ok (Examples.assertOn "strictEqual") /\
  Should.First.equalPass Examples.shouldEqual = Ok (Examples.assertOn "equal").
Proof. split; vm_compute; reflexivity. Qed.

(** C6 as written fails for the first version of the migration. *)
Lemma first_version_keeps_loose_equality :
  Should.First.equalPass Examples.shouldEqual <> Ok (Examples.assertOn "strictEqual").
Proof. vm_compute. discriminate. Qed.

(** C7 at [Examples.computedName].  The first pass warns and records nothing
    for the stub whose method name it cannot read; the second pass rewrites
    the declaration all the same, to a mock of the method [''] with an empty
    function, and removes the configuration statement. *)
Theorem unreadable_method_name_is_rewritten :
  Sinon.transform Examples.computedName
  = Ok (Examples.computedNameOut, [Examples.computedNameWarning]).
Proof. vm_compute. reflexivity. Qed.

(** When the first argument is no member expression, both passes skip the
    stub: the tree is unchanged and the warning is logged. *)
Lemma unreadable_class_name_is_skipped :
  Sinon.transform Examples.plainObject
  = Ok (Examples.plainObject, [Examples.plainObjectWarning]).
Proof. vm_compute. reflexivity. Qed.

(** When the class is a member expression itself, the first pass warns and
    the second pass hands [undefined] to [j.identifier]: the transform
    throws. *)
Lemma nested_class_name_aborts :
  Sinon.transform Examples.nestedClass = Throw "identifier: name is not a string".
Proof. vm_compute. reflexivity. Qed.

(** C10 at [Examples.nestedRestore]: the restore call inside the [if] and the
    one after it both become [mock.reset()]. *)
Theorem nested_restore_is_reset_twice :
  Sinon.restorePass Examples.nestedRestore = Ok Examples.nestedRestoreOut.
Proof. vm_compute. reflexivity. Qed.

(** When the callback of the hook has no block for body, the list of its
    statements is [undefined] and looking for a reset in it throws. *)
Lemma expression_bodied_hook_aborts :
  Sinon.restorePass Examples.expressionHook
  = Throw "TypeError: afterEachBody.find is not a function".
Proof. vm_compute. reflexivity. Qed.

(** With both calls at the top level of the hook, one [mock.reset()] stays. *)
Lemma two_restores_are_reset_once :
  Sinon.restorePass Examples.twoRestores = Ok Examples.twoRestoresOut.
Proof. vm_compute. reflexivity. Qed.

(** Outside the [bitgo] module the same file gets a plain import declaration,
    and a second run adds nothing. *)
Lemma plain_imports_are_idempotent :
  exists once,
    Should.Second.imports "test/unit/foo.ts" Examples.bitgoFile = Ok once /\
    Should.Second.imports "test/unit/foo.ts" once = Ok once.
Proof. eexists. split; vm_compute; reflexivity. Qed.

(** The sinon migration leaves its own output for [Examples.twoStatements]
    as it is. *)
Lemma sinon_output_is_unchanged :
  Sinon.transform Examples.twoStatementsOut = Ok (Examples.twoStatementsOut, []).
Proof. vm_compute. reflexivity. Qed.

(** C5 at [Examples.bitgoFile]: the import handling of the second version,
    run on its own output, inserts the [assert] import a second time. *)
Theorem bitgo_imports_are_not_idempotent :
  Should.Second.imports Examples.bitgoPath Examples.bitgoFile = Ok Examples.bitgoOnce /\
  Should.Second.imports Examples.bitgoPath Examples.bitgoOnce = Ok Examples.bitgoTwice /\
  Examples.bitgoTwice <> Examples.bitgoOnce.
Proof. repeat split; try (vm_compute; reflexivity). vm_compute. discriminate. Qed.

(** ** Insertion of the target imports (C8) *)

(** Induction on values, with the hypothesis available for every element of
    an array and every field of an object. *)
Lemma val_nested_ind (P : val -> Prop) :
  P VUndef -> P VNull -> (forall b, P (VBool b)) -> (forall z, P (VNum z)) ->
  (forall s, P (VStr s)) ->
  (forall xs, Forall P xs -> P (VArr xs)) ->
  (forall fs, Forall (fun kx => P kx.2) fs -> P (VObj fs)) ->
  forall v, P v.
Proof.
  intros Hu Hn Hb Hz Hs Ha Ho.
  fix IH 1. intros [| |b|z|s|xs|fs]; [exact Hu|exact Hn|apply Hb|apply Hz|apply Hs| | ].
  - apply Ha. induction xs as [|x xs IHxs]; constructor; [apply IH | apply IHxs].
  - apply Ho. induction fs as [|[k x] fs IHfs]; constructor; [apply IH | apply IHfs].
Qed.

Lemma eachFrom_snd {A B C} (f g : nat -> A -> list (B * C)) i k xs :
  Forall (fun x => forall a b, (f a x).*2 = (g b x).*2) xs ->
  (eachFrom f i xs).*2 = (eachFrom g k xs).*2.
Proof.
  intros H. revert i k. induction H as [|x xs Hx _ IH]; intros i k; [reflexivity|].
  simpl. rewrite !fmap_app. f_equal; [apply Hx | apply IH].
Qed.

Lemma walk_snd pre pre' v : (walk pre v).*2 = (walk pre' v).*2.
Proof.
  revert pre pre'. induction v as [| | | | |xs IH|fs IH] using val_nested_ind; intros pre pre';
    try reflexivity.
  - simpl. apply eachFrom_snd. eapply Forall_impl; [exact IH|]. simpl. auto.
  - simpl. f_equal. induction IH as [|[k x] fs Hx _ IHfs]; [reflexivity|].
    simpl. rewrite !fmap_app. f_equal; [apply Hx | apply IHfs].
Qed.

Lemma countIn_app sources l1 l2 :
  countIn sources (l1 ++ l2) = countIn sources l1 + countIn sources l2.
Proof. unfold countIn. rewrite !List.filter_app, length_app. reflexivity. Qed.

Lemma filter_snd {A B} (g : B -> bool) (l : list (A * B)) :
  (List.filter (fun pn => g pn.2) l).*2 = List.filter g (l.*2).
Proof.
  induction l as [|[a b] l IH]; [reflexivity|]. cbn [List.filter snd].
  rewrite fmap_cons. cbn [List.filter snd].
  destruct (g b); [rewrite fmap_cons; f_equal|]; exact IH.
Qed.

Lemma importCount_nodes sources root :
  importCount sources root = countIn sources (tail (nodes root)).
Proof.
  unfold importCount, countIn, find, nodes.
  rewrite <- (length_fmap snd).
  rewrite !filter_snd. do 3 f_equal.
  destruct (walk [] root); reflexivity.
Qed.

Lemma nodes_array x xs : nodes (VArr (x :: xs)) = (nodes x ++ nodes (VArr xs))%list.
Proof.
  unfold nodes. simpl. rewrite fmap_app. f_equal; [apply walk_snd|].
  apply eachFrom_snd. apply Forall_forall. intros v _ a b. apply walk_snd.
Qed.

Lemma tail_nodes_file body :
  tail (nodes (Src.file body)) = Src.program body :: nodes (VArr body).
Proof.
  unfold nodes. simpl. rewrite app_nil_r. f_equal.
  rewrite app_nil_r. apply eachFrom_snd. apply Forall_forall. intros v _ a b. apply walk_snd.
Qed.

Lemma importCount_cons sources n body :
  importCount sources (Src.file (n :: body))
  = countIn sources (nodes n) + importCount sources (Src.file body).
Proof.
  rewrite !importCount_nodes, !tail_nodes_file, nodes_array.
  change (?x :: ?l) with ([x] ++ l)%list.
  rewrite !countIn_app. reflexivity.
Qed.

Lemma insertAtTop_file body n : insertAtTop (Src.file body) n = Ok (Src.file (n :: body)).
Proof. reflexivity. Qed.

Lemma filterM_Ok {A} (f : A -> result bool) (g : A -> bool) l l' :
  (forall x b, f x = Ok b -> g x = b) ->
  filterM f l = Ok l' -> l' = List.filter g l.
Proof.
  intros Hfg. revert l'. induction l as [|x l IH]; intros l' H.
  - injection H as <-. reflexivity.
  - cbn [filterM] in H. apply bind_Ok in H as (b & Hb & H).
    apply bind_Ok in H as (r & Hr & H). injection H as <-.
    simpl. rewrite (Hfg _ _ Hb), <- (IH _ Hr). reflexivity.
Qed.

Lemma importsFrom_Ok root sources l :
  importsFrom root sources = Ok l ->
  l = List.filter (fun pn : path * val => declares sources pn.2) (find root "ImportDeclaration").
Proof.
  apply filterM_Ok. intros [p n] b H. unfold declares. simpl in *.
  apply bind_Ok in H as (v & -> & H). injection H as <-. reflexivity.
Qed.

Lemma importsFrom_length root sources l :
  importsFrom root sources = Ok l -> length l = importCount sources root.
Proof. intros H. apply importsFrom_Ok in H. subst. reflexivity. Qed.

Lemma nodes_importDeclaration specs source :
  nodes (j.importDeclaration specs source)
  = j.importDeclaration specs source :: (nodes (VArr specs) ++ nodes source)%list.
Proof.
  unfold nodes. simpl. f_equal. rewrite app_nil_r, fmap_app.
  f_equal; [|apply walk_snd].
  apply eachFrom_snd. apply Forall_forall. intros v _ a b. apply walk_snd.
Qed.

Lemma no_import_among_specifiers (names : list string) :
  List.filter (check "ImportDeclaration")
    (nodes (VArr (map (fun name => j.importSpecifier (j.ident name) (j.ident name)) names)))
  = [].
Proof.
  induction names as [|name names IH]; [reflexivity|].
  change (map ?f (name :: names)) with (f name :: map f names).
  rewrite nodes_array, List.filter_app, IH. reflexivity.
Qed.

Lemma countIn_testImport sources names :
  countIn sources (nodes (Should.testImport names))
  = if includes sources (VStr "node:test") then 1 else 0.
Proof.
  unfold Should.testImport. rewrite nodes_importDeclaration.
  unfold countIn. cbn [List.filter].
  change (check "ImportDeclaration" (j.importDeclaration ?s ?x)) with true. cbv iota.
  rewrite List.filter_app, no_import_among_specifiers. cbn [app List.filter].
  change (declares sources (j.importDeclaration ?s (j.lit (VStr "node:test"))))
    with (includes sources (VStr "node:test")).
  destruct (includes sources (VStr "node:test")); reflexivity.
Qed.

Lemma countIn_assertImport sources :
  countIn sources (nodes Should.assertImport)
  = if includes sources (VStr "node:assert") then 1 else 0.
Proof.
  change (nodes Should.assertImport)
    with [Should.assertImport; j.importDefaultSpecifier (j.ident "assert"); j.ident "assert";
          j.lit (VStr "node:assert")].
  unfold countIn.
  change (List.filter (check "ImportDeclaration") _) with [Should.assertImport].
  cbn [List.filter].
  change (declares sources Should.assertImport) with (includes sources (VStr "node:assert")).
  destruct (includes sources (VStr "node:assert")); reflexivity.
Qed.

Lemma addTargetImports_file body out :
  Should.addTargetImports Should.assertImport (Src.file body) = Ok out ->
  exists names,
    out = Src.file
            ((if decide (importCount assertSources (Src.file body) = 0)
              then [Should.assertImport] else []) ++
             (if decide (importCount ["node:test"] (Src.file body) = 0)
              then [Should.testImport names] else []) ++ body)%list.
Proof.
  unfold Should.addTargetImports. intros H.
  apply bind_Ok in H as (nodeTest & HnodeTest & H).
  apply bind_Ok in H as (used & _ & H).
  apply bind_Ok in H as (root1 & Hroot1 & H).
  apply bind_Ok in H as (asserts & Hasserts & H).
  apply importsFrom_length in HnodeTest. apply importsFrom_length in Hasserts.
  exists used. unfold assertSources in *.
  rewrite HnodeTest in Hroot1. rewrite Hasserts in H.
  destruct (decide (importCount ["node:test"] (Src.file body) = 0)) as [Ht|Ht].
  - rewrite Ht in Hroot1. simpl in Hroot1. rewrite insertAtTop_file in Hroot1.
    injection Hroot1 as <-.
    rewrite importCount_cons, countIn_testImport in H.
    change (includes _ (VStr "node:test")) with false in H.
    rewrite Nat.add_0_l in H.
    destruct (decide (importCount ["node:assert"; "assert"] (Src.file body) = 0)) as [Ha|Ha].
    + rewrite Ha in H. simpl in H. rewrite insertAtTop_file in H. injection H as <-. reflexivity.
    + rewrite bool_decide_eq_true_2 in H by lia. injection H as <-. reflexivity.
  - rewrite bool_decide_eq_true_2 in Hroot1 by lia. injection Hroot1 as <-.
    destruct (decide (importCount ["node:assert"; "assert"] (Src.file body) = 0)) as [Ha|Ha].
    + rewrite Ha in H. simpl in H. rewrite insertAtTop_file in H. injection H as <-. reflexivity.
    + rewrite bool_decide_eq_true_2 in H by lia. injection H as <-. reflexivity.
Qed.

Lemma In_eachFrom {A B} (f : nat -> A -> list B) i xs y :
  In y (eachFrom f i xs) -> exists k x, In x xs /\ In y (f k x).
Proof.
  revert i. induction xs as [|x xs IH]; intros i H; [destruct H|].
  simpl in H. apply in_app_iff in H as [H|H].
  - exists i, x. split; [left; reflexivity| assumption].
  - apply IH in H as (k & x' & Hx' & Hy). exists k, x'. split; [right|]; assumption.
Qed.

Lemma walk_suffix v pre pn : In pn (walk pre v) -> exists q, pn.1 = (q ++ pre)%list.
Proof.
  revert pre. induction v as [| | | | |xs IH|fs IH] using val_nested_ind; intros pre H;
    try destruct H.
  - simpl in H. apply In_eachFrom in H as (k & x & Hx & H).
    rewrite Forall_forall in IH. apply list_elem_of_In in Hx.
    destruct (IH x Hx _ H) as (q & ->). exists (q ++ [I k])%list.
    rewrite <- app_assoc. reflexivity.
  - subst pn. exists []. reflexivity.
  - apply in_flat_map in H as ([k x] & Hx & H).
    rewrite Forall_forall in IH. apply list_elem_of_In in Hx.
    destruct (IH _ Hx _ H) as (q & ->). exists (q ++ [F k])%list.
    rewrite <- app_assoc. reflexivity.
Qed.

Lemma find_file_shape body pn :
  In pn (find (Src.file body) "ImportDeclaration") ->
  exists q i, pn.1 = (q ++ [I i; F "body"; F "program"])%list.
Proof.
  unfold find. rewrite filter_In. intros [H Hcheck].
  simpl in H. rewrite !app_nil_r in H. destruct H as [<-|H]; [discriminate|].
  apply In_eachFrom in H as (i & x & _ & H).
  apply walk_suffix in H as (q & ->). exists q, i. reflexivity.
Qed.

Lemma replaceWith_file b q i x r :
  replaceWith (Src.file b) (q ++ [I i; F "body"; F "program"])%list x = Ok r ->
  exists b', r = Src.file b' /\ length b' = length b.
Proof.
  unfold replaceWith. rewrite rev_app_distr. simpl.
  destruct (b !! i) as [old|]; simpl; [|discriminate].
  destruct (update_down old (rev q) _) as [new|]; simpl; [|discriminate].
  intros H. injection H as <-.
  exists (<[i:=new]> b). split; [reflexivity|]. apply length_insert.
Qed.

Lemma addMockSpecifier_file b pn r :
  (exists q i, pn.1 = (q ++ [I i; F "body"; F "program"])%list) ->
  Sinon.addMockSpecifier (Src.file b) pn = Ok r ->
  exists b', r = Src.file b' /\ length b' = length b.
Proof.
  intros (q & i & Hshape) H. destruct pn as [p n0]. simpl in Hshape. subst p.
  unfold Sinon.addMockSpecifier in H. cbn [fst snd] in H.
  apply bind_Ok in H as (n & _ & H). apply bind_Ok in H as (specs & _ & H).
  destruct specs as [| | | | |specifiers|]; try discriminate.
  apply bind_Ok in H as (hasMocks & _ & H).
  destruct hasMocks.
  - injection H as <-. eauto.
  - change (F "specifiers" :: (q ++ ?l))%list with ((F "specifiers" :: q) ++ l)%list in H.
    eapply replaceWith_file. exact H.
Qed.

Lemma foldM_addMockSpecifier_file l b r :
  Forall (fun pn : path * val => exists q i, pn.1 = (q ++ [I i; F "body"; F "program"])%list) l ->
  foldM Sinon.addMockSpecifier (Src.file b) l = Ok r ->
  exists b', r = Src.file b' /\ length b' = length b.
Proof.
  intros Hall. revert b. induction Hall as [|pn l Hpn _ IH]; intros b H.
  - injection H as <-. eauto.
  - cbn [foldM] in H. apply bind_Ok in H as (r1 & Hr1 & H).
    apply (addMockSpecifier_file _ _ _ Hpn) in Hr1 as (b1 & -> & Hlen1).
    apply IH in H as (b' & -> & Hlen). exists b'. split; [reflexivity|lia].
Qed.

Lemma addNodeTestImport_file body out :
  Sinon.addNodeTestImport (Src.file body) = Ok out ->
  if decide (importCount ["node:test"] (Src.file body) = 0)
  then out = Src.file (Sinon.nodeTestImport :: body)
  else exists body', out = Src.file body' /\ length body' = length body.
Proof.
  unfold Sinon.addNodeTestImport. intros H.
  apply bind_Ok in H as (nodeTestImports & Himports & H).
  pose proof (importsFrom_length _ _ _ Himports) as Hlen.
  rewrite Hlen in H.
  destruct (decide (importCount ["node:test"] (Src.file body) = 0)) as [Hc|Hc].
  - rewrite insertAtTop_file in H. injection H as <-. reflexivity.
  - eapply foldM_addMockSpecifier_file; [|exact H].
    apply importsFrom_Ok in Himports. subst nodeTestImports.
    apply Forall_forall. intros pn Hin. apply list_elem_of_In in Hin.
    apply filter_In in Hin as [Hin _]. apply find_file_shape in Hin. exact Hin.
Qed.

Lemma shift_down_field k removed a pd :
  shift_down (k :: removed) (F a :: pd)
  = if key_eqb k (F a) then cons (F a) <$> shift_down removed pd else Some (F a :: pd).
Proof. destruct k, removed; reflexivity. Qed.

Lemma shift_down_deeper k k' removed x pd :
  shift_down (k :: k' :: removed) (x :: pd)
  = if key_eqb k x then cons x <$> shift_down (k' :: removed) pd else Some (x :: pd).
Proof. destruct k; reflexivity. Qed.

Lemma shift_down_inBody removed a b i rest pd :
  shift_down removed (F a :: F b :: I i :: rest) = Some pd ->
  exists i' rest', pd = F a :: F b :: I i' :: rest'.
Proof.
  intros H.
  destruct removed as [|k1 removed]; [injection H as <-; eauto|].
  rewrite shift_down_field in H.
  destruct (key_eqb k1 (F a)); [|injection H as <-; eauto].
  destruct removed as [|k2 removed]; [injection H as <-; eauto|].
  rewrite shift_down_field in H.
  destruct (key_eqb k2 (F b)); [|injection H as <-; eauto].
  destruct removed as [|k3 removed]; [injection H as <-; eauto|].
  destruct removed as [|k4 removed].
  - destruct k3 as [s|n]; [injection H as <-; eauto|].
    cbn [shift_down] in H.
    destruct (decide (i < n)); [injection H as <-; eauto|].
    destruct (decide (i = n)); [discriminate|]. injection H as <-. eauto.
  - rewrite shift_down_deeper in H.
    destruct (key_eqb k3 (I i)); [|injection H as <-; eauto].
    destruct (shift_down (k4 :: removed) rest); [|discriminate].
    injection H as <-. eauto.
Qed.

Lemma inBody_rev p :
  inBody p <-> exists i rest, rev p = F "program" :: F "body" :: I i :: rest.
Proof.
  split.
  - intros (q & i & ->). rewrite rev_app_distr. simpl. eauto.
  - intros (i & rest & H). exists (rev rest), i.
    rewrite <- (rev_involutive p), H. simpl. rewrite <- !app_assoc. reflexivity.
Qed.

Lemma live_inBody es p q : inBody p -> live es p = Some q -> inBody q.
Proof.
  unfold live. revert p. induction es as [|e es IH]; intros p Hp H.
  - injection H as <-. assumption.
  - simpl in H. destruct e as [r|r].
    + simpl in H. destruct (shift_down (rev r) (rev p)) as [pd|] eqn:Hs.
      * simpl in H. eapply IH; [|exact H].
        apply inBody_rev in Hp as (i & rest & Hrev). rewrite Hrev in Hs.
        apply shift_down_inBody in Hs as (i' & rest' & ->).
        apply inBody_rev. rewrite rev_involutive. eauto.
      * simpl in H. clear -H. exfalso. induction es as [|e es IH]; [discriminate|].
        simpl in H. destruct e; simpl in H; auto.
    + simpl in H. destruct (below_down (rev r) (rev p)).
      * clear -H. exfalso. induction es as [|e es IH]; [discriminate|].
        simpl in H. destruct e; simpl in H; auto.
      * eapply IH; eassumption.
Qed.

Lemma remove_file b p r :
  inBody p -> remove (Src.file b) p = Ok r -> exists b', r = Src.file b'.
Proof.
  intros (q & i & ->) H. unfold remove in H.
  destruct q as [|k q].
  - simpl in H. destruct (decide (i < length b)); simpl in H; [|discriminate].
    injection H as <-. eauto.
  - change ((k :: q) ++ ?l)%list with (k :: (q ++ l))%list in H.
    destruct k as [s|n]; [discriminate|].
    rewrite rev_app_distr in H. simpl in H.
    destruct (b !! i) as [old|]; simpl in H; [|discriminate].
    destruct (update_down old (rev q) _) as [new|]; simpl in H; [|discriminate].
    injection H as <-. eauto.
Qed.

Lemma remove_all_file es b ps t :
  Forall inBody ps ->
  remove_all (Edited (Src.file b) es) ps = Ok t -> exists b', current t = Src.file b'.
Proof.
  unfold remove_all. cbn [edits]. generalize (length es). intros since Hall.
  revert es b. induction Hall as [|p ps Hp _ IH]; intros es b H.
  - injection H as <-. simpl. eauto.
  - cbn [foldM] in H. apply bind_Ok in H as (t1 & Ht1 & H).
    apply bind_Ok in Ht1 as (q & Hq & Ht1).
    unfold locate in Hq. cbn [edits] in Hq.
    destruct (live (drop since es) p) as [q'|] eqn:Hlive; [|discriminate].
    injection Hq as <-. apply (live_inBody _ _ _ Hp) in Hlive.
    unfold remove_in in Ht1. cbn [current edits] in Ht1.
    apply bind_Ok in Ht1 as (r & Hr & Ht1). injection Ht1 as <-.
    apply (remove_file _ _ _ Hlive) in Hr as (b1 & ->).
    eapply IH. exact H.
Qed.

Lemma find_file_inBody body pn :
  In pn (find (Src.file body) "ImportDeclaration") -> inBody pn.1.
Proof. apply find_file_shape. Qed.

Lemma removeImports_file body sources l t :
  importsFrom (Src.file body) sources = Ok l ->
  remove_all (Edited (Src.file body) []) l.*1 = Ok t ->
  exists kept, current t = Src.file kept.
Proof.
  intros Hl Ht. eapply remove_all_file; [|exact Ht].
  apply importsFrom_Ok in Hl. subst l.
  apply Forall_forall. intros p Hp. apply list_elem_of_In, in_map_iff in Hp as (pn & <- & Hpn).
  apply filter_In in Hpn as [Hpn _]. apply (find_file_inBody body). assumption.
Qed.

(** C8. In the [should] migration, once the legacy imports are removed, the
    [node:test] import and the assertion import are each inserted exactly
    when the program has no import declaration whose source names that module
    ([node:assert] and [assert] counting as one module), wherever it stands:
    afterwards the program has one such declaration where it had none, and as
    many as before otherwise.  In the sinon migration nothing is inserted for
    a file without a sinon import; otherwise, once the sinon imports are
    removed, the [node:test] import is inserted when the program has none,
    and when it has one no statement is added to the program. *)
Theorem import_inserted_only_when_absent (body : list val) (out out' : val) :
  Should.First.imports (Src.file body) = Ok out ->
  Sinon.imports (Src.file body) = Ok out' ->
  (exists kept names,
      Should.removeLegacyImports (Src.file body) = Ok (Src.file kept) /\
      out = Src.file
              ((if decide (importCount assertSources (Src.file kept) = 0)
                then [Should.assertImport] else []) ++
               (if decide (importCount ["node:test"] (Src.file kept) = 0)
                then [Should.testImport names] else []) ++ kept)%list /\
      importCount ["node:test"] out = Nat.max 1 (importCount ["node:test"] (Src.file kept)) /\
      importCount assertSources out = Nat.max 1 (importCount assertSources (Src.file kept))) /\
  ((importCount ["sinon"] (Src.file body) = 0 /\ out' = Src.file body) \/
   (exists kept,
       Sinon.removeSinonImports (Src.file body) = Ok (Src.file kept) /\
       if decide (importCount ["node:test"] (Src.file kept) = 0)
       then out' = Src.file (Sinon.nodeTestImport :: kept)
       else exists body', out' = Src.file body' /\ length body' = length kept)).
Proof.
  intros Hout Hout'. split.
  - unfold Should.First.imports in Hout.
    apply bind_Ok in Hout as (root1 & Hremoved & Hout).
    assert (exists kept, root1 = Src.file kept) as (kept & ->).
    { unfold Should.removeLegacyImports in Hremoved.
      apply bind_Ok in Hremoved as (legacy & Hlegacy & Hremoved).
      apply bind_Ok in Hremoved as (t & Ht & Hremoved). injection Hremoved as <-.
      eapply removeImports_file; eassumption. }
    apply addTargetImports_file in Hout as (names & ->).
    exists kept, names. split; [assumption|]. split; [reflexivity|]. split.
    + destruct (decide (importCount assertSources (Src.file kept) = 0)) as [Ha|Ha];
        destruct (decide (importCount ["node:test"] (Src.file kept) = 0)) as [Ht|Ht];
        cbn [app]; rewrite ?importCount_cons, ?countIn_assertImport, ?countIn_testImport;
        change (includes ["node:test"] (VStr "node:assert")) with false;
        change (includes ["node:test"] (VStr "node:test")) with true; cbv iota; lia.
    + destruct (decide (importCount assertSources (Src.file kept) = 0)) as [Ha|Ha];
        destruct (decide (importCount ["node:test"] (Src.file kept) = 0)) as [Ht|Ht];
        cbn [app]; rewrite ?importCount_cons, ?countIn_assertImport, ?countIn_testImport;
        change (includes assertSources (VStr "node:assert")) with true;
        change (includes assertSources (VStr "node:test")) with false; cbv iota; lia.
  - unfold Sinon.imports in Hout'.
    apply bind_Ok in Hout' as (has & Hhas & Hout').
    unfold Sinon.hasSinonImport in Hhas.
    apply bind_Ok in Hhas as (l & Hl & Hhas). injection Hhas as <-.
    apply importsFrom_length in Hl. rewrite Hl in Hout'.
    destruct (decide (importCount ["sinon"] (Src.file body) = 0)) as [Hs|Hs].
    + left. rewrite Hs in Hout'. injection Hout' as <-. auto.
    + right. rewrite bool_decide_eq_true_2 in Hout' by lia.
      apply bind_Ok in Hout' as (root1 & Hremoved & Hout').
      assert (exists kept, root1 = Src.file kept) as (kept & ->).
      { unfold Sinon.removeSinonImports in Hremoved.
        apply bind_Ok in Hremoved as (sinonImports & Hsinon & Hremoved).
        apply bind_Ok in Hremoved as (t & Ht & Hremoved). injection Hremoved as <-.
        eapply removeImports_file; eassumption. }
      exists kept. split; [assumption|]. apply addNodeTestImport_file. assumption.
Qed.

(** The theorem at [import sinon from 'sinon'; foo();]: the [should]
    migration inserts each of its imports once, the sinon migration replaces
    the sinon import by the one [node:test] import. *)
Lemma import_inserted_only_when_absent_witness :
  exists out,
    Should.First.imports (Src.file Examples.withSinon) = Ok out /\
    importCount ["node:test"] out = 1 /\ importCount assertSources out = 1 /\
    Sinon.imports (Src.file Examples.withSinon)
    = Ok (Src.file (Sinon.nodeTestImport :: Examples.noImports)).
Proof.
  eexists. split; [reflexivity|].
  pose proof (import_inserted_only_when_absent Examples.withSinon _ _ eq_refl eq_refl)
    as ((kept & names & Hkept & _ & Ht & Ha) & _).
  injection Hkept as <-.
  split; [exact Ht|]. split; [exact Ha|]. reflexivity.
Defined.

(** * Further properties of the sinon migration *)

(** ** Cutting the collected calls into chains (lines 221-233) *)

Lemma chainGroupsLoop_open trailing currentChain chainGroups :
  Forall (fun c => exists name, calledMethod c = Ok name /\ closesChain name = false) trailing ->
  Sinon.chainGroupsLoop trailing currentChain chainGroups = Ok chainGroups.
Proof.
  intros H. revert currentChain.
  induction H as [|c trailing (name & Hname & Hopen) _ IH]; intros currentChain; [reflexivity|].
  cbn [Sinon.chainGroupsLoop]. unfold calledMethod in Hname. rewrite Hname. simpl.
  unfold closesChain in Hopen. rewrite Hopen. apply IH.
Qed.

Lemma chainGroupsLoop_trailing calls trailing currentChain chainGroups groups :
  Forall (fun c => exists name, calledMethod c = Ok name /\ closesChain name = false) trailing ->
  Sinon.chainGroupsLoop calls currentChain chainGroups = Ok groups ->
  Sinon.chainGroupsLoop (calls ++ trailing) currentChain chainGroups = Ok groups.
Proof.
  intros Htrailing. revert currentChain chainGroups.
  induction calls as [|c calls IH]; intros currentChain chainGroups H.
  - injection H as <-. apply chainGroupsLoop_open. assumption.
  - cbn [Sinon.chainGroupsLoop app] in *. apply bind_Ok in H as (name & -> & H). simpl.
    destruct (is_str name "returns" || is_str name "resolves"); apply IH; assumption.
Qed.

(** The groups already closed do not matter to the ones closed later. *)
Lemma chainGroupsLoop_groups calls currentChain chainGroups groups :
  Sinon.chainGroupsLoop calls currentChain chainGroups = Ok groups ->
  exists more, groups = (chainGroups ++ more)%list /\
    forall chainGroups',
      Sinon.chainGroupsLoop calls currentChain chainGroups' = Ok (chainGroups' ++ more)%list.
Proof.
  revert currentChain chainGroups groups.
  induction calls as [|c calls IH]; intros currentChain chainGroups groups H.
  - injection H as <-. exists []. split; [symmetry; apply app_nil_r|].
    intros acc. simpl. rewrite app_nil_r. reflexivity.
  - cbn [Sinon.chainGroupsLoop] in H. apply bind_Ok in H as (name & Hname & H).
    destruct (is_str name "returns" || is_str name "resolves") eqn:Hcloses.
    + apply IH in H as (more & -> & Hmore).
      exists ((currentChain ++ [{| Sinon.linkName := name; Sinon.callNode := c |}]) :: more)%list.
      split; [rewrite <- app_assoc; reflexivity|].
      intros acc. cbn [Sinon.chainGroupsLoop]. rewrite Hname. simpl. rewrite Hcloses.
      rewrite Hmore, <- app_assoc. reflexivity.
    + apply IH in H as (more & -> & Hmore).
      exists more. split; [reflexivity|].
      intros acc. cbn [Sinon.chainGroupsLoop]. rewrite Hname. simpl. rewrite Hcloses.
      apply Hmore.
Qed.

Lemma chainGroupsLoop_cut pre t rest currentChain groups :
  Forall (fun c => exists name, calledMethod c = Ok name /\ closesChain name = false) pre ->
  (exists name, calledMethod t = Ok name /\ closesChain name = true) ->
  Sinon.chainGroups rest = Ok groups ->
  exists g, Sinon.chainGroupsLoop (pre ++ t :: rest) currentChain [] = Ok (g :: groups) /\
            Sinon.callNode <$> g = ((Sinon.callNode <$> currentChain) ++ pre ++ [t])%list /\
            forall l, In l g ->
                      In l currentChain \/ calledMethod (Sinon.callNode l) = Ok (Sinon.linkName l).
Proof.
  intros Hpre (tn & Htn & Hcloses) Hrest. revert currentChain.
  induction Hpre as [|c pre (name & Hname & Hopen) _ IH]; intros currentChain.
  - cbn [app Sinon.chainGroupsLoop]. unfold calledMethod in Htn. rewrite Htn. simpl.
    unfold closesChain in Hcloses. rewrite Hcloses.
    apply chainGroupsLoop_groups in Hrest as (more & -> & Hmore).
    eexists. split; [apply (Hmore [_])|]. split.
    + rewrite fmap_app. reflexivity.
    + intros l Hl. apply in_app_iff in Hl as [Hl|[<-|[]]]; [left; assumption|right; exact Htn].
  - cbn [app Sinon.chainGroupsLoop]. unfold calledMethod in Hname. rewrite Hname. simpl.
    unfold closesChain in Hopen. rewrite Hopen.
    destruct (IH (currentChain ++ [{| Sinon.linkName := name; Sinon.callNode := c |}])%list)
      as (g & Hg & Hnodes & Hnames).
    exists g. split; [exact Hg|]. split.
    + rewrite Hnodes, fmap_app, <- app_assoc. reflexivity.
    + intros l Hl. apply Hnames in Hl as [Hl|Hl]; [|right; assumption].
      apply in_app_iff in Hl as [Hl|[<-|[]]]; [left; assumption|right; exact Hname].
Qed.

(** The collected calls are cut after the first call of [returns] or
    [resolves]: the calls up to and including it form the first chain, in the
    order in which they were collected and each under the name of the method
    it invokes, and the chains of the remaining calls follow unchanged. *)
Theorem chain_is_cut_at_its_first_result
    (pre : list val) (t : val) (rest : list val) (groups : list (list Sinon.link)) :
  Forall (fun c => exists name, calledMethod c = Ok name /\ closesChain name = false) pre ->
  (exists name, calledMethod t = Ok name /\ closesChain name = true) ->
  Sinon.chainGroups rest = Ok groups ->
  exists g, Sinon.chainGroups (pre ++ t :: rest) = Ok (g :: groups) /\
            Sinon.callNode <$> g = (pre ++ [t])%list /\
            Forall (fun l => calledMethod (Sinon.callNode l) = Ok (Sinon.linkName l)) g.
Proof.
  intros Hpre Ht Hrest.
  destruct (chainGroupsLoop_cut pre t rest [] groups Hpre Ht Hrest) as (g & Hg & Hnodes & Hnames).
  exists g. split; [exact Hg|]. split; [exact Hnodes|].
  apply Forall_forall. intros l Hl. apply list_elem_of_In, Hnames in Hl as [[]|Hl]. exact Hl.
Qed.

(** The theorem at [stub.withArgs(5).returns(1); stub.returns(2);]. *)
Lemma chain_is_cut_at_its_first_result_witness :
  exists g groups,
    Sinon.chainGroups [Cases.withArgs5; Cases.returns1; Cases.returns2] = Ok (g :: groups) /\
    Sinon.callNode <$> g = [Cases.withArgs5; Cases.returns1].
Proof.
  destruct (chain_is_cut_at_its_first_result [Cases.withArgs5] Cases.returns1 [Cases.returns2]
              [[{| Sinon.linkName := VStr "returns"; Sinon.callNode := Cases.returns2 |}]])
    as (g & Hg & Hnodes & _).
  - constructor; [|constructor]. exists (VStr "withArgs"). split; reflexivity.
  - exists (VStr "returns"). split; reflexivity.
  - reflexivity.
  - exists g, [[{| Sinon.linkName := VStr "returns"; Sinon.callNode := Cases.returns2 |}]].
    split; assumption.
Defined.

(** The calls collected after the last [returns] or [resolves] belong to no
    chain: a configuration that never states a result ([callsFake],
    [rejects], [throws], a bare [withArgs]) is dropped. *)
Theorem calls_after_the_last_result_are_dropped
    (calls trailing : list val) (groups : list (list Sinon.link)) :
  Forall (fun c => exists name, calledMethod c = Ok name /\ closesChain name = false) trailing ->
  Sinon.chainGroups calls = Ok groups ->
  Sinon.chainGroups (calls ++ trailing) = Ok groups.
Proof. apply chainGroupsLoop_trailing. Qed.

(** The theorem at [stub.returns(2); stub.callsFake(f);]. *)
Lemma calls_after_the_last_result_are_dropped_witness :
  Sinon.chainGroups [Cases.returns2; Cases.callsFake]
  = Ok [[{| Sinon.linkName := VStr "returns"; Sinon.callNode := Cases.returns2 |}]].
Proof.
  apply (calls_after_the_last_result_are_dropped [Cases.returns2] [Cases.callsFake]).
  - constructor; [|constructor]. exists (VStr "callsFake"). split; reflexivity.
  - reflexivity.
Defined.

(** ** The chain of a group (lines 236-253) *)

Lemma applyLink_keeps_args chain l chain' :
  is_str (Sinon.linkName l) "withArgs" = false ->
  Sinon.applyLink chain l = Ok chain' -> Sinon.args chain' = Sinon.args chain.
Proof.
  unfold Sinon.applyLink. intros ->.
  destruct (is_str _ "returns"); [intros H; ok_steps; subst; reflexivity|].
  destruct (is_str _ "resolves"); intros H; ok_steps; subst; reflexivity.
Qed.

Lemma foldM_app {A S} (f : S -> A -> result S) s l1 l2 :
  foldM f s (l1 ++ l2)%list = foldM f s l1 ≫= fun s' => foldM f s' l2.
Proof.
  revert s. induction l1 as [|y l IH]; intros s; simpl.
  - destruct (foldM f s l2); reflexivity.
  - destruct (f s y); simpl; [apply IH | reflexivity | reflexivity].
Qed.

(** The matchers of a chain are the arguments of the last [withArgs] of its
    group; an earlier [withArgs] of the same group is overwritten. *)
Theorem last_withArgs_gives_the_matchers
    (before after : list Sinon.link) (w : Sinon.link) (a : list val)
    (chain : Sinon.StubReplacement) :
  Sinon.linkName w = VStr "withArgs" ->
  arguments_of (Sinon.callNode w) = Ok a ->
  Forall (fun l => is_str (Sinon.linkName l) "withArgs" = false) after ->
  Sinon.chainOf (before ++ w :: after) = Ok chain ->
  Sinon.args chain = Some a.
Proof.
  intros Hname Hargs Hafter Hchain. unfold Sinon.chainOf in Hchain.
  rewrite foldM_app in Hchain. apply bind_Ok in Hchain as (c0 & _ & Hchain).
  cbn [foldM] in Hchain. apply bind_Ok in Hchain as (c1 & Hc1 & Hchain).
  unfold Sinon.applyLink in Hc1. rewrite Hname, Hargs in Hc1. simpl in Hc1. injection Hc1 as <-.
  assert (Hkeep : forall c c', foldM Sinon.applyLink c after = Ok c' ->
                               Sinon.args c' = Sinon.args c).
  { clear Hchain. induction Hafter as [|l after Hl _ IH]; intros c c' H.
    - injection H as <-. reflexivity.
    - cbn [foldM] in H. apply bind_Ok in H as (c2 & Hc2 & H).
      rewrite (IH _ _ H). eapply applyLink_keeps_args; eassumption. }
  rewrite (Hkeep _ _ Hchain). reflexivity.
Qed.

(** The theorem at the group of [stub.withArgs(5).returns(1)]. *)
Lemma last_withArgs_gives_the_matchers_witness :
  exists chain,
    Sinon.chainOf [{| Sinon.linkName := VStr "withArgs"; Sinon.callNode := Cases.withArgs5 |};
                   {| Sinon.linkName := VStr "returns"; Sinon.callNode := Cases.returns1 |}]
    = Ok chain /\
    Sinon.args chain = Some [Src.numericLiteral 5].
Proof.
  eexists. split; [reflexivity|].
  apply (last_withArgs_gives_the_matchers []
           [{| Sinon.linkName := VStr "returns"; Sinon.callNode := Cases.returns1 |}]
           {| Sinon.linkName := VStr "withArgs"; Sinon.callNode := Cases.withArgs5 |}).
  - reflexivity.
  - reflexivity.
  - constructor; [reflexivity|constructor].
  - reflexivity.
Defined.

(** ** What the first pass stores (lines 88-264) *)

Lemma chainOf_terminal group chain l :
  last group = Some l ->
  (is_str (Sinon.linkName l) "returns" || is_str (Sinon.linkName l) "resolves") = true ->
  Sinon.chainOf group = Ok chain ->
  is_Some (Sinon.returnValue chain).
Proof.
  intros Hlast Hcloses Hchain.
  destruct (last_Some group l) as [(steps & ->) _]; [assumption|].
  unfold Sinon.chainOf in Hchain. rewrite foldM_snoc in Hchain.
  apply bind_Ok in Hchain as (c & _ & Hchain). unfold Sinon.applyLink in Hchain.
  destruct (Sinon.linkName l) as [| | | |name| |]; try discriminate.
  unfold is_str, strict_eq in *.
  destruct (String.eqb_spec name "withArgs") as [->|_]; [discriminate|].
  destruct (String.eqb name "returns").
  - ok_steps. subst chain. simpl. eauto.
  - simpl in Hcloses. rewrite Hcloses in Hchain. ok_steps. subst chain. simpl. eauto.
Qed.

Lemma chainsOf_complete methodCalls groups chains :
  Sinon.chainGroups methodCalls = Ok groups ->
  Sinon.chainsOf groups = Ok chains ->
  Forall (fun c => is_Some (Sinon.returnValue c)) chains.
Proof.
  intros Hgroups Hchains.
  apply chainGroupsLoop_terminal in Hgroups; [|constructor].
  unfold Sinon.chainsOf in Hchains. apply bind_Ok in Hchains as (all & Hall & Hchains).
  injection Hchains as <-.
  apply Forall_forall. intros c Hc. apply list_elem_of_In, filter_In in Hc as [Hc _].
  revert all Hall Hc. induction Hgroups as [|g groups (l & Hl & Hcloses) _ IH]; intros all Hall Hc.
  - injection Hall as <-. destruct Hc.
  - apply mapM_Ok_cons in Hall as (c0 & all' & -> & Hc0 & Hall).
    destruct Hc as [<-|Hc]; [|eauto].
    eapply chainOf_terminal; eassumption.
Qed.

(** One stub call either leaves the stored chains as they are or adds an
    entry under a key that had none. *)
Lemma collectStub_stubChains src root s pn s' :
  Sinon.collectStub src root s pn = Ok s' ->
  Sinon.stubChains s' = Sinon.stubChains s \/
  exists k chains,
    Sinon.stubChains s !! k = None /\
    Sinon.stubChains s' = <[k := chains]> (Sinon.stubChains s) /\
    chains <> [] /\ Forall (fun c => is_Some (Sinon.returnValue c)) chains.
Proof.
  unfold Sinon.collectStub. intros H.
  apply bind_Ok in H as (args & _ & H).
  destruct args as [|firstArg [|secondArg rest]]; try (injection H as <-; left; reflexivity).
  apply bind_Ok in H as (cn & _ & H). apply bind_Ok in H as (mn & _ & H).
  destruct (negb (truthy cn) || negb (truthy mn)); [injection H as <-; left; reflexivity|].
  apply bind_Ok in H as (tn & _ & H).
  cbn [Sinon.console_log Sinon.stubChains Sinon.log] in H.
  destruct (bool_decide (is_Some (Sinon.stubChains s !! Sinon.key cn mn tn))) eqn:Hhas;
    [injection H as <-; left; reflexivity|].
  apply bind_Ok in H as (vd & _ & H).
  destruct vd as [varDecPath|]; [|injection H as <-; left; reflexivity].
  apply bind_Ok in H as (vdn & _ & H). apply bind_Ok in H as (varName & _ & H).
  apply bind_Ok in H as (mc0 & _ & H). apply bind_Ok in H as (methodCalls & _ & H).
  apply bind_Ok in H as (names & _ & H). apply bind_Ok in H as (groups & Hgroups & H).
  apply bind_Ok in H as (chains & Hchains & H).
  destruct (bool_decide (0 < length chains)) eqn:Hlen; injection H as <-; [|left; reflexivity].
  right. exists (Sinon.key cn mn tn), chains. split; [|split; [reflexivity|split]].
  - apply bool_decide_eq_false in Hhas. destruct (Sinon.stubChains s !! _); [|reflexivity].
    exfalso. apply Hhas. eauto.
  - apply bool_decide_eq_true in Hlen. intros ->. simpl in Hlen. lia.
  - eapply chainsOf_complete; eassumption.
Qed.

(** Every entry of [stubChains] holds at least one chain, and every chain it
    holds has a [returnValue]: a chain is stored only once a [returns] or a
    [resolves] has closed it. *)
Theorem stored_chains_have_a_result (src root : val) (s : Sinon.state) :
  Sinon.firstPass src root = Ok s ->
  forall k chains, Sinon.stubChains s !! k = Some chains ->
    chains <> [] /\ Forall (fun c => is_Some (Sinon.returnValue c)) chains.
Proof.
  unfold Sinon.firstPass.
  generalize (find_matching root "CallExpression" Sinon.sandBoxStub). intros stubs.
  assert (Hinit : forall k chains,
             Sinon.stubChains {| Sinon.stubChains := ∅; Sinon.log := [] |} !! k = Some chains ->
             chains <> [] /\ Forall (fun c => is_Some (Sinon.returnValue c)) chains).
  { intros k chains H. simpl in H. rewrite lookup_empty in H. discriminate. }
  revert Hinit. generalize {| Sinon.stubChains := ∅; Sinon.log := [] |}. intros s0.
  revert s0. induction stubs as [|pn stubs IH]; intros s0 Hinit H.
  - injection H as <-. assumption.
  - cbn [foldM] in H. apply bind_Ok in H as (s1 & Hs1 & H).
    apply (IH s1); [|assumption].
    apply collectStub_stubChains in Hs1 as [->|(k0 & chains0 & _ & -> & Hne & Hall)]; [assumption|].
    intros k chains Hk. destruct (decide (k = k0)) as [->|Hneq].
    + rewrite lookup_insert_eq in Hk. injection Hk as <-. auto.
    + rewrite lookup_insert_ne in Hk by congruence. eauto.
Qed.

(** The theorem at the entry of test [a] in [Examples.twoTests]. *)
Lemma stored_chains_have_a_result_witness :
  exists s chains,
    Sinon.firstPass Examples.twoTests Examples.twoTests = Ok s /\
    Sinon.stubChains s !! "Foo.bar.a" = Some chains /\
    chains <> [] /\ Forall (fun c => is_Some (Sinon.returnValue c)) chains.
Proof.
  eexists _, _. split; [vm_compute; reflexivity|]. split; [vm_compute; reflexivity|].
  refine (stored_chains_have_a_result Examples.twoTests Examples.twoTests _ _ "Foo.bar.a" _ _);
    vm_compute; reflexivity.
Defined.

Lemma collectStub_keeps src root s stubs s' k chains :
  Sinon.stubChains s !! k = Some chains ->
  foldM (Sinon.collectStub src root) s stubs = Ok s' ->
  Sinon.stubChains s' !! k = Some chains.
Proof.
  revert s. induction stubs as [|pn stubs IH]; intros s Hk H.
  - injection H as <-. assumption.
  - cbn [foldM] in H. apply bind_Ok in H as (s1 & Hs1 & H).
    apply (IH s1); [|assumption].
    apply collectStub_stubChains in Hs1 as [->|(k0 & chains0 & Hnone & -> & _)]; [assumption|].
    rewrite lookup_insert_ne; [assumption|]. intros ->. congruence.
Qed.

(** The first stub of a key decides its entry: what the stub calls visited so
    far have stored under a key is what the pass ends with under that key,
    whatever the later stub calls of the same member and test case are
    configured with. *)
Theorem first_stub_of_a_key_wins
    (src root : val) (earlier later : list (path * val)) (s s' : Sinon.state)
    (k : string) (chains : list Sinon.StubReplacement) :
  find_matching root "CallExpression" Sinon.sandBoxStub = (earlier ++ later)%list ->
  foldM (Sinon.collectStub src root) {| Sinon.stubChains := ∅; Sinon.log := [] |} earlier = Ok s ->
  Sinon.stubChains s !! k = Some chains ->
  Sinon.firstPass src root = Ok s' ->
  Sinon.stubChains s' !! k = Some chains.
Proof.
  intros Hstubs Hs Hk Hs'. unfold Sinon.firstPass in Hs'.
  rewrite Hstubs, foldM_app, Hs in Hs'. cbn [mbind result_bind] in Hs'.
  eapply collectStub_keeps; eassumption.
Qed.

(** The theorem at [Cases.sameMemberTwice]: the entry is the chain of the
    first declaration, [returns(1)]. *)
Lemma first_stub_of_a_key_wins_witness :
  exists s',
    Sinon.firstPass Cases.sameMemberTwice Cases.sameMemberTwice = Ok s' /\
    Sinon.stubChains s' !! "Foo.bar.t"
    = Some [{| Sinon.args := None; Sinon.returnValue := Some (Src.numericLiteral 1) |}].
Proof.
  eexists. split; [vm_compute; reflexivity|].
  eapply (first_stub_of_a_key_wins Cases.sameMemberTwice Cases.sameMemberTwice
            (take 1 (find_matching Cases.sameMemberTwice "CallExpression" Sinon.sandBoxStub))
            (drop 1 (find_matching Cases.sameMemberTwice "CallExpression" Sinon.sandBoxStub))).
  - vm_compute; reflexivity.
  - vm_compute; reflexivity.
  - vm_compute; reflexivity.
  - vm_compute; reflexivity.
Defined.

(** ** The key of a stub (line 131) *)

Lemma append_assoc (a b c : string) : (a ++ b) ++ c = a ++ (b ++ c).
Proof.
  induction a as [|x a IH]; [reflexivity|].
  change (String x ((a ++ b) ++ c) = String x (a ++ b ++ c)). f_equal. exact IH.
Qed.

(** The key does not tell its three parts apart: a dot in the method name or
    in the test name moves the boundary, so that method [m.x] in test [t] and
    method [m] in test [x.t] share their key; and a test whose name cannot be
    read shares its key with the test named [undefined]. *)
Theorem keys_of_distinct_members_collide (className : val) (m x t : string) :
  Sinon.key className (VStr (m ++ "." ++ x)) (VStr t)
  = Sinon.key className (VStr m) (VStr (x ++ "." ++ t)) /\
  Sinon.key className (VStr m) VUndef = Sinon.key className (VStr m) (VStr "undefined").
Proof.
  split; [|reflexivity]. unfold Sinon.key. cbn [to_str].
  rewrite (append_assoc m). reflexivity.
Qed.

(** ** Calls of the synthesized function (lines 329-375) *)

Section Calls.

Context {R : Type}.
Variable undefined : R.
Variable eval : val -> R.
Variable strictEquals : R -> R -> bool.

Lemma allMatch_lookup actual index matchers :
  Call.allMatch undefined eval strictEquals actual index matchers = true <->
  forall i m, matchers !! i = Some m ->
    strictEquals (nth (index + i) actual undefined) (eval m) = true.
Proof.
  revert index. induction matchers as [|arg rest IH]; intros index.
  - split; [intros _ i m H; discriminate | reflexivity].
  - cbn [Call.allMatch]. rewrite andb_true_iff, IH. split.
    + intros [H0 H] [|i] m Hi; simpl in Hi.
      * injection Hi as <-. rewrite Nat.add_0_r. assumption.
      * replace (index + S i) with (S index + i) by lia. apply (H i m Hi).
    + intros H. split.
      * rewrite <- (Nat.add_0_r index). apply (H 0 arg). reflexivity.
      * intros i m Hi. replace (S index + i) with (index + S i) by lia.
        apply (H (S i) m). assumption.
Qed.

(** The test synthesized for the matchers of a chain always has a value, and
    it holds exactly when the call has at least one argument and, at every
    position of a matcher, the argument of the call equals the matcher;
    arguments beyond the matchers are not looked at, and an argument the call
    lacks counts as [undefined]. *)
Theorem matcher_test_checks_every_position (actual : list R) (arg : val) (rest : list val) :
  exists b,
    Call.test undefined eval strictEquals actual (Sinon.matcherTest (arg :: rest)) = Some b /\
    (b = true <->
     actual <> [] /\
     forall i m, (arg :: rest) !! i = Some m ->
       strictEquals (nth i actual undefined) (eval m) = true).
Proof.
  eexists. split; [apply test_matcherTest|].
  rewrite andb_true_iff, bool_decide_eq_true, allMatch_lookup. simpl.
  split; intros [Hlen H]; (split; [|exact H]).
  - intros ->. simpl in Hlen. lia.
  - destruct actual; [contradiction|simpl; lia].
Qed.

Lemma declined_hasMatchers chain actual :
  Call.accepts undefined eval strictEquals chain actual = false -> Sinon.hasMatchers chain = true.
Proof.
  unfold Call.accepts, Sinon.hasMatchers.
  destruct (Sinon.args chain) as [[|arg rest]|]; [discriminate|reflexivity|discriminate].
Qed.

(** A call that no chain takes returns what the identifier [undefined]
    stands for where the function runs: every chain then has matchers, and
    the fallback [return undefined] ends the body. *)
Theorem no_accepting_chain_returns_undefined
    (chains : list Sinon.StubReplacement) (f : val) (actual : list R) :
  Sinon.mockImpl chains = Ok f ->
  Forall (fun c => Call.accepts undefined eval strictEquals c actual = false) chains ->
  Call.call undefined eval strictEquals f actual
  = Some (match chains with [] => undefined | _ => eval (j.ident "undefined") end).
Proof.
  intros Hf Hnone.
  unfold Sinon.mockImpl in Hf. apply bind_Ok in Hf as (body & Hbody & Hf). injection Hf as <-.
  unfold Sinon.mockImplBody in Hbody.
  apply bind_Ok in Hbody as (branches & Hbranches & Hbody).
  apply bind_Ok in Hbody as (fallback & Hfallback & Hbody). injection Hbody as <-.
  rewrite call_arrow, (exec_declined_all _ _ _ _ _ _ _ Hbranches Hnone).
  apply defaultReturn_spec in Hfallback. subst fallback.
  destruct chains as [|c chains]; [reflexivity|].
  apply Forall_cons in Hnone as [Hc _]. apply declined_hasMatchers in Hc.
  cbn [existsb]. rewrite Hc. reflexivity.
Qed.

End Calls.

(** The theorem at the one chain [withArgs(5).returns(1)], called with [6]. *)
Lemma no_accepting_chain_returns_undefined_witness :
  exists f,
    Sinon.mockImpl [Cases.only5] = Ok f /\
    Call.call VUndef Call.literalValue strict_eq f [VNum 6] = Some VUndef.
Proof.
  eexists. split; [reflexivity|].
  apply (no_accepting_chain_returns_undefined VUndef Call.literalValue strict_eq [Cases.only5]).
  - reflexivity.
  - constructor; [reflexivity|constructor].
Defined.

(** ** Passes that remove statements *)

Lemma filter_eachFrom {A B} (g : B -> bool) (f : nat -> A -> list B) i xs :
  List.filter g (eachFrom f i xs) = eachFrom (fun i x => List.filter g (f i x)) i xs.
Proof.
  revert i. induction xs as [|x xs IH]; intros i; [reflexivity|].
  simpl. rewrite List.filter_app, IH. reflexivity.
Qed.

Lemma eachFrom_ext {A B} (f g : nat -> A -> list B) i xs :
  Forall (fun x => forall k, f k x = g k x) xs -> eachFrom f i xs = eachFrom g i xs.
Proof.
  intros H. revert i. induction H as [|x xs Hx _ IH]; intros i; [reflexivity|].
  simpl. rewrite Hx, IH. reflexivity.
Qed.

Lemma fmap_nil_inv {A B} (f : A -> B) (l : list A) : f <$> l = [] -> l = [].
Proof. destruct l; [reflexivity|discriminate]. Qed.

Lemma walk_onlyAtTop ty pre s :
  onlyAtTop ty s ->
  List.filter (fun pn : path * val => check ty pn.2) (walk pre s)
  = if check ty s then [(pre, s)] else [].
Proof.
  unfold onlyAtTop, nodes. intros H.
  rewrite (walk_snd [] pre), <- filter_snd in H.
  destruct (check ty s) eqn:Hcheck.
  - destruct s as [| | | | | |fs]; try discriminate.
    cbn [walk] in *. cbn [List.filter snd] in *. rewrite Hcheck in *.
    rewrite fmap_cons in H. injection H as H. apply fmap_nil_inv in H. rewrite H. reflexivity.
  - apply fmap_nil_inv in H. exact H.
Qed.

Lemma walk_file body :
  tail (walk [] (Src.file body))
  = ([F "program"], Src.program body) :: eachFrom (fun i s => walk (statementPath i) s) 0 body.
Proof. simpl. rewrite !app_nil_r. reflexivity. Qed.

Lemma find_file ty body :
  check ty (Src.program body) = false ->
  Forall (onlyAtTop ty) body ->
  find (Src.file body) ty
  = eachFrom (fun i s => if check ty s then [(statementPath i, s)] else []) 0 body.
Proof.
  intros Hty Hall. unfold find. rewrite walk_file.
  cbn [List.filter snd]. rewrite Hty.
  rewrite filter_eachFrom. apply eachFrom_ext.
  eapply Forall_impl; [exact Hall|]. intros s Hs k. apply walk_onlyAtTop. assumption.
Qed.

Lemma filterM_statements ty (f : path * val -> result bool) (g : val -> bool) k body :
  Forall (fun s => check ty s = true -> forall p, f (p, s) = Ok (g s)) body ->
  filterM f (eachFrom (fun i s => if check ty s then [(statementPath i, s)] else []) k body)
  = Ok (eachFrom (fun i s => if check ty s && g s then [(statementPath i, s)] else []) k body).
Proof.
  intros H. revert k. induction H as [|s body Hs _ IH]; intros k; [reflexivity|].
  cbn [eachFrom]. destruct (check ty s) eqn:Hcheck.
  - cbn [app filterM]. rewrite (Hs eq_refl), IH. simpl. destruct (g s); reflexivity.
  - simpl. apply IH.
Qed.

Lemma selected_fst (g : val -> bool) k body :
  (eachFrom (fun i s => if g s then [(statementPath i, s)] else []) k body).*1
  = selected g k body.
Proof.
  revert k. induction body as [|s body IH]; intros k; [reflexivity|].
  cbn [eachFrom selected]. rewrite fmap_app. unfold selected in IH. rewrite IH.
  destruct (g s); reflexivity.
Qed.

Lemma remove_statement b i :
  i < length b -> remove (Src.file b) (statementPath i) = Ok (Src.file (delete i b)).
Proof.
  intros Hi. unfold remove, statementPath. simpl.
  destruct (decide (i < length b)); [reflexivity|contradiction].
Qed.

Lemma remove_in_statement b es i :
  i < length b ->
  remove_in (Edited (Src.file b) es) (statementPath i)
  = Ok (Edited (Src.file (delete i b)) (es ++ [Removed (statementPath i)])).
Proof. intros Hi. unfold remove_in. cbn [current edits]. rewrite remove_statement; auto. Qed.

Lemma after_remove_statement d i :
  after_remove (statementPath d) (Some (statementPath i))
  = if decide (i < d) then Some (statementPath i)
    else if decide (i = d) then None else Some (statementPath (pred i)).
Proof.
  unfold after_remove, statementPath. simpl.
  destruct (decide (i < d)); [reflexivity|]. destruct (decide (i = d)); reflexivity.
Qed.

Lemma live_snoc es e p :
  live (es ++ [e]) p
  = match e with
    | Removed r => after_remove r (live es p)
    | Replaced r => after_replace r (live es p)
    end.
Proof. unfold live. rewrite foldl_app. reflexivity. Qed.

(** Removing the selected statements one after the other, each at the place
    its path has moved to, leaves the statements that were not selected. *)
Lemma remove_selected (g : val -> bool) rest :
  forall done es k,
    (forall i, live es (statementPath (k + i)) = Some (statementPath (length done + i))) ->
    exists es',
      foldM (fun t p => q ← locate t 0 p; remove_in t q)
            (Edited (Src.file (done ++ rest)) es) (selected g k rest)
      = Ok (Edited (Src.file (done ++ List.filter (fun s => negb (g s)) rest)) es').
Proof.
  induction rest as [|s rest IH]; intros done es k Hlive.
  - exists es. reflexivity.
  - cbn [selected eachFrom List.filter]. destruct (g s) eqn:Hg; cbn [negb app].
    + cbn [foldM].
      assert (Hloc : locate (Edited (Src.file (done ++ s :: rest)) es) 0 (statementPath k)
                     = Ok (statementPath (length done))).
      { unfold locate. cbn [edits]. rewrite drop_0.
        specialize (Hlive 0). rewrite !Nat.add_0_r in Hlive. rewrite Hlive. reflexivity. }
      rewrite Hloc. cbn [mbind result_bind].
      rewrite remove_in_statement by (rewrite length_app; simpl; lia).
      cbn [mbind result_bind]. rewrite delete_middle.
      apply (IH done _ (S k)). intros i.
      rewrite live_snoc. replace (S k + i) with (k + S i) by lia. rewrite Hlive.
      rewrite after_remove_statement.
      destruct (decide (length done + S i < length done)); [lia|].
      destruct (decide (length done + S i = length done)); [lia|].
      replace (pred (length done + S i)) with (length done + i) by lia. reflexivity.
    + replace (done ++ s :: rest)%list with ((done ++ [s]) ++ rest)%list
        by (rewrite <- app_assoc; reflexivity).
      replace (done ++ s :: List.filter (fun s => negb (g s)) rest)%list
        with ((done ++ [s]) ++ List.filter (fun s => negb (g s)) rest)%list
        by (rewrite <- app_assoc; reflexivity).
      apply (IH (done ++ [s])%list es (S k)). intros i.
      replace (S k + i) with (k + S i) by lia. rewrite Hlive.
      rewrite length_app. cbn [length].
      replace (length done + 1 + i) with (length done + S i) by lia. reflexivity.
Qed.

(** A pass [root.find(j.T).filter(f).remove()] on a program whose nodes of
    type [T] are statements of the program. *)
Lemma removal_pass ty (f : path * val -> result bool) (g : val -> bool) body :
  check ty (Src.program body) = false ->
  Forall (onlyAtTop ty) body ->
  Forall (fun s => check ty s = true -> forall p, f (p, s) = Ok (g s)) body ->
  (ps ← filterM f (find (Src.file body) ty);
   t ← remove_all (Edited (Src.file body) []) ps.*1;
   Ok (current t))
  = Ok (Src.file (List.filter (fun s => negb (check ty s && g s)) body)).
Proof.
  intros Hty Htop Hf.
  rewrite (find_file _ _ Hty Htop), (filterM_statements _ _ _ _ _ Hf).
  cbn [mbind result_bind]. rewrite (selected_fst (fun s => check ty s && g s)).
  unfold remove_all. cbn [edits length].
  destruct (remove_selected (fun s => check ty s && g s) body [] [] 0) as (es' & Hes').
  { intros i. reflexivity. }
  cbn [app] in Hes'. rewrite Hes'. reflexivity.
Qed.

(** Settles [importsAtTop] and the like for a program written out. *)
Ltac statement_by_statement :=
  repeat first [ apply List.Forall_nil
               | apply List.Forall_cons
               | split
               | reflexivity
               | (intros _; eexists; reflexivity)
               | (let H := fresh in intros H; discriminate H) ].

Lemma importsAtTop_onlyAtTop body :
  importsAtTop body -> Forall (onlyAtTop "ImportDeclaration") body.
Proof. intros H. eapply Forall_impl; [exact H|]. intros s [Hs _]. exact Hs. Qed.

Lemma importsAtTop_readable sources body :
  importsAtTop body ->
  Forall (fun s => check "ImportDeclaration" s = true ->
                   forall p : path,
                     (fun pn : path * val =>
                        v ← props pn.2 ["source"; "value"]; Ok (includes sources v)) (p, s)
                     = Ok (declares sources s)) body.
Proof.
  intros Hall. eapply Forall_impl; [exact Hall|].
  intros s [_ H] Hcheck p. destruct (H Hcheck) as (v & Hv).
  unfold declares. cbn [snd]. rewrite Hv. reflexivity.
Qed.

Lemma importsFrom_statements sources body :
  importsAtTop body ->
  importsFrom (Src.file body) sources
  = Ok (eachFrom (fun i s => if importsOf sources s then [(statementPath i, s)] else []) 0 body).
Proof.
  intros H. unfold importsFrom.
  rewrite (find_file "ImportDeclaration" body eq_refl (importsAtTop_onlyAtTop _ H)).
  apply (filterM_statements "ImportDeclaration" _ (declares sources)).
  apply importsAtTop_readable. assumption.
Qed.

Lemma imports_removed sources body :
  importsAtTop body ->
  (l ← importsFrom (Src.file body) sources;
   t ← remove_all (Edited (Src.file body) []) l.*1;
   Ok (current t))
  = Ok (Src.file (List.filter (fun s => negb (importsOf sources s)) body)).
Proof.
  intros H. unfold importsFrom.
  apply (removal_pass "ImportDeclaration" _ (declares sources));
    [reflexivity | apply importsAtTop_onlyAtTop; assumption
     | apply importsAtTop_readable; assumption].
Qed.

(** Lines 20-24 of the sinon migration.  On a program whose import
    declarations are statements of the program, the removal of the sinon
    imports succeeds and takes out exactly the import declarations whose
    source is [sinon]; the other statements stay, in their order. *)
Theorem sinon_imports_are_removed (body : list val) :
  importsAtTop body ->
  Sinon.removeSinonImports (Src.file body)
  = Ok (Src.file (List.filter (fun s => negb (importsOf ["sinon"] s)) body)).
Proof. apply imports_removed. Qed.

(** The theorem at [import sinon from 'sinon'; foo();]. *)
Lemma sinon_imports_are_removed_witness :
  Sinon.removeSinonImports (Src.file Examples.withSinon) = Ok (Src.file Examples.noImports).
Proof.
  apply (sinon_imports_are_removed Examples.withSinon).
  unfold importsAtTop. statement_by_statement.
Defined.

(** Lines 60-74.  On a program whose variable declarations are statements of
    the program, the declarations whose first declarator is initialised with
    [sinon.createSandbox(...)] are removed whole, and nothing else is. *)
Theorem createSandbox_declarations_are_removed (body : list val) :
  Forall (onlyAtTop "VariableDeclaration") body ->
  Forall (fun s => check "VariableDeclaration" s = true ->
                   exists b, Sinon.isCreateSandbox ([], s) = Ok b) body ->
  Sinon.removeCreateSandbox (Src.file body)
  = Ok (Src.file (List.filter (fun s => negb (createsSandbox s)) body)).
Proof.
  intros Htop Hok. unfold Sinon.removeCreateSandbox, createsSandbox.
  apply (removal_pass "VariableDeclaration" _
           (fun s => match Sinon.isCreateSandbox ([], s) with Ok b => b | _ => false end));
    [reflexivity | assumption |].
  eapply Forall_impl; [exact Hok|]. intros s H Hcheck p. destruct (H Hcheck) as (b & Hb).
  rewrite Hb. exact Hb.
Qed.

(** The theorem at [const sandBox = sinon.createSandbox(); foo();]. *)
Lemma createSandbox_declarations_are_removed_witness :
  Sinon.removeCreateSandbox (Src.file Cases.withSandbox) = Ok (Src.file Examples.noImports).
Proof.
  apply (createSandbox_declarations_are_removed Cases.withSandbox).
  - statement_by_statement.
  - statement_by_statement.
Defined.

(** * Further properties of the should migrations *)

(** ** The import handling run twice *)

Lemma importsAtTop_filter (g : val -> bool) body :
  importsAtTop body -> importsAtTop (List.filter g body).
Proof.
  intros H. induction H as [|s body Hs _ IH]; [constructor|].
  simpl. destruct (g s); [constructor|]; assumption.
Qed.

Lemma importsAtTop_testImport names body :
  importsAtTop body -> importsAtTop (Should.testImport names :: body).
Proof.
  intros H. constructor; [|assumption]. split.
  - unfold onlyAtTop, Should.testImport. rewrite nodes_importDeclaration.
    cbn [List.filter].
    change (check "ImportDeclaration" (j.importDeclaration ?s ?x)) with true. cbv iota.
    rewrite List.filter_app, no_import_among_specifiers. reflexivity.
  - intros _. eexists. reflexivity.
Qed.

Lemma importsAtTop_assertImport body :
  importsAtTop body -> importsAtTop (Should.assertImport :: body).
Proof.
  intros H. constructor; [|assumption]. split; [reflexivity|].
  intros _. eexists. reflexivity.
Qed.

Lemma foldM_total {A S} (f : S -> A -> result S) (l : list A) :
  Forall (fun x => forall s, exists s', f s x = Ok s') l ->
  forall s, exists s', foldM f s l = Ok s'.
Proof.
  intros H. induction H as [|x l Hx _ IH]; intros s; [eexists; reflexivity|].
  cbn [foldM]. destruct (Hx s) as (s1 & ->). apply IH.
Qed.

Lemma usedTestFunctions_total root : exists used, Should.usedTestFunctions root = Ok used.
Proof.
  unfold Should.usedTestFunctions. apply foldM_total.
  apply Forall_forall. intros [p n] Hin used.
  apply list_elem_of_In in Hin. unfold find in Hin. apply filter_In in Hin as [_ Hcheck].
  cbn [snd] in *. destruct n; try discriminate. eexists. reflexivity.
Qed.

Lemma importsFrom_total sources body :
  importsAtTop body -> exists l, importsFrom (Src.file body) sources = Ok l.
Proof. intros H. rewrite (importsFrom_statements _ _ H). eauto. Qed.

Lemma addTargetImports_total body :
  importsAtTop body ->
  exists out, Should.addTargetImports Should.assertImport (Src.file body) = Ok out.
Proof.
  intros H. unfold Should.addTargetImports.
  destruct (importsFrom_total ["node:test"] body H) as (nodeTest & ->).
  destruct (usedTestFunctions_total (Src.file body)) as (used & ->).
  cbn [mbind result_bind].
  destruct (bool_decide (0 < length nodeTest)).
  - cbn [mbind result_bind].
    destruct (importsFrom_total ["node:assert"; "assert"] body H) as (assert & ->).
    cbn [mbind result_bind].
    destruct (bool_decide (0 < length assert)); [eauto|]. rewrite insertAtTop_file. eauto.
  - rewrite insertAtTop_file. cbn [mbind result_bind].
    destruct (importsFrom_total ["node:assert"; "assert"] _
                (importsAtTop_testImport used body H)) as (assert & ->).
    cbn [mbind result_bind].
    destruct (bool_decide (0 < length assert)); [eauto|]. rewrite insertAtTop_file. eauto.
Qed.

Lemma filter_kept (g : val -> bool) body :
  List.filter (fun s => negb (g s)) (List.filter (fun s => negb (g s)) body)
  = List.filter (fun s => negb (g s)) body.
Proof.
  induction body as [|s body IH]; [reflexivity|].
  simpl. destruct (g s) eqn:Hg; simpl; [assumption|]. rewrite Hg. simpl. f_equal. assumption.
Qed.

(** On a program whose import declarations are statements of the program,
    the import handling of the first version succeeds, and run again on its
    own output it changes nothing; the same holds for the second version on a
    file outside the [bitgo] module, where it is the same import handling. *)
Theorem imports_settle_after_one_run (path : string) (body : list val) :
  importsAtTop body ->
  Should.Second.isInBitGoModule path = false ->
  exists out,
    Should.First.imports (Src.file body) = Ok out /\
    Should.First.imports out = Ok out /\
    Should.Second.imports path (Src.file body) = Ok out /\
    Should.Second.imports path out = Ok out.
Proof.
  intros Htop Hpath.
  assert (Hsame : forall root, Should.Second.imports path root = Should.First.imports root).
  { intros root. unfold Should.Second.imports. rewrite Hpath. reflexivity. }
  assert (H : exists out, Should.First.imports (Src.file body) = Ok out /\
                          Should.First.imports out = Ok out).
  2:{ destruct H as (out & H1 & H2). exists out. rewrite !Hsame. auto. }
  unfold Should.First.imports, Should.removeLegacyImports.
  rewrite (imports_removed _ _ Htop). cbn [mbind result_bind].
  set (kept := List.filter (fun s => negb (importsOf ["should"; "mocha"] s)) body).
  assert (Hkept : importsAtTop kept) by (apply importsAtTop_filter; assumption).
  destruct (addTargetImports_total kept Hkept) as (out & Hout).
  exists out. split; [assumption|].
  destruct (addTargetImports_file _ _ Hout) as (names & ->).
  set (inserted := ((if decide (importCount assertSources (Src.file kept) = 0)
                     then [Should.assertImport] else []) ++
                    (if decide (importCount ["node:test"] (Src.file kept) = 0)
                     then [Should.testImport names] else []))%list).
  assert (Hbody : importsAtTop (inserted ++ kept)).
  { subst inserted.
    destruct (decide (importCount assertSources (Src.file kept) = 0));
      destruct (decide (importCount ["node:test"] (Src.file kept) = 0)); cbn [app];
      repeat first [apply importsAtTop_assertImport | apply importsAtTop_testImport];
      assumption. }
  rewrite app_assoc. fold inserted.
  rewrite (imports_removed _ _ Hbody). cbn [mbind result_bind].
  assert (Hfilter : List.filter (fun s => negb (importsOf ["should"; "mocha"] s))
                      (inserted ++ kept) = (inserted ++ kept)%list).
  { rewrite List.filter_app. subst kept. rewrite filter_kept. f_equal.
    subst inserted.
    destruct (decide (importCount assertSources _ = 0));
      destruct (decide (importCount ["node:test"] _ = 0)); reflexivity. }
  rewrite Hfilter.
  destruct (addTargetImports_total _ Hbody) as (out2 & Hout2).
  rewrite Hout2. f_equal.
  destruct (addTargetImports_file _ _ Hout2) as (names2 & ->).
  assert (Hassert : importCount assertSources (Src.file (inserted ++ kept)) <> 0).
  { subst inserted.
    destruct (decide (importCount assertSources (Src.file kept) = 0));
      destruct (decide (importCount ["node:test"] (Src.file kept) = 0)); cbn [app];
      rewrite ?importCount_cons, ?countIn_assertImport, ?countIn_testImport;
      change (includes assertSources (VStr "node:assert")) with true;
      change (includes assertSources (VStr "node:test")) with false; cbv iota; lia. }
  assert (Htest : importCount ["node:test"] (Src.file (inserted ++ kept)) <> 0).
  { subst inserted.
    destruct (decide (importCount assertSources (Src.file kept) = 0));
      destruct (decide (importCount ["node:test"] (Src.file kept) = 0)); cbn [app];
      rewrite ?importCount_cons, ?countIn_assertImport, ?countIn_testImport;
      change (includes ["node:test"] (VStr "node:assert")) with false;
      change (includes ["node:test"] (VStr "node:test")) with true; cbv iota; lia. }
  destruct (decide (importCount assertSources (Src.file (inserted ++ kept)) = 0));
    [contradiction|].
  destruct (decide (importCount ["node:test"] (Src.file (inserted ++ kept)) = 0));
    [contradiction|].
  reflexivity.
Qed.

(** The theorem at [import should from 'should'; foo();]. *)
Lemma imports_settle_after_one_run_witness :
  exists out,
    Should.First.imports (Src.file Cases.withShould) = Ok out /\
    Should.First.imports out = Ok out.
Proof.
  destruct (imports_settle_after_one_run "test/unit/foo.ts" Cases.withShould)
    as (out & H1 & H2 & _).
  - unfold importsAtTop. statement_by_statement.
  - reflexivity.
  - exists out. split; assumption.
Defined.

(** * Further properties of the sinon migration, continued *)

(** ** The restore calls of a hook (lines 454-520) *)

Lemma get_down_statement pre s post r :
  get_down (Src.file (pre ++ s :: post)) (F "program" :: F "body" :: I (length pre) :: r)
  = get_down s r.
Proof.
  cbn. rewrite list_lookup_middle by reflexivity. reflexivity.
Qed.

Lemma update_down_statement pre s post r f :
  update_down (Src.file (pre ++ s :: post)) (F "program" :: F "body" :: I (length pre) :: r) f
  = (s' ← update_down s r f; Some (Src.file (pre ++ s' :: post))).
Proof.
  cbn. rewrite list_lookup_middle by reflexivity. cbn.
  destruct (update_down s r f) as [s'|]; [|reflexivity]. cbn.
  rewrite insert_app_r_alt by lia. rewrite Nat.sub_diag. reflexivity.
Qed.

Lemma replaceWith_hookStatement pre hb post k n :
  k < length hb ->
  replaceWith (withHook pre hb post) (hookStatementPath (length pre) k) n
  = Ok (withHook pre (<[k := n]> hb) post).
Proof.
  intros Hk. unfold replaceWith, withHook, hookStatementPath, hookCallPath.
  cbn [rev app]. rewrite update_down_statement. cbn.
  destruct (lookup_lt_is_Some_2 hb k Hk) as (old & ->). reflexivity.
Qed.

Lemma remove_hookStatement pre hb post k :
  k < length hb ->
  remove (withHook pre hb post) (hookStatementPath (length pre) k)
  = Ok (withHook pre (delete k hb) post).
Proof.
  intros Hk. unfold remove, withHook, hookStatementPath, hookCallPath.
  cbn [rev app]. rewrite update_down_statement. cbn.
  destruct (decide (k < length hb)); [reflexivity|contradiction].
Qed.

Lemma filter_filter {A} (g1 g2 : A -> bool) l :
  List.filter g2 (List.filter g1 l) = List.filter (fun x => g1 x && g2 x) l.
Proof.
  induction l as [|x l IH]; [reflexivity|]. simpl.
  destruct (g1 x); simpl; [destruct (g2 x)|]; rewrite ?IH; reflexivity.
Qed.

Lemma eachFrom_app {A B} (f : nat -> A -> list B) i l1 l2 :
  eachFrom f i (l1 ++ l2)%list = (eachFrom f i l1 ++ eachFrom f (i + length l1) l2)%list.
Proof.
  revert i. induction l1 as [|x l1 IH]; intros i.
  - simpl. rewrite Nat.add_0_r. reflexivity.
  - simpl. rewrite IH, <- app_assoc. do 3 f_equal. lia.
Qed.

Lemma eachFrom_fmap {A B C} (f : nat -> B -> list C) (g : A -> B) i xs :
  eachFrom f i (g <$> xs) = eachFrom (fun k x => f k (g x)) i xs.
Proof.
  revert i. induction xs as [|x xs IH]; intros i; [reflexivity|]. simpl. rewrite IH. reflexivity.
Qed.

Lemma eachFrom_nil {A B} (f : nat -> A -> list B) i xs :
  Forall (fun x => forall k, f k x = []) xs -> eachFrom f i xs = [].
Proof.
  intros H. revert i. induction H as [|x xs Hx _ IH]; intros i; [reflexivity|].
  simpl. rewrite Hx, IH. reflexivity.
Qed.

Lemma walk_noRestore p s : noRestore s -> List.filter isRestoreCall (walk p s) = [].
Proof.
  unfold noRestore, nodes. intros H.
  rewrite (walk_snd [] p) in H.
  rewrite <- (filter_snd (fun n => check "CallExpression" n && matchNode n Sinon.restoreCalls)) in H.
  eapply fmap_nil_inv. exact H.
Qed.

Lemma walk_hook p hb :
  walk p (Src.hook "afterEach" hb)
  = ([ (p, Src.hook "afterEach" hb);
       (F "expression" :: p, j.callExpression (j.ident "afterEach") [Src.arrow hb]);
       (F "callee" :: F "expression" :: p, j.ident "afterEach");
       (I 0 :: F "arguments" :: F "expression" :: p, Src.arrow hb);
       (F "body" :: I 0 :: F "arguments" :: F "expression" :: p, j.blockStatement hb) ]
     ++ eachFrom (fun k s =>
                    walk (I k :: F "body" :: F "body" :: I 0 :: F "arguments"
                            :: F "expression" :: p) s)
          0 hb)%list.
Proof. simpl. rewrite !app_nil_r. reflexivity. Qed.

(** What [find] delivers on a program with one hook: the restore calls of
    its callback, in their order. *)
Lemma find_restores pre items post :
  Forall noRestore pre ->
  Forall noRestore post ->
  Forall (fun i => match i with Restore _ => True | Other s => noRestore s end) items ->
  find_matching (withHook pre (written <$> items) post) "CallExpression" Sinon.restoreCalls
  = found (length pre) 0 items.
Proof.
  intros Hpre Hpost Hitems. unfold find_matching, find, withHook.
  rewrite filter_filter. fold isRestoreCall. rewrite walk_file.
  cbn [List.filter]. change (isRestoreCall ([F "program"], Src.program _)) with false. cbv iota.
  rewrite filter_eachFrom, eachFrom_app. cbn [eachFrom]. rewrite Nat.add_0_l.
  rewrite (eachFrom_nil _ 0 pre).
  2:{ eapply Forall_impl; [exact Hpre|]. intros s Hs k. apply walk_noRestore. assumption. }
  rewrite (eachFrom_nil _ _ post).
  2:{ eapply Forall_impl; [exact Hpost|]. intros s Hs k. apply walk_noRestore. assumption. }
  rewrite app_nil_r. cbn [app].
  rewrite walk_hook, List.filter_app.
  change (List.filter isRestoreCall [_; _; _; _; _]) with (@nil (path * val)). cbn [app].
  rewrite filter_eachFrom, eachFrom_fmap. unfold found.
  apply eachFrom_ext. eapply Forall_impl; [exact Hitems|].
  intros [o|s] Hi k.
  - reflexivity.
  - apply walk_noRestore. assumption.
Qed.

Lemma value_at_below_hookCall pre hb post q :
  value_at (withHook pre hb post) (q ++ hookCallPath (length pre))%list
  = get_down (j.callExpression (j.ident "afterEach") [Src.arrow hb]) (rev q).
Proof.
  unfold value_at, withHook, hookCallPath. rewrite rev_app_distr. cbn [rev app].
  rewrite get_down_statement. reflexivity.
Qed.

Lemma node_at_below_hookCall pre hb post q v :
  get_down (j.callExpression (j.ident "afterEach") [Src.arrow hb]) (rev q) = Some v ->
  node_at (withHook pre hb post) (q ++ hookCallPath (length pre))%list = Ok v.
Proof. intros H. unfold node_at. rewrite value_at_below_hookCall, H. reflexivity. Qed.

Lemma someM_isMockReset l :
  Forall (fun s => exists b, Sinon.isMockReset s = Ok b) l ->
  someM Sinon.isMockReset l = Ok (resets l).
Proof.
  intros H. induction H as [|s l (b & Hb) _ IH]; [reflexivity|].
  cbn [someM resets existsb]. rewrite Hb. cbn [mbind result_bind].
  destruct b; [reflexivity|]. exact IH.
Qed.

(** From a restore call of the callback upwards, the loop of lines 472-482
    stops at the call of the hook. *)
Lemma afterEachLoop_restore pre hb post d o :
  hb !! d = Some (written (Restore o)) ->
  Sinon.afterEachLoop (withHook pre hb post)
    (ancestors (F "expression" :: hookStatementPath (length pre) d))
  = Ok (Some (hookCallPath (length pre))).
Proof.
  intros Hd. unfold hookStatementPath, hookCallPath. cbn [ancestors app].
  cbn [Sinon.afterEachLoop].
  assert (Hcall : get_down (j.callExpression (j.ident "afterEach") [Src.arrow hb])
                    (rev [F "expression"; I d; F "body"; F "body"; I 0; F "arguments"])
                  = Some (restoreCall o)) by (cbn; rewrite Hd; reflexivity).
  assert (Hstmt : get_down (j.callExpression (j.ident "afterEach") [Src.arrow hb])
                    (rev [I d; F "body"; F "body"; I 0; F "arguments"])
                  = Some (written (Restore o))) by (cbn; rewrite Hd; reflexivity).
  pose proof (node_at_below_hookCall pre hb post _ _ Hcall) as H1.
  pose proof (node_at_below_hookCall pre hb post _ _ Hstmt) as H2.
  pose proof (node_at_below_hookCall pre hb post [F "body"; I 0; F "arguments"] _ eq_refl) as H3.
  pose proof (node_at_below_hookCall pre hb post [I 0; F "arguments"] _ eq_refl) as H4.
  pose proof (node_at_below_hookCall pre hb post [] _ eq_refl) as H5.
  cbn [app] in H1, H2, H3, H4, H5. unfold hookCallPath in H1, H2, H3, H4, H5.
  rewrite H1. cbn [mbind result_bind].
  change (prop (restoreCall o) "type") with (Ok (VStr "CallExpression")). cbn [mbind result_bind].
  change (is_str (VStr "CallExpression") "CallExpression") with true. cbv iota.
  change (prop (restoreCall o) "callee") with (Ok (Src.dot (j.ident o) "restore")).
  cbn [mbind result_bind].
  change (prop (Src.dot ?a ?b) "type") with (Ok (VStr "MemberExpression")).
  cbn [mbind result_bind].
  change (is_str (VStr "MemberExpression") "Identifier") with false. cbv iota.
  cbn [mbind result_bind].
  rewrite H2. cbn [mbind result_bind written].
  change (prop (j.expressionStatement ?e) "type") with (Ok (VStr "ExpressionStatement")).
  cbn [mbind result_bind].
  change (is_str (VStr "ExpressionStatement") "CallExpression") with false. cbv iota.
  cbn [mbind result_bind].
  rewrite H3. cbn [mbind result_bind].
  change (prop (j.blockStatement hb) "type") with (Ok (VStr "BlockStatement")).
  cbn [mbind result_bind].
  change (is_str (VStr "BlockStatement") "CallExpression") with false. cbv iota.
  cbn [mbind result_bind].
  rewrite H4. cbn [mbind result_bind].
  change (prop (Src.arrow hb) "type") with (Ok (VStr "ArrowFunctionExpression")).
  cbn [mbind result_bind].
  change (is_str (VStr "ArrowFunctionExpression") "CallExpression") with false. cbv iota.
  cbn [mbind result_bind].
  rewrite H5. reflexivity.
Qed.

(** The body of the [forEach] for a restore call that is statement [d] of
    the callback. *)
Lemma rewriteRestore_hook pre hb post es p0 n d o :
  locate (Edited (withHook pre hb post) es) 0 p0
  = Ok (F "expression" :: hookStatementPath (length pre) d) ->
  hb !! d = Some (written (Restore o)) ->
  Forall (fun s => exists b, Sinon.isMockReset s = Ok b) hb ->
  Sinon.rewriteRestore (Edited (withHook pre hb post) es) (p0, n)
  = Ok (if resets hb
        then Edited (withHook pre (delete d hb) post)
               (es ++ [Removed (hookStatementPath (length pre) d)])
        else Edited (withHook pre (<[d := Sinon.mockReset]> hb) post)
               (es ++ [Replaced (hookStatementPath (length pre) d)])).
Proof.
  intros Hloc Hd Hok. unfold Sinon.rewriteRestore. cbn [fst]. rewrite Hloc.
  cbn [mbind result_bind current].
  rewrite (afterEachLoop_restore _ _ _ _ _ Hd). cbn [mbind result_bind].
  change (parent (F "expression" :: ?p)) with (Some p). cbv iota.
  pose proof (node_at_below_hookCall pre hb post [] _ eq_refl) as Hcall. cbn [app] in Hcall.
  rewrite Hcall. cbn [mbind result_bind].
  change (prop (j.callExpression ?c ?a) "arguments") with (Ok (VArr a)). cbn [mbind result_bind].
  change (idx (VArr [Src.arrow hb]) 0) with (Ok (Src.arrow hb)). cbn [mbind result_bind].
  change (props (Src.arrow hb) ["body"; "body"]) with (Ok (VArr hb)). cbn [mbind result_bind].
  rewrite (someM_isMockReset _ Hok). cbn [mbind result_bind].
  assert (Hlt : d < length hb) by (apply lookup_lt_is_Some; eauto).
  destruct (resets hb).
  - unfold remove_in. cbn [current edits]. rewrite (remove_hookStatement _ _ _ _ Hlt). reflexivity.
  - unfold replace_in. cbn [current edits]. rewrite (replaceWith_hookStatement _ _ _ _ _ Hlt).
    reflexivity.
Qed.

Lemma after_remove_hookStatement h d i :
  after_remove (hookStatementPath h d) (Some (F "expression" :: hookStatementPath h i))
  = if decide (i < d) then Some (F "expression" :: hookStatementPath h i)
    else if decide (i = d) then None
    else Some (F "expression" :: hookStatementPath h (pred i)).
Proof.
  unfold after_remove, hookStatementPath, hookCallPath. cbn [mbind option_bind rev app].
  rewrite !shift_down_deeper. cbn [key_eqb]. rewrite !String.eqb_refl, !Nat.eqb_refl.
  cbn [shift_down].
  destruct (decide (i < d)); [reflexivity|]. destruct (decide (i = d)); reflexivity.
Qed.

Lemma after_replace_hookStatement h d i :
  i <> d ->
  after_replace (hookStatementPath h d) (Some (F "expression" :: hookStatementPath h i))
  = Some (F "expression" :: hookStatementPath h i).
Proof.
  intros Hne. unfold after_replace, hookStatementPath, hookCallPath.
  cbn [mbind option_bind rev app below_down key_eqb].
  rewrite !String.eqb_refl, !Nat.eqb_refl. cbn [andb].
  destruct (Nat.eqb_spec d i) as [->|_]; [contradiction|]. reflexivity.
Qed.

Lemma isMockReset_written i : fits i -> exists b, Sinon.isMockReset (written i) = Ok b.
Proof.
  destruct i as [o|s]; [|intros [_ H]; exact H].
  intros [->| ->]; eexists; reflexivity.
Qed.

Lemma resets_app l1 l2 : resets (l1 ++ l2) = resets l1 || resets l2.
Proof. apply existsb_app. Qed.

Lemma resets_restore o : fits (Restore o) -> resets [written (Restore o)] = false.
Proof. intros [->| ->]; reflexivity. Qed.

(** The restore calls of the callback rewritten one after the other. *)
Lemma rewrite_restores pre post rest :
  Forall fits rest ->
  forall done es k,
    (forall i, live es (F "expression" :: hookStatementPath (length pre) (k + i))
               = Some (F "expression" :: hookStatementPath (length pre) (length done + i))) ->
    Forall (fun s => exists b, Sinon.isMockReset s = Ok b) done ->
    exists es',
      foldM Sinon.rewriteRestore
        (Edited (withHook pre (done ++ (written <$> rest)) post) es)
        (found (length pre) k rest)
      = Ok (Edited (withHook pre (done ++ settled (resets (done ++ (written <$> rest))) rest) post)
              es').
Proof.
  intros Hfits. induction Hfits as [|item rest Hitem Hrest IH]; intros done es k Hlive Hdone.
  - exists es. reflexivity.
  - assert (Hall : Forall (fun s => exists b, Sinon.isMockReset s = Ok b)
                     (done ++ (written <$> item :: rest))).
    { apply Forall_app. split; [exact Hdone|]. rewrite fmap_cons. constructor.
      - apply isMockReset_written. exact Hitem.
      - apply Forall_fmap. eapply Forall_impl; [exact Hrest|].
        intros i Hi. apply isMockReset_written. exact Hi. }
    destruct item as [o|s].
    + cbn [found eachFrom app foldM]. fold (found (length pre)).
      rewrite fmap_cons.
      rewrite (rewriteRestore_hook pre _ post es _ _ (length done) o).
      * cbn [mbind result_bind settled].
        assert (Hflag : resets (done ++ written (Restore o) :: (written <$> rest))
                        = resets (done ++ (written <$> rest))).
        { rewrite !resets_app. f_equal.
          change (written (Restore o) :: ?l) with ([written (Restore o)] ++ l)%list.
          rewrite resets_app, (resets_restore o Hitem). reflexivity. }
        destruct (resets (done ++ written (Restore o) :: (written <$> rest))) eqn:Hreset.
        -- rewrite delete_middle.
           destruct (IH done (es ++ [Removed (hookStatementPath (length pre) (length done))])%list
                        (S k)) as (es' & Hes').
           { intros i. rewrite live_snoc. replace (S k + i) with (k + S i) by lia.
             rewrite Hlive, after_remove_hookStatement.
             destruct (decide (length done + S i < length done)); [lia|].
             destruct (decide (length done + S i = length done)); [lia|].
             replace (pred (length done + S i)) with (length done + i) by lia. reflexivity. }
           { exact Hdone. }
           exists es'. rewrite Hes', <- Hflag. reflexivity.
        -- rewrite insert_app_r_alt by lia. rewrite Nat.sub_diag. cbn [insert list_insert].
           destruct (IH (done ++ [Sinon.mockReset])%list
                        (es ++ [Replaced (hookStatementPath (length pre) (length done))])%list
                        (S k)) as (es' & Hes').
           { intros i. rewrite live_snoc. replace (S k + i) with (k + S i) by lia.
             rewrite Hlive, after_replace_hookStatement by lia.
             rewrite length_app. cbn [length].
             replace (length done + 1 + i) with (length done + S i) by lia. reflexivity. }
           { apply Forall_app. split; [exact Hdone|]. constructor; [|constructor].
             eexists. reflexivity. }
           exists es'. rewrite <- !app_assoc in Hes'. cbn [app] in Hes'. rewrite Hes'.
           do 3 f_equal.
           rewrite resets_app. change (resets (Sinon.mockReset :: ?l)) with true.
           rewrite orb_true_r. reflexivity.
      * specialize (Hlive 0). rewrite !Nat.add_0_r in Hlive.
        unfold locate. cbn [edits]. rewrite drop_0, Hlive. reflexivity.
      * apply list_lookup_middle. reflexivity.
      * exact Hall.
    + cbn [found eachFrom app settled]. fold (found (length pre)).
      rewrite fmap_cons. cbn [written].
      destruct (IH (done ++ [s])%list es (S k)) as (es' & Hes').
      { intros i. replace (S k + i) with (k + S i) by lia. rewrite Hlive.
        rewrite length_app. cbn [length].
        replace (length done + 1 + i) with (length done + S i) by lia. reflexivity. }
      { apply Forall_app. split; [exact Hdone|]. constructor; [|constructor].
        destruct Hitem as [_ H]. exact H. }
      exists es'. rewrite <- !app_assoc in Hes'. cbn [app] in Hes'. exact Hes'.
Qed.

Lemma filterM_found h k items :
  Forall fits items ->
  filterM Sinon.isSandBoxRestore (found h k items) = Ok (found h k items).
Proof.
  intros H. revert k. induction H as [|item items Hitem _ IH]; intros k; [reflexivity|].
  cbn [found eachFrom]. fold (found h). destruct item as [o|s]; cbn [app]; [|apply IH].
  cbn [filterM]. rewrite IH.
  destruct Hitem as [->| ->]; reflexivity.
Qed.

(** In a program with one [afterEach] hook whose callback is a block and
    whose restore calls ([sandBox.restore()] or [sinon.restore()]) are
    statements of that block, the restore pass rewrites the hook as follows:
    when the block holds a [mock.reset()] statement every restore call is
    removed; otherwise the first restore call becomes [mock.reset()] and the
    others are removed.  The other statements stay where they are, and so
    does the rest of the program. *)
Theorem restores_of_a_hook_leave_one_reset (pre post : list val) (items : list hookStatement) :
  Forall noRestore pre ->
  Forall noRestore post ->
  Forall fits items ->
  Sinon.restorePass (withHook pre (written <$> items) post)
  = Ok (withHook pre (settled (resets (written <$> items)) items) post).
Proof.
  intros Hpre Hpost Hitems. unfold Sinon.restorePass.
  rewrite (find_restores pre items post Hpre Hpost).
  2:{ eapply Forall_impl; [exact Hitems|]. intros [o|s]; [auto|]. intros [H _]. exact H. }
  rewrite (filterM_found _ _ _ Hitems). cbn [mbind result_bind].
  destruct (rewrite_restores pre post items Hitems [] [] 0) as (es' & Hes').
  { intros i. reflexivity. }
  { constructor. }
  cbn [app] in Hes'. rewrite Hes'. reflexivity.
Qed.

(** The theorem at
    [foo(); afterEach(() => { sandBox.restore(); foo(); sinon.restore(); });]. *)
Lemma restores_of_a_hook_leave_one_reset_witness :
  Sinon.restorePass
    (Src.file [ Cases.foo;
                Src.hook "afterEach"
                  [ j.expressionStatement (restoreCall "sandBox"); Cases.foo;
                    j.expressionStatement (restoreCall "sinon") ] ])
  = Ok (Src.file [ Cases.foo; Src.hook "afterEach" [ Sinon.mockReset; Cases.foo ] ]).
Proof.
  apply (restores_of_a_hook_leave_one_reset [Cases.foo] []
           [Restore "sandBox"; Other Cases.foo; Restore "sinon"]).
  - repeat constructor.
  - constructor.
  - repeat apply List.Forall_cons; try apply List.Forall_nil.
    + left. reflexivity.
    + split; [reflexivity|]. eexists. reflexivity.
    + right. reflexivity.
Defined.

(** ** Collecting the calls of a chain (lines 168-201) *)

Lemma get_down_app v a b :
  get_down v (a ++ b) = get_down v a ≫= fun x => get_down x b.
Proof.
  revert v. induction a as [|k a IH]; intros v; [reflexivity|].
  destruct k as [name|i]; cbn [app get_down].
  - destruct v; try reflexivity. destruct (field name fs) as [x|]; [apply IH|reflexivity].
  - destruct v; try reflexivity. destruct (xs !! i) as [x|]; [apply IH|reflexivity].
Qed.

Lemma node_at_callee t p c m a :
  node_at t p = Ok (Src.call c m a) -> node_at t (F "callee" :: p) = Ok (Src.dot c m).
Proof.
  unfold node_at, value_at. cbn [rev]. rewrite get_down_app.
  destruct (get_down t (rev p)) as [v|]; [|discriminate]. intros H. injection H as ->. reflexivity.
Qed.

Lemma node_at_object t p c m a :
  node_at t p = Ok (Src.call c m a) -> node_at t (F "object" :: F "callee" :: p) = Ok c.
Proof.
  unfold node_at, value_at. cbn [rev]. rewrite !get_down_app.
  destruct (get_down t (rev p)) as [v|]; [|discriminate]. intros H. injection H as ->. reflexivity.
Qed.

Lemma node_at_inward t q c outer :
  node_at t q = Ok (chained c outer) -> node_at t (inward (length outer) q) = Ok c.
Proof.
  revert c. induction outer as [|[m a] outer IH]; intros c H; [exact H|].
  cbn [length inward]. eapply node_at_object. apply IH. exact H.
Qed.

Lemma ancestors_head p : exists above, ancestors p = p :: above.
Proof. destruct p as [|[]]; eexists; reflexivity. Qed.

(** One turn of the loop: from a call that is the object of a further call
    to that call. *)
Lemma chainLoop_step t p up1 up2 rest c m a m' a' mc :
  node_at t p = Ok (Src.call c m a) ->
  node_at t up1 = Ok (Src.dot (Src.call c m a) m') ->
  node_at t up2 = Ok (Src.call (Src.call c m a) m' a') ->
  Sinon.chainLoop t (p :: up1 :: up2 :: rest) mc
  = Sinon.chainLoop t (up2 :: rest) (mc ++ [Src.call c m a]).
Proof.
  intros Hp H1 H2. cbn [Sinon.chainLoop]. rewrite Hp, H1, H2. reflexivity.
Qed.

(** The last turn: the parent of the call is no member expression. *)
Lemma chainLoop_stop t q c m a mc :
  attached t q -> outermost t q ->
  node_at t q = Ok (Src.call c m a) ->
  Sinon.chainLoop t (ancestors q) mc = Ok (mc ++ [Src.call c m a])%list.
Proof.
  unfold attached, outermost. intros Hattached Houtermost Hq.
  destruct (ancestors_head q) as (above & Hanc). rewrite Hanc in *.
  cbn [Sinon.chainLoop]. rewrite Hq. cbn [mbind result_bind].
  change (prop (Src.call c m a) "type") with (Ok (VStr "CallExpression")).
  cbn [mbind result_bind].
  change (is_str (VStr "CallExpression") "CallExpression") with true. cbv iota.
  destruct above as [|up [|g above]]; [reflexivity|reflexivity|].
  apply Forall_cons in Hattached as [_ Hattached].
  apply Forall_cons in Hattached as [(s & ty & Hs & Hty) Hattached].
  apply Forall_cons in Hattached as [(gn & gty & Hgn & Hgty) _].
  rewrite Hs. cbn [mbind result_bind]. rewrite Hty. cbn [mbind result_bind].
  rewrite Hgn. cbn [mbind result_bind]. rewrite Hgty. cbn [mbind result_bind].
  cbn [tail] in Houtermost. rewrite (Houtermost s ty Hs Hty). reflexivity.
Qed.

Lemma chainLoop_outward t q outer :
  attached t q -> outermost t q ->
  forall c m a mc,
    node_at t q = Ok (chained (Src.call c m a) outer) ->
    Sinon.chainLoop t (ancestors (inward (length outer) q)) mc
    = Ok (mc ++ Src.call c m a :: callsOf (Src.call c m a) outer)%list.
Proof.
  intros Hattached Houtermost. induction outer as [|[m' a'] outer IH]; intros c m a mc Hq.
  - apply chainLoop_stop; assumption.
  - cbn [length inward callsOf]. cbn [chained foldl fst snd] in Hq.
    fold (chained (Src.call (Src.call c m a) m' a') outer) in Hq.
    pose proof (node_at_inward _ _ _ _ Hq) as Hnext.
    pose proof (node_at_callee _ _ _ _ _ Hnext) as Hmember.
    pose proof (node_at_object _ _ _ _ _ Hnext) as Hcall.
    cbn [ancestors].
    destruct (ancestors_head (inward (length outer) q)) as (above & Hanc).
    rewrite Hanc. rewrite (chainLoop_step _ _ _ _ _ _ _ _ _ _ _ Hcall Hmember Hnext).
    rewrite <- Hanc. rewrite (IH (Src.call c m a) m' a' _ Hq).
    rewrite <- app_assoc. reflexivity.
Qed.

(** Started at the innermost call of [c.m(a).m1(a1). ... .mk(ak)], whose
    outermost call has no member expression for parent, [processCallChain]
    adds the calls of the whole chain to the calls collected so far, the
    innermost first, when the chain stands in the test case of the stub. *)
Theorem chained_calls_are_collected_innermost_first
    (t : val) (name : string) (q : path) (c : val) (m : string) (a : list val)
    (outer : list (string * list val)) (mc : list val) :
  node_at t q = Ok (chained (Src.call c m a) outer) ->
  attached t q ->
  outermost t q ->
  Sinon.testName t (Some (inward (length outer) q)) = Ok (VStr name) ->
  Sinon.processCallChain t (VStr name) (Some (inward (length outer) q)) mc
  = Ok (mc ++ Src.call c m a :: callsOf (Src.call c m a) outer)%list.
Proof.
  intros Hq Hattached Houtermost Hname. unfold Sinon.processCallChain.
  rewrite Hname. cbn [mbind result_bind strict_eq]. rewrite String.eqb_refl.
  apply chainLoop_outward; assumption.
Qed.

(** Settles [attached] for a path written out. *)
Ltac ancestor_by_ancestor :=
  repeat first [ apply List.Forall_nil
               | apply List.Forall_cons
               | (eexists; eexists; split; reflexivity) ].

(** The theorem at [stub.withArgs(5).returns(1);] in [Cases.configured]. *)
Lemma chained_calls_are_collected_innermost_first_witness :
  Sinon.processCallChain Cases.configured (VStr "t")
    (Some (F "object" :: F "callee" :: Cases.returnsPath)) []
  = Ok [Cases.withArgs5; Cases.returns1].
Proof.
  apply (chained_calls_are_collected_innermost_first Cases.configured "t" Cases.returnsPath
           (j.ident "stub") "withArgs" [Src.numericLiteral 5]
           [("returns", [Src.numericLiteral 1])] []).
  - reflexivity.
  - unfold attached. ancestor_by_ancestor.
  - intros s ty Hs Hty. injection Hs as <-. injection Hty as <-. reflexivity.
  - reflexivity.
Defined.

(** A statement [v.withArgs(A).returns(r)] of the test case of the stub
    contributes the chain with the matchers [A] and the result [r]. *)
Theorem configuration_statement_gives_its_chain
    (t : val) (name : string) (q : path) (v : val) (matchers more : list val) (r : val) :
  node_at t q = Ok (Src.call (Src.call v "withArgs" matchers) "returns" (r :: more)) ->
  attached t q ->
  outermost t q ->
  Sinon.testName t (Some (F "object" :: F "callee" :: q)) = Ok (VStr name) ->
  exists methodCalls groups,
    Sinon.processCallChain t (VStr name) (Some (F "object" :: F "callee" :: q)) []
    = Ok methodCalls /\
    Sinon.chainGroups methodCalls = Ok groups /\
    Sinon.chainsOf groups
    = Ok [{| Sinon.args := Some matchers; Sinon.returnValue := Some r |}].
Proof.
  intros Hq Hattached Houtermost Hname.
  exists [Src.call v "withArgs" matchers;
          Src.call (Src.call v "withArgs" matchers) "returns" (r :: more)].
  eexists. split; [|split; reflexivity].
  unfold Sinon.processCallChain. rewrite Hname.
  cbn [mbind result_bind strict_eq]. rewrite String.eqb_refl.
  apply (chainLoop_outward t q [("returns", r :: more)] Hattached Houtermost
           v "withArgs" matchers [] Hq).
Qed.

(** The theorem at [stub.withArgs(5).returns(1);] in [Cases.configured]. *)
Lemma configuration_statement_gives_its_chain_witness :
  exists methodCalls groups,
    Sinon.processCallChain Cases.configured (VStr "t")
      (Some (F "object" :: F "callee" :: Cases.returnsPath)) []
    = Ok methodCalls /\
    Sinon.chainGroups methodCalls = Ok groups /\
    Sinon.chainsOf groups = Ok [Cases.only5].
Proof.
  apply (configuration_statement_gives_its_chain Cases.configured "t" Cases.returnsPath
           (j.ident "stub") [Src.numericLiteral 5] [] (Src.numericLiteral 1)).
  - reflexivity.
  - unfold attached. ancestor_by_ancestor.
  - intros s ty Hs Hty. injection Hs as <-. injection Hty as <-. reflexivity.
  - reflexivity.
Defined.

(** ** The [node:test] import that exists already (lines 43-57) *)

Lemma someM_hasMocks (names : list string) :
  someM (fun spec =>
           if check "ImportSpecifier" spec
           then v ← props spec ["imported"; "name"]; Ok (is_str v "mocks")
           else Ok false)
        (map (fun name => j.importSpecifier (j.ident name) (j.ident name)) names)
  = Ok (bool_decide ("mocks" ∈ names)).
Proof.
  induction names as [|name names IH]; [reflexivity|].
  cbn [map someM].
  change (check "ImportSpecifier" (j.importSpecifier ?a ?b)) with true. cbv iota.
  change (props (j.importSpecifier (j.ident name) ?b) ["imported"; "name"]) with (Ok (VStr name)).
  cbn [mbind result_bind].
  change (is_str (VStr name) "mocks") with (String.eqb name "mocks").
  destruct (String.eqb_spec name "mocks") as [->|Hne].
  - rewrite bool_decide_eq_true_2; [reflexivity|]. left.
  - rewrite IH. f_equal. apply bool_decide_ext. rewrite elem_of_cons.
    split; [intros H; right; exact H | intros [H|H]; [congruence|exact H]].
Qed.

(** On an import declaration that is a statement of the program and imports
    the names [names], the callback of lines 45-56 adds the name [mock]
    unless [mocks] is among [names]: a [mock] that is imported already is
    imported a second time, and beside [mocks] no [mock] is added. *)
Theorem mock_is_pushed_unless_mocks_is_imported
    (pre post : list val) (names : list string) (source : val) :
  Sinon.addMockSpecifier (Src.file (pre ++ namedImport names source :: post))
    (statementPath (length pre), namedImport names source)
  = Ok (Src.file
          (pre ++ namedImport (if bool_decide ("mocks" ∈ names) then names
                               else (names ++ ["mock"])%list) source :: post)).
Proof.
  unfold Sinon.addMockSpecifier. cbn [fst snd].
  assert (Hnode : node_at (Src.file (pre ++ namedImport names source :: post))
                    (statementPath (length pre)) = Ok (namedImport names source)).
  { unfold node_at, value_at, statementPath. cbn [rev app].
    rewrite get_down_statement. reflexivity. }
  rewrite Hnode. cbn [mbind result_bind].
  change (prop (namedImport names source) "specifiers")
    with (Ok (VArr (map (fun name => j.importSpecifier (j.ident name) (j.ident name)) names))).
  cbn [mbind result_bind]. rewrite someM_hasMocks. cbn [mbind result_bind].
  destruct (bool_decide ("mocks" ∈ names)); [reflexivity|].
  unfold replaceWith, statementPath. cbn [rev app].
  rewrite update_down_statement. unfold namedImport. rewrite map_app. reflexivity.
Qed.

(** ** The method name in the two passes (lines 99-110 and 284-291) *)

(** The two passes read the same method name off a string literal and off an
    identifier.  Off a [Literal] node, and off a member expression, the first
    pass reads the name and the second pass reads [undefined]. *)
Theorem passes_disagree_on_the_method_name (m : string) (o : val) :
  (Sinon.methodName (j.stringLiteral m) = Ok (VStr m) /\
   Sinon.methodName' (j.stringLiteral m) = Ok (VStr m)) /\
  (Sinon.methodName (j.ident m) = Ok (VStr m) /\
   Sinon.methodName' (j.ident m) = Ok (VStr m)) /\
  (Sinon.methodName (j.lit (VStr m)) = Ok (VStr m) /\
   Sinon.methodName' (j.lit (VStr m)) = Ok VUndef) /\
  (Sinon.methodName (Src.dot o m) = Ok (VStr m) /\
   Sinon.methodName' (Src.dot o m) = Ok VUndef).
Proof. repeat split; reflexivity. Qed.

(** * Further properties of the should migrations, continued *)

(** ** The names imported from [node:test] (lines 27-37 and 597-607) *)

Lemma existsb_eqb (s : string) (l : list string) :
  existsb (String.eqb s) l = true <-> s ∈ l.
Proof.
  rewrite existsb_exists. split.
  - intros (x & Hin & Heq). apply String.eqb_eq in Heq. subst x.
    apply list_elem_of_In. exact Hin.
  - intros Hin. exists s. split; [apply list_elem_of_In; exact Hin|apply String.eqb_refl].
Qed.

Lemma addName_spec used name :
  NoDup used ->
  NoDup (Should.addName used name) /\
  forall s, s ∈ Should.addName used name <-> s ∈ used \/ (s ∈ Should.hooks /\ name = VStr s).
Proof.
  intros Hnd. unfold Should.addName.
  destruct name as [| | | |n| |]; try (split; [exact Hnd|]; intros s; split;
    [intros H; left; exact H | intros [H|[_ H]]; [exact H|discriminate H]]).
  destruct (existsb (String.eqb n) Should.hooks) eqn:Hhook; cbn [andb].
  - destruct (existsb (String.eqb n) used) eqn:Hused; cbn [negb].
    + apply existsb_eqb in Hused. split; [exact Hnd|]. intros s. split.
      * intros H. left. exact H.
      * intros [H|[_ H]]; [exact H|]. injection H as ->. exact Hused.
    + split.
      * apply NoDup_app. split; [exact Hnd|]. split; [|apply NoDup_singleton].
        intros x Hx Hx'. apply list_elem_of_singleton in Hx'. subst x.
        apply existsb_eqb in Hx. congruence.
      * intros s. rewrite elem_of_app, list_elem_of_singleton. split.
        -- intros [H|H]; [left; exact H|]. subst s. right. split; [|reflexivity].
           apply existsb_eqb. exact Hhook.
        -- intros [H|[_ H]]; [left; exact H|]. injection H as ->. right. reflexivity.
  - split; [exact Hnd|]. intros s. split.
    + intros H. left. exact H.
    + intros [H|[Hs H]]; [exact H|]. injection H as ->.
      apply existsb_eqb in Hs. congruence.
Qed.

Lemma usedTestFunctions_fold (l : list (path * val)) :
  Forall (fun pn : path * val => check "Identifier" pn.2 = true) l ->
  forall used0, NoDup used0 ->
  exists used,
    foldM (fun used (pn : path * val) => name ← prop pn.2 "name"; Ok (Should.addName used name))
          used0 l = Ok used /\
    NoDup used /\
    forall s, s ∈ used <->
              s ∈ used0 \/ (s ∈ Should.hooks /\
                            exists pn, pn ∈ l /\ prop pn.2 "name" = Ok (VStr s)).
Proof.
  intros Hall. induction Hall as [|[p n] l Hn _ IH]; intros used0 Hnd.
  - exists used0. split; [reflexivity|]. split; [exact Hnd|]. intros s. split.
    + intros H. left. exact H.
    + intros [H|(_ & pn & Hpn & _)]; [exact H|]. apply elem_of_nil in Hpn. destruct Hpn.
  - cbn [snd] in Hn. destruct n as [| | | | | |fs]; try discriminate.
    cbn [foldM snd prop mbind result_bind].
    destruct (addName_spec used0 (default VUndef (field "name" fs)) Hnd) as (Hnd1 & Hin1).
    destruct (IH _ Hnd1) as (used & Hused & Hnd2 & Hin2).
    exists used. split; [exact Hused|]. split; [exact Hnd2|].
    intros s. rewrite Hin2, Hin1. split.
    + intros [[H|[Hs Hname]]|(Hs & pn & Hpn & Hname)].
      * left. exact H.
      * right. split; [exact Hs|]. exists (p, VObj fs). split; [left|].
        cbn [snd prop]. rewrite Hname. reflexivity.
      * right. split; [exact Hs|]. exists pn. split; [right; exact Hpn|exact Hname].
    + intros [H|(Hs & pn & Hpn & Hname)].
      * left. left. exact H.
      * apply elem_of_cons in Hpn as [Heq|Hpn].
        -- subst pn. left. right. split; [exact Hs|]. cbn [snd prop] in Hname.
           injection Hname as ->. reflexivity.
        -- right. split; [exact Hs|]. exists pn. split; assumption.
Qed.

(** The detection of the test functions always succeeds.  The names it
    yields are without repetition: [describe] and [it] in every case, and a
    hook name ([before], [after], [beforeEach], [afterEach]) exactly when
    some identifier of the tree bears it, whatever that identifier stands
    for. *)
Theorem names_of_the_test_import (root : val) :
  exists used,
    Should.usedTestFunctions root = Ok used /\
    NoDup used /\
    forall s, s ∈ used <->
              s = "describe" \/ s = "it" \/
              (s ∈ Should.hooks /\
               exists pn, pn ∈ find root "Identifier" /\ prop pn.2 "name" = Ok (VStr s)).
Proof.
  destruct (usedTestFunctions_fold (find root "Identifier")) with (used0 := ["describe"; "it"])
    as (used & Hused & Hnd & Hin).
  - apply Forall_forall. intros pn Hpn. apply list_elem_of_In in Hpn.
    unfold find in Hpn. apply filter_In in Hpn as [_ H]. exact H.
  - repeat constructor; [|intros H; apply elem_of_nil in H; destruct H].
    intros H. apply list_elem_of_singleton in H. discriminate H.
  - exists used. split; [exact Hused|]. split; [exact Hnd|].
    intros s. rewrite Hin. rewrite !elem_of_cons. split.
    + intros [[H|[H|H]]|H]; auto. apply elem_of_nil in H. destruct H.
    + intros [H|[H|H]]; auto.
Qed.

(** ** [ensureLodashImport] (lines 543-565) *)

Lemma importsAtTop_lodashImport body :
  importsAtTop body -> importsAtTop (Should.Second.lodashImport :: body).
Proof.
  intros H. constructor; [|assumption]. split; [reflexivity|].
  intros _. eexists. reflexivity.
Qed.

Lemma countIn_lodashImport :
  countIn ["lodash"; "_"] (nodes Should.Second.lodashImport) = 1.
Proof. reflexivity. Qed.

(** On a program whose import declarations are statements of the program,
    [ensureLodashImport] succeeds, leaves one import declaration from
    [lodash] or [_] where there was none and as many as before otherwise,
    and changes nothing when it is called again. *)
Theorem lodash_import_is_ensured_once (body : list val) :
  importsAtTop body ->
  exists out,
    Should.Second.ensureLodashImport (Src.file body) = Ok out /\
    Should.Second.ensureLodashImport out = Ok out /\
    importCount ["lodash"; "_"] out = Nat.max 1 (importCount ["lodash"; "_"] (Src.file body)).
Proof.
  intros Htop. unfold Should.Second.ensureLodashImport.
  destruct (importsFrom_total ["lodash"; "_"] body Htop) as (l & Hl).
  rewrite Hl. cbn [mbind result_bind].
  pose proof (importsFrom_length _ _ _ Hl) as Hlen. rewrite Hlen.
  destruct (decide (importCount ["lodash"; "_"] (Src.file body) = 0)) as [Hnone|Hsome].
  - rewrite Hnone. cbn [length bool_decide]. rewrite insertAtTop_file.
    exists (Src.file (Should.Second.lodashImport :: body)). split; [reflexivity|].
    destruct (importsFrom_total ["lodash"; "_"] _ (importsAtTop_lodashImport _ Htop))
      as (l' & Hl').
    rewrite Hl'. cbn [mbind result_bind].
    rewrite (importsFrom_length _ _ _ Hl'), importCount_cons, countIn_lodashImport, Hnone.
    split; reflexivity.
  - rewrite bool_decide_eq_true_2 by lia.
    exists (Src.file body). split; [reflexivity|]. rewrite Hl. cbn [mbind result_bind].
    rewrite Hlen, bool_decide_eq_true_2 by lia. split; [reflexivity|lia].
Qed.

(** The theorem at [foo();]. *)
Lemma lodash_import_is_ensured_once_witness :
  exists out,
    Should.Second.ensureLodashImport (Src.file Examples.noImports) = Ok out /\
    Should.Second.ensureLodashImport out = Ok out /\
    importCount ["lodash"; "_"] out = 1.
Proof.
  apply (lodash_import_is_ensured_once Examples.noImports).
  unfold importsAtTop. statement_by_statement.
Defined.

(** ** Assertions written as a chain on [should] *)

Lemma objects_dot o p : Should.objects (Src.dot o p) = Src.dot o p :: Should.objects o.
Proof. reflexivity. Qed.

Lemma through_snoc x (names : list string) name :
  through x (names ++ [name])%list = Src.dot (through x names) name.
Proof. unfold through. rewrite foldl_app. reflexivity. Qed.

Lemma is_str_VStr (a b : string) : is_str (VStr a) b = String.eqb a b.
Proof. reflexivity. Qed.

Lemma isIdentifier_ident p name : Should.isIdentifier (j.ident p) name = Ok (String.eqb p name).
Proof. reflexivity. Qed.

Lemma not_among (names : list string) name :
  bool_decide ("not" ∈ (names ++ [name])%list)
  = (String.eqb name "not" || bool_decide ("not" ∈ names)).
Proof.
  destruct (String.eqb_spec name "not") as [->|Hne]; simpl.
  - apply bool_decide_eq_true. apply elem_of_app. right. apply list_elem_of_singleton. reflexivity.
  - apply bool_decide_ext. rewrite elem_of_app, list_elem_of_singleton.
    split; [intros [H|H]; [assumption|congruence] | intros H; left; assumption].
Qed.

(** Reads the property of a member expression written with [Src.dot]. *)
Ltac read_dot :=
  change (check "MemberExpression" (Src.dot ?o ?p)) with true; cbv iota;
  change (prop (Src.dot ?o ?p) "property") with (Ok (j.ident p)); cbn [mbind result_bind];
  change (check "Identifier" (j.ident ?p)) with true; cbv iota;
  change (prop (j.ident ?p) "name") with (Ok (VStr p)); cbn [mbind result_bind];
  rewrite ?is_str_VStr.

Lemma subjectLoop_through x names isNegated :
  "should" ∉ names ->
  Should.Second.subjectLoop (Should.objects (through (Src.dot x "should") names)) isNegated
  = Ok (x, isNegated || bool_decide ("not" ∈ names)).
Proof.
  revert isNegated. induction names as [|name names IH] using rev_ind; intros isNegated Hno.
  - cbn. rewrite orb_false_r. reflexivity.
  - rewrite through_snoc, objects_dot. cbn [Should.Second.subjectLoop]. read_dot.
    destruct (String.eqb_spec name "should") as [->|_].
    { exfalso. apply Hno. apply elem_of_app. right. apply list_elem_of_singleton. reflexivity. }
    rewrite IH by (intros Hin; apply Hno, elem_of_app; left; exact Hin).
    rewrite not_among. destruct (String.eqb name "not"), isNegated; reflexivity.
Qed.


Lemma hasShould_through x names :
  Should.hasShould (Should.objects (through (Src.dot x "should") names)) = Ok true.
Proof.
  induction names as [|name names IH] using rev_ind; [reflexivity|].
  rewrite through_snoc, objects_dot. cbn [Should.hasShould].
  change (check "MemberExpression" (Src.dot ?o ?p)) with true. cbv iota.
  change (prop (Src.dot ?o ?p) "property") with (Ok (j.ident p)). cbn [mbind result_bind].
  rewrite isIdentifier_ident. cbn [mbind result_bind].
  rewrite IH. destruct (String.eqb name "should"); reflexivity.
Qed.

(** The loop of the filter reads every member expression down the chain
    and loses no name it has read. *)
Lemma propertyNamesLoop_grows currents chain :
  exists chain', Should.Second.propertyNamesLoop currents chain = Ok chain' /\
                 forall name, In name chain -> In name chain'.
Proof.
  revert chain. induction currents as [|current rest IH]; intros chain; [eauto|].
  cbn [Should.Second.propertyNamesLoop].
  destruct (check "MemberExpression" current) eqn:Hcheck; [|eauto].
  destruct current as [| | | | | |fs]; try discriminate. cbn [prop mbind result_bind].
  destruct (check "Identifier" _) eqn:Hid; [|apply IH].
  destruct (default VUndef (field "property" fs)) as [| | | | | |pfs]; try discriminate.
  cbn [prop mbind result_bind].
  destruct (IH (default VUndef (field "name" pfs) :: chain)) as (chain' & H & Hin).
  exists chain'. split; [exact H|]. intros name Hname. apply Hin. right. exact Hname.
Qed.

Lemma propertyNamesLoop_through x names chain :
  exists chain',
    Should.Second.propertyNamesLoop (Should.objects (through (Src.dot x "should") names)) chain
    = Ok chain' /\
    existsb (fun name => is_str name "should") chain' = true.
Proof.
  revert chain. induction names as [|name names IH] using rev_ind; intros chain.
  - unfold through. cbn [foldl]. rewrite objects_dot.
    cbn [Should.Second.propertyNamesLoop]. read_dot.
    destruct (propertyNamesLoop_grows (Should.objects x) (VStr "should" :: chain))
      as (chain' & -> & Hin).
    exists chain'. split; [reflexivity|]. apply existsb_exists.
    exists (VStr "should"). split; [apply Hin; left; reflexivity|reflexivity].
  - rewrite through_snoc, objects_dot. cbn [Should.Second.propertyNamesLoop]. read_dot. apply IH.
Qed.

Section Chains.

(** The subject [x] is a node; [names] are the properties written between
    [should] and the assertion, none of them [should] itself. *)
Variable fs : list (string * val).
Variable names : list string.
Variable args : list val.
Hypothesis no_should : "should" ∉ names.

Local Abbreviation x := (VObj fs).
Local Abbreviation isNegated := (bool_decide ("not" ∈ names)).
Local Abbreviation assertion m := (Src.call (through (Src.dot x "should") names) m args).

Lemma calleeNamed_call o m : Should.calleeNamed m (Src.call o m args) = Ok (Some (Src.dot o m)).
Proof.
  unfold Should.calleeNamed, Src.call.
  change (prop (j.callExpression ?c ?a) "callee") with (Ok c). cbn [mbind result_bind].
  change (check "MemberExpression" (Src.dot ?a ?b)) with true. cbv iota.
  change (prop (Src.dot ?a ?b) "property") with (Ok (j.ident b)). cbn [mbind result_bind].
  rewrite isIdentifier_ident, String.eqb_refl. reflexivity.
Qed.

Lemma calleeAmong_call o m ms :
  includes ms (VStr m) = true ->
  Should.calleeAmong ms (Src.call o m args) = Ok (Some (Src.dot o m)).
Proof.
  intros Hm. unfold Should.calleeAmong, Src.call.
  change (prop (j.callExpression ?c ?a) "callee") with (Ok c). cbn [mbind result_bind].
  read_dot. rewrite Hm. reflexivity.
Qed.

Lemma through_not_bare :
  Should.isIdentifier (through (Src.dot x "should") names) "should" = Ok false.
Proof.
  destruct names as [|name names'] using rev_ind; [reflexivity|].
  rewrite through_snoc. reflexivity.
Qed.

Lemma through_member : check "MemberExpression" (through (Src.dot x "should") names) = true.
Proof.
  destruct names as [|name names'] using rev_ind; [reflexivity|].
  rewrite through_snoc. reflexivity.
Qed.

(** The second version rewrites [x.should. ... .equal(args)] whatever
    properties stand between [should] and [equal]: to
    [assert.notStrictEqual(x, args)] when one of them is [not], wherever it
    stands, and to [assert.strictEqual(x, args)] otherwise; the arguments
    keep their order. *)
Theorem negation_is_read_off_the_whole_chain :
  Should.Second.equalFilter (assertion "equal") = Ok true /\
  Should.Second.equalReplacement (assertion "equal")
  = Ok (Should.assertCall (if isNegated then "notStrictEqual" else "strictEqual") (x :: args)).
Proof.
  split.
  - unfold Should.Second.equalFilter. rewrite calleeNamed_call. cbn [mbind result_bind].
    change (prop (Src.dot ?o ?p) "object") with (Ok o). cbn [mbind result_bind].
    rewrite through_not_bare. cbn [mbind result_bind]. rewrite through_member.
    destruct (propertyNamesLoop_through x names []) as (chain & -> & Hchain).
    cbn [mbind result_bind]. rewrite Hchain. reflexivity.
  - unfold Should.Second.equalReplacement, Src.call.
    change (prop (j.callExpression ?c ?a) "callee") with (Ok c). cbn [mbind result_bind].
    change (arguments_of (j.callExpression ?c ?a)) with (Ok a). cbn [mbind result_bind].
    change (prop (Src.dot ?o ?p) "object") with (Ok o). cbn [mbind result_bind].
    rewrite through_not_bare. cbn [mbind result_bind].
    rewrite (subjectLoop_through _ _ _ no_should). reflexivity.
Qed.

(** The first version rewrites [x.should. ... .equal(args)] only when
    nothing, or [not] alone, stands between [should] and [equal]:
    [x.should.be.equal(y)] and [x.should.not.be.equal(y)] are left to the
    other passes.  What it rewrites becomes [assert.equal] or
    [assert.notEqual], the loose comparisons. *)
Theorem first_version_reads_negation_next_to_should :
  Should.First.equalFilter (assertion "equal")
  = Ok (bool_decide (names = [] \/ names = ["not"])) /\
  (names = [] ->
   Should.First.equalReplacement (assertion "equal")
   = Ok (Should.assertCall "equal" (x :: args))) /\
  (names = ["not"] ->
   Should.First.equalReplacement (assertion "equal")
   = Ok (Should.assertCall "notEqual" (x :: args))).
Proof.
  split; [|split; intros ->; reflexivity].
  unfold Should.First.equalFilter. rewrite calleeNamed_call. cbn [mbind result_bind].
  change (prop (Src.dot ?o ?p) "object") with (Ok o). cbn [mbind result_bind].
  rewrite through_not_bare. cbn [mbind result_bind]. rewrite through_member.
  destruct names as [|name names' _] using rev_ind; [reflexivity|].
  rewrite through_snoc.
  change (prop (Src.dot ?o ?p) "property") with (Ok (j.ident p)). cbn [mbind result_bind].
  rewrite !isIdentifier_ident. cbn [mbind result_bind].
  destruct (String.eqb_spec name "should") as [->|_].
  { exfalso. apply no_should, elem_of_app. right. apply list_elem_of_singleton. reflexivity. }
  change (prop (Src.dot ?o ?p) "object") with (Ok o). cbn [mbind result_bind].
  assert (Hno : "should" ∉ names') by (intros Hin; apply no_should, elem_of_app; left; exact Hin).
  destruct (String.eqb_spec name "not") as [->|Hname].
  - destruct names' as [|name' names'' _] using rev_ind; [reflexivity|].
    rewrite through_snoc. cbn [andb].
    change (check "MemberExpression" (Src.dot ?o ?p)) with true. cbv iota.
    change (prop (Src.dot ?o ?p) "property") with (Ok (j.ident p)). cbn [mbind result_bind].
    rewrite isIdentifier_ident.
    destruct (String.eqb_spec name' "should") as [->|_].
    { exfalso. apply Hno, elem_of_app. right. apply list_elem_of_singleton. reflexivity. }
    rewrite bool_decide_eq_false_2; [reflexivity|].
    intros [H|H]; apply (f_equal length) in H; rewrite !length_app in H; simpl in H; lia.
  - cbn [andb]. rewrite bool_decide_eq_false_2; [reflexivity|].
    intros [H|H].
    + apply (f_equal length) in H. rewrite length_app in H. simpl in H. lia.
    + destruct names' as [|a names'']; simpl in H; [congruence|].
      apply (f_equal length) in H. simpl in H. rewrite length_app in H. simpl in H. lia.
Qed.

(** For [deepEqual] and [eql] alike: the second version rewrites
    [x.should. ... .eql(args)] to [assert.notDeepStrictEqual(x, args)] when
    [not] stands anywhere in the chain and to [assert.deepStrictEqual(x, args)]
    otherwise; the first version rewrites only [x.should.eql(args)], with
    nothing in between, and has no negated form. *)
Theorem deep_negation_is_read_off_the_whole_chain (m : string) :
  m = "deepEqual" \/ m = "eql" ->
  Should.Second.deepEqualFilter (assertion m) = Ok true /\
  Should.Second.deepEqualReplacement (assertion m)
  = Ok (Should.assertCall (if isNegated then "notDeepStrictEqual" else "deepStrictEqual")
          (x :: args)) /\
  Should.First.deepEqualFilter (assertion m) = Ok (bool_decide (names = [])) /\
  (names = [] ->
   Should.First.deepEqualReplacement (assertion m)
   = Ok (Should.assertCall "deepStrictEqual" (x :: args))).
Proof.
  intros Hm.
  assert (Hamong : includes ["deepEqual"; "eql"] (VStr m) = true)
    by (destruct Hm as [->| ->]; reflexivity).
  split; [|split; [|split]].
  - unfold Should.Second.deepEqualFilter. rewrite (calleeAmong_call _ _ _ Hamong).
    cbn [mbind result_bind].
    change (prop (Src.dot ?o ?p) "object") with (Ok o). cbn [mbind result_bind].
    rewrite through_not_bare. cbn [mbind result_bind]. rewrite through_member.
    apply hasShould_through.
  - unfold Should.Second.deepEqualReplacement, Src.call.
    change (prop (j.callExpression ?c ?a) "callee") with (Ok c). cbn [mbind result_bind].
    change (arguments_of (j.callExpression ?c ?a)) with (Ok a). cbn [mbind result_bind].
    change (prop (Src.dot ?o ?p) "object") with (Ok o). cbn [mbind result_bind].
    rewrite through_not_bare. cbn [mbind result_bind].
    rewrite (subjectLoop_through _ _ _ no_should). reflexivity.
  - unfold Should.First.deepEqualFilter. rewrite (calleeAmong_call _ _ _ Hamong).
    cbn [mbind result_bind].
    change (prop (Src.dot ?o ?p) "object") with (Ok o). cbn [mbind result_bind].
    rewrite through_not_bare. cbn [mbind result_bind]. rewrite through_member.
    destruct names as [|name names' _] using rev_ind; [reflexivity|].
    rewrite through_snoc.
    change (prop (Src.dot ?o ?p) "property") with (Ok (j.ident p)). cbn [mbind result_bind].
    rewrite isIdentifier_ident.
    destruct (String.eqb_spec name "should") as [->|_].
    { exfalso. apply no_should, elem_of_app. right. apply list_elem_of_singleton. reflexivity. }
    rewrite bool_decide_eq_false_2; [reflexivity|].
    intros H. apply (f_equal length) in H. rewrite length_app in H. simpl in H. lia.
  - intros ->. destruct Hm as [->| ->]; reflexivity.
Qed.


End Chains.

(** Settles that a name is not in a list written out. *)
Ltac not_listed :=
  let H := fresh in
  intros H;
  repeat (apply elem_of_cons in H as [H|H]; [discriminate H|]);
  apply elem_of_nil in H; exact H.

(** The theorem at [x.should.not.be.equal(5)]. *)
Lemma negation_is_read_off_the_whole_chain_witness :
  Should.Second.equalReplacement
    (Src.call (Src.dot (Src.dot (Src.dot (j.ident "x") "should") "not") "be") "equal"
       [Src.numericLiteral 5])
  = Ok (Should.assertCall "notStrictEqual" [j.ident "x"; Src.numericLiteral 5]).
Proof.
  refine (proj2 (negation_is_read_off_the_whole_chain
                   [("type", VStr "Identifier"); ("name", VStr "x")] ["not"; "be"]
                   [Src.numericLiteral 5] _)).
  not_listed.
Defined.

(** The theorem at [x.should.not.be.equal(5)]: the first version's filter
    rejects it. *)
Lemma first_version_reads_negation_next_to_should_witness :
  Should.First.equalFilter
    (Src.call (Src.dot (Src.dot (Src.dot (j.ident "x") "should") "not") "be") "equal"
       [Src.numericLiteral 5])
  = Ok false.
Proof.
  refine (proj1 (first_version_reads_negation_next_to_should
                   [("type", VStr "Identifier"); ("name", VStr "x")] ["not"; "be"]
                   [Src.numericLiteral 5] _)).
  not_listed.
Defined.

(** The theorem at [x.should.not.eql(5)]. *)
Lemma deep_negation_is_read_off_the_whole_chain_witness :
  Should.Second.deepEqualReplacement
    (Src.call (Src.dot (Src.dot (j.ident "x") "should") "not") "eql" [Src.numericLiteral 5])
  = Ok (Should.assertCall "notDeepStrictEqual" [j.ident "x"; Src.numericLiteral 5]) /\
  Should.First.deepEqualFilter
    (Src.call (Src.dot (Src.dot (j.ident "x") "should") "not") "eql" [Src.numericLiteral 5])
  = Ok false.
Proof.
  destruct (deep_negation_is_read_off_the_whole_chain
              [("type", VStr "Identifier"); ("name", VStr "x")] ["not"]
              [Src.numericLiteral 5]) with (m := "eql") as (_ & H2 & H3 & _).
  - not_listed.
  - right. reflexivity.
  - split; assumption.
Defined.


(** ** Assertions written as a call on [should] *)

(** [should.exist(x)] becomes [assert.ok(x)] and [should.not.exist(x)]
    becomes [assert.equal(x, undefined)], the loose comparison, which [null]
    passes as well; further arguments are dropped. *)
Theorem existence_assertions (fs : list (string * val)) (rest : list val) :
  Should.existFilter (Src.call (j.ident "should") "exist" (VObj fs :: rest)) = Ok true /\
  Should.existReplacement (Src.call (j.ident "should") "exist" (VObj fs :: rest))
  = Ok (Should.assertCall "ok" [VObj fs]) /\
  Should.existFilter (Src.call (Src.dot (j.ident "should") "not") "exist" (VObj fs :: rest))
  = Ok true /\
  Should.existReplacement (Src.call (Src.dot (j.ident "should") "not") "exist" (VObj fs :: rest))
  = Ok (Should.assertCall "equal" [VObj fs; j.ident "undefined"]).
Proof. repeat split; reflexivity. Qed.

(** [should(x).equal(args)] is left alone by the [equal] pass of either
    version and becomes [assert.strictEqual(x, args)] in the last pass, also
    in the first version, whose [equal] pass turns [x.should.equal(y)] into
    the loose [assert.equal]; [should(x).ok()] becomes [assert.ok(x)]. *)
Theorem should_call_is_strict (fs : list (string * val)) (more args : list val) :
  Should.First.equalFilter
    (Src.call (j.callExpression (j.ident "should") (VObj fs :: more)) "equal" args) = Ok false /\
  Should.Second.equalFilter
    (Src.call (j.callExpression (j.ident "should") (VObj fs :: more)) "equal" args) = Ok false /\
  Should.shouldCallFilter
    (Src.call (j.callExpression (j.ident "should") (VObj fs :: more)) "equal" args) = Ok true /\
  Should.shouldCallReplacement
    (Src.call (j.callExpression (j.ident "should") (VObj fs :: more)) "equal" args)
  = Ok (Some (Should.assertCall "strictEqual" (VObj fs :: args))) /\
  Should.shouldCallFilter
    (Src.call (j.callExpression (j.ident "should") (VObj fs :: more)) "ok" args) = Ok true /\
  Should.shouldCallReplacement
    (Src.call (j.callExpression (j.ident "should") (VObj fs :: more)) "ok" args)
  = Ok (Some (Should.assertCall "ok" [VObj fs])).
Proof. repeat split; reflexivity. Qed.

(** ** What the passes leave alone *)

Lemma calleeNamed_assert name m args :
  Should.calleeNamed name (Should.assertCall m args)
  = Ok (if String.eqb m name
        then Some (j.memberExpression (j.ident "assert") (j.ident m) false) else None).
Proof. reflexivity. Qed.

Lemma calleeAmong_assert names m args :
  Should.calleeAmong names (Should.assertCall m args)
  = Ok (if includes names (VStr m)
        then Some (j.memberExpression (j.ident "assert") (j.ident m) false) else None).
Proof. reflexivity. Qed.

(** No filter of the passes embedded here accepts a call of a method of
    [assert], whatever the method and the arguments: what one pass has
    written, no pass rewrites again. *)
Theorem assert_calls_are_left_alone (m : string) (args : list val) :
  Forall (fun f : val -> result bool => f (Should.assertCall m args) = Ok false)
    [ Should.First.equalFilter; Should.Second.equalFilter;
      Should.First.deepEqualFilter; Should.Second.deepEqualFilter;
      Should.First.booleanFilter; Should.Second.throwFilter;
      Should.existFilter; Should.doesNotThrowFilter; Should.shouldCallFilter ].
Proof.
  repeat apply List.Forall_cons; try apply List.Forall_nil.
  - unfold Should.First.equalFilter. rewrite calleeNamed_assert.
    destruct (String.eqb m "equal"); reflexivity.
  - unfold Should.Second.equalFilter. rewrite calleeNamed_assert.
    destruct (String.eqb m "equal"); reflexivity.
  - unfold Should.First.deepEqualFilter. rewrite calleeAmong_assert.
    destruct (includes _ _); reflexivity.
  - unfold Should.Second.deepEqualFilter. rewrite calleeAmong_assert.
    destruct (includes _ _); reflexivity.
  - unfold Should.First.booleanFilter. rewrite calleeAmong_assert.
    destruct (includes _ _); reflexivity.
  - unfold Should.Second.throwFilter. rewrite calleeAmong_assert.
    destruct (includes _ _); reflexivity.
  - unfold Should.existFilter. rewrite calleeNamed_assert.
    destruct (String.eqb m "exist"); reflexivity.
  - unfold Should.doesNotThrowFilter. rewrite calleeNamed_assert.
    destruct (String.eqb m "doesNotThrow"); reflexivity.
  - reflexivity.
Qed.
